(** * imslp_enrich.py: page-identity resolution and metadata aggregation

    A shallow embedding of [src/backend/python/imslp_enrich.py] and the
    properties its specification states about it.

    Conventions of the embedding.
    - A Python [str] is the [string] of its UTF-8 bytes; a lone surrogate,
      which a [str] taken from [sys.argv] or from JSON can hold, is its
      three-byte generalised encoding.  A character is a lead byte with
      its continuation bytes.
    - A value that comes out of [r.json()] or out of an [imageinfo]
      dictionary is a [json] value (numbers are integers); truthiness,
      [dict.get], [x or y] and [x is not None] are the Python operations
      on such values, and a [str] method called on a value that is not a
      [str] raises as it does in Python.
    - An exception is a value of type [exn]; a computation that may raise
      returns [exn + A].
    - The network and the clock are made explicit: a [Transport] tells what
      the n-th GET of the process answers, and a [world] records the
      position in that sequence together with the trace of GETs and sleeps.
    - The wiki client is explicit as well: [ImslpClient()] gives a [Site]
      or raises, and a [Site] tells what the n-th page lookup of the
      process gives or raises.
    - A Python [float] is a binary64 number ([float], with the IEEE
      operations of the kernel).  [time.sleep] refuses a delay that is
      negative, not a number or too large; the seconds of a sleep that
      took place are recorded in the trace as the exact rational value of
      the delay. *)

From Stdlib Require Import ZArith QArith Qpower Lqa Ascii String List Lia Bool.
From Stdlib Require Import PrimFloat SpecFloat FloatOps.
From stdpp Require Import base option list strings gmap fin_maps pretty.

Local Open Scope string_scope.
Set Warnings "-register-all".


(** ** Exceptions *)

Inductive exn_class : Type :=
| AttributeError
| TypeError
| LookupError
| ValueError
| OverflowError
| UnicodeEncodeError
| TransportError
| OtherError.

Record exn : Type := Exn { exn_class_of : exn_class; exn_msg : string }.

(** [str(e)] *)
Definition str_of_exn (e : exn) : string := exn_msg e.

Definition is_attribute_error (e : exn) : bool :=
  match exn_class_of e with AttributeError => true | _ => false end.

(** A computation that returns or raises. *)
Definition result (A : Type) : Type := (exn + A)%type.

Definition rbind {A B} (r : result A) (k : A -> result B) : result B :=
  match r with
  | inl e => inl e
  | inr a => k a
  end.

(** [getattr(obj, name, default)]: only an [AttributeError] gives the
    default, any other exception of the attribute access propagates. *)
Definition getattr_default {A} (access : result A) (default : A) : result A :=
  match access with
  | inl e => if is_attribute_error e then inr default else inl e
  | inr v => inr v
  end.

(** ** Strings *)

(** [p] is a prefix of [s]. *)
Fixpoint has_prefix (p s : string) {struct p} : bool :=
  match p with
  | EmptyString => true
  | String a p' =>
      match s with
      | EmptyString => false
      | String b s' => Ascii.eqb a b && has_prefix p' s'
      end
  end.

(** [s.startswith(p)] *)
Definition startswith (s p : string) : bool := has_prefix p s.

Fixpoint str_drop (n : nat) (s : string) : string :=
  match n, s with
  | 0, _ => s
  | S _, EmptyString => EmptyString
  | S k, String _ s' => str_drop k s'
  end.

Fixpoint str_take (n : nat) (s : string) : string :=
  match n, s with
  | 0, _ => EmptyString
  | S _, EmptyString => EmptyString
  | S k, String c s' => String c (str_take k s')
  end.

(** [s.split(sep, 1)[1]]: what follows the first occurrence of [sep];
    [IndexError] when there is none. *)
Fixpoint split_after (sep s : string) : option string :=
  if has_prefix sep s then Some (str_drop (String.length sep) s)
  else match s with
       | EmptyString => None
       | String _ s' => split_after sep s'
       end.

(** [s.replace(old, new)] for a non-empty [old]: the occurrences of [old]
    are taken from the left and do not overlap.  [skip] counts the
    characters of a matched occurrence still to be passed over. *)
Fixpoint replace_from (old new : string) (skip : nat) (s : string) : string :=
  match s with
  | EmptyString => EmptyString
  | String c s' =>
      match skip with
      | S k => replace_from old new k s'
      | 0 =>
          if has_prefix old s
          then new ++ replace_from old new (String.length old - 1) s'
          else String c (replace_from old new 0 s')
      end
  end.

(** The program calls [replace] with the literals ['http:'],
    ['//imslp.org/'] and ['_'] only; for an empty [old] (where Python
    inserts [new] between all characters) the string is returned as it is. *)
Definition str_replace (old new s : string) : string :=
  match old with
  | EmptyString => s
  | _ => replace_from old new 0 s
  end.

Definition is_ascii_digit (c : ascii) : bool :=
  let n := nat_of_ascii c in (48 <=? n)%nat && (n <=? 57)%nat.

Fixpoint all_chars (p : ascii -> bool) (s : string) : bool :=
  match s with
  | EmptyString => true
  | String c s' => p c && all_chars p s'
  end.

(** [s.isdigit()] as far as the ASCII characters decide it: at least one
    character, all of them ASCII decimal digits.  This is [str.isdigit]
    on every string of ASCII characters and on every string with an ASCII
    character that is not a digit; the digits that Unicode has outside
    ASCII are not told from other characters, and the statements that
    depend on the test say which targets they are about. *)
Definition isdigit (s : string) : bool :=
  match s with
  | EmptyString => false
  | _ => all_chars is_ascii_digit s
  end.

(** The byte [c] lies between [lo] and [hi]. *)
Definition byte_in (lo hi : nat) (c : ascii) : bool :=
  let n := nat_of_ascii c in (lo <=? n)%nat && (n <=? hi)%nat.

Definition is_ascii (c : ascii) : bool := byte_in 0 127 c.

(** The number of bytes of the character whose first byte is [c]. *)
Definition char_width (c : ascii) : nat :=
  if byte_in 0 191 c then 1
  else if byte_in 192 223 c then 2
  else if byte_in 224 239 c then 3
  else 4.

(** [s[0]] for a non-empty [s]: its first character. *)
Definition first_char (s : string) : string :=
  match s with
  | EmptyString => EmptyString
  | String c _ => str_take (char_width c) s
  end.

(** What may follow the lead byte [c] of a well-formed UTF-8 sequence. *)
Definition second_byte_ok (c c1 : ascii) : bool :=
  let n := nat_of_ascii c in
  if (n =? 224)%nat then byte_in 160 191 c1
  else if (n =? 237)%nat then byte_in 128 159 c1
  else if (n =? 240)%nat then byte_in 144 191 c1
  else if (n =? 244)%nat then byte_in 128 143 c1
  else byte_in 128 191 c1.

(** U+FFFD *)
Definition replacement_character : string :=
  String "239" (String "191" (String "189" EmptyString)).

(** [bs.decode('utf-8', 'replace')]: the well-formed sequences are kept,
    every maximal ill-formed part becomes U+FFFD. *)
Fixpoint decode_replace (s : string) : string :=
  match s with
  | EmptyString => EmptyString
  | String c s1 =>
      if is_ascii c then String c (decode_replace s1)
      else if byte_in 194 223 c then
        match s1 with
        | String c1 s2 =>
            if second_byte_ok c c1 then String c (String c1 (decode_replace s2))
            else replacement_character ++ decode_replace s1
        | EmptyString => replacement_character
        end
      else if byte_in 224 239 c then
        match s1 with
        | String c1 s2 =>
            if second_byte_ok c c1 then
              match s2 with
              | String c2 s3 =>
                  if byte_in 128 191 c2
                  then String c (String c1 (String c2 (decode_replace s3)))
                  else replacement_character ++ decode_replace s2
              | EmptyString => replacement_character
              end
            else replacement_character ++ decode_replace s1
        | EmptyString => replacement_character
        end
      else if byte_in 240 244 c then
        match s1 with
        | String c1 s2 =>
            if second_byte_ok c c1 then
              match s2 with
              | String c2 s3 =>
                  if byte_in 128 191 c2 then
                    match s3 with
                    | String c3 s4 =>
                        if byte_in 128 191 c3
                        then String c (String c1 (String c2 (String c3 (decode_replace s4))))
                        else replacement_character ++ decode_replace s3
                    | EmptyString => replacement_character
                    end
                  else replacement_character ++ decode_replace s2
              | EmptyString => replacement_character
              end
            else replacement_character ++ decode_replace s1
        | EmptyString => replacement_character
        end
      else replacement_character ++ decode_replace s1
  end.

(** The string is well-formed UTF-8: [s.encode('utf-8')] does not raise. *)
Fixpoint valid_utf8 (s : string) : bool :=
  match s with
  | EmptyString => true
  | String c s1 =>
      if is_ascii c then valid_utf8 s1
      else if byte_in 194 223 c then
        match s1 with
        | String c1 s2 => second_byte_ok c c1 && valid_utf8 s2
        | EmptyString => false
        end
      else if byte_in 224 239 c then
        match s1 with
        | String c1 (String c2 s3) =>
            second_byte_ok c c1 && byte_in 128 191 c2 && valid_utf8 s3
        | _ => false
        end
      else if byte_in 240 244 c then
        match s1 with
        | String c1 (String c2 (String c3 s4)) =>
            second_byte_ok c c1 && byte_in 128 191 c2 && byte_in 128 191 c3
            && valid_utf8 s4
        | _ => false
        end
      else false
  end.

Definition hex_value (c : ascii) : option nat :=
  let n := nat_of_ascii c in
  if (48 <=? n)%nat && (n <=? 57)%nat then Some (n - 48)%nat
  else if (65 <=? n)%nat && (n <=? 70)%nat then Some (n - 55)%nat
  else if (97 <=? n)%nat && (n <=? 102)%nat then Some (n - 87)%nat
  else None.

(** [urllib.parse.unquote_to_bytes]: [%XY] with two hexadecimal digits
    becomes the byte [0xXY], any other [%] stays. *)
Fixpoint unquote_to_bytes (s : string) : string :=
  match s with
  | EmptyString => EmptyString
  | String c s' =>
      if Ascii.eqb c "%"%char then
        match s' with
        | String h (String l s'') =>
            match hex_value h, hex_value l with
            | Some a, Some b => String (ascii_of_nat (16 * a + b)) (unquote_to_bytes s'')
            | _, _ => String c (unquote_to_bytes s')
            end
        | _ => String c (unquote_to_bytes s')
        end
      else String c (unquote_to_bytes s')
  end.

(** No character of the string is a percent sign. *)
Definition no_percent (s : string) : bool :=
  all_chars (fun c => negb (Ascii.eqb c "%")) s.

(** The loop of [unquote] over the ASCII runs of the string: [run] is the
    ASCII run read so far; it is percent-decoded to bytes and those are
    decoded as UTF-8 with [errors='replace'] when the run ends; the
    characters outside ASCII are kept as they are. *)
Fixpoint unquote_runs (run s : string) : string :=
  match s with
  | EmptyString => decode_replace (unquote_to_bytes run)
  | String c s' =>
      if is_ascii c then unquote_runs (run ++ String c EmptyString) s'
      else decode_replace (unquote_to_bytes run) ++ String c (unquote_runs EmptyString s')
  end.

(** [urllib.parse.unquote(s)] *)
Definition unquote (s : string) : string :=
  if no_percent s then s else unquote_runs EmptyString s.

Definition is_always_safe (c : ascii) : bool :=
  let n := nat_of_ascii c in
  ((65 <=? n)%nat && (n <=? 90)%nat) || ((97 <=? n)%nat && (n <=? 122)%nat)
  || ((48 <=? n)%nat && (n <=? 57)%nat)
  || Ascii.eqb c "_" || Ascii.eqb c "." || Ascii.eqb c "-" || Ascii.eqb c "~".

Definition hex_digit (n : nat) : ascii :=
  if (n <? 10)%nat then ascii_of_nat (48 + n) else ascii_of_nat (55 + n).

(** [urllib.parse.quote_from_bytes(bs)] with its default [safe='/']. *)
Fixpoint quote_from_bytes (s : string) : string :=
  match s with
  | EmptyString => EmptyString
  | String c s' =>
      if is_always_safe c || Ascii.eqb c "/" then String c (quote_from_bytes s')
      else
        let n := nat_of_ascii c in
        String "%" (String (hex_digit (n / 16)) (String (hex_digit (n mod 16))
          (quote_from_bytes s')))
  end.

(** The string begins with a lone surrogate (U+D800..U+DFFF), which has
    no UTF-8 encoding. *)
Definition at_surrogate (s : string) : bool :=
  match s with
  | String c (String c1 _) => Ascii.eqb c "237" && byte_in 160 191 c1
  | _ => false
  end.

(** The index of the first surrogate of the string, counted in characters
    from [pos], and the string from there on. *)
Fixpoint first_surrogate (pos : nat) (s : string) : option (nat * string) :=
  if at_surrogate s then Some (pos, s)
  else match s with
       | EmptyString => None
       | String c s' =>
           first_surrogate (if byte_in 128 191 c then pos else S pos) s'
       end.

(** The number of surrogates the string begins with. *)
Fixpoint surrogate_run (s : string) : nat :=
  match s with
  | String c (String c1 (String _ s3)) =>
      if Ascii.eqb c "237" && byte_in 160 191 c1 then S (surrogate_run s3) else 0
  | _ => 0
  end.

Definition lower_hex_digit (n : nat) : ascii :=
  if (n <? 10)%nat then ascii_of_nat (48 + n) else ascii_of_nat (87 + n).

(** [str(e)] of the [UnicodeEncodeError] that [s.encode('utf-8')] raises:
    it names the first surrogate of the string, or the position of the
    first run of them.  (The last case does not arise for a [str] that
    cannot be encoded.) *)
Definition encode_error_message (s : string) : string :=
  match first_surrogate 0 s with
  | Some (pos, String _ (String c1 (String c2 _)) as from) =>
      let run := surrogate_run from in
      if (run =? 1)%nat then
        let lo := ((nat_of_ascii c1 - 128) * 64 + (nat_of_ascii c2 - 128))%nat in
        "'utf-8' codec can't encode character '\ud"
        ++ String (lower_hex_digit (lo / 256))
             (String (lower_hex_digit (lo / 16 mod 16))
                (String (lower_hex_digit (lo mod 16)) EmptyString))
        ++ "' in position " ++ pretty pos ++ ": surrogates not allowed"
      else
        "'utf-8' codec can't encode characters in position " ++ pretty pos
        ++ "-" ++ pretty (pos + run - 1)%nat ++ ": surrogates not allowed"
  | _ => "surrogates not allowed"
  end.

(** [urllib.parse.quote(s)]: the string is encoded as UTF-8, which raises
    on a lone surrogate, and the bytes are quoted. *)
Definition quote (s : string) : result string :=
  if valid_utf8 s then inr (quote_from_bytes s)
  else inl (Exn UnicodeEncodeError (encode_error_message s)).

(** ['|'.join(chunk)] *)
Fixpoint str_join (sep : string) (l : list string) : string :=
  match l with
  | [] => EmptyString
  | [x] => x
  | x :: l' => x ++ sep ++ str_join sep l'
  end.

(** ** JSON values and the Python operations on them *)

Inductive json : Type :=
| JNull
| JBool (b : bool)
| JNum (z : Z)
| JStr (s : string)
| JArr (l : list json)
| JObj (kv : list (string * json)).

(** Truthiness ([if x], [not x], [x or y]). *)
Definition truthy (j : json) : bool :=
  match j with
  | JNull => false
  | JBool b => b
  | JNum z => negb (z =? 0)%Z
  | JStr s => negb (String.eqb s EmptyString)
  | JArr l => match l with [] => false | _ => true end
  | JObj kv => match kv with [] => false | _ => true end
  end.

Definition py_or (a b : json) : json := if truthy a then a else b.

Definition is_none (j : json) : bool :=
  match j with JNull => true | _ => false end.

Definition type_name (j : json) : string :=
  match j with
  | JNull => "NoneType"
  | JBool _ => "bool"
  | JNum _ => "int"
  | JStr _ => "str"
  | JArr _ => "list"
  | JObj _ => "dict"
  end.

Definition no_attribute (j : json) (attr : string) : exn :=
  Exn AttributeError ("'" ++ type_name j ++ "' object has no attribute '" ++ attr ++ "'").

(** Lookup in the key/value list of a dictionary (keys are distinct in a
    dictionary; the first binding is the one found). *)
Fixpoint assoc (k : string) (kv : list (string * json)) : option json :=
  match kv with
  | [] => None
  | (k', v) :: kv' => if String.eqb k k' then Some v else assoc k kv'
  end.

(** [d.get(k, dflt)], an [AttributeError] when [d] is not a dictionary. *)
Definition dict_get (d : json) (k : string) (dflt : json) : result json :=
  match d with
  | JObj kv => inr (default dflt (assoc k kv))
  | _ => inl (no_attribute d "get")
  end.

(** [d.values()] in insertion order. *)
Definition dict_values (d : json) : result (list json) :=
  match d with
  | JObj kv => inr (map snd kv)
  | _ => inl (no_attribute d "values")
  end.

(** [d[k]] on a dictionary. *)
Definition dict_item (d : json) (k : string) : result json :=
  match d with
  | JObj kv =>
      match assoc k kv with
      | Some v => inr v
      | None => inl (Exn LookupError ("'" ++ k ++ "'"))
      end
  | _ => inl (Exn TypeError ("'" ++ type_name d ++ "' object is not subscriptable"))
  end.

(** [x[0]] for a truthy [x]: the first element of a list, the first
    character of a string, [KeyError] on a dictionary (its keys are
    strings), [TypeError] on a number. *)
Definition index0 (x : json) : result json :=
  match x with
  | JArr (y :: _) => inr y
  | JArr [] => inl (Exn LookupError "list index out of range")
  | JStr (String c s) => inr (JStr (first_char (String c s)))
  | JStr EmptyString => inl (Exn LookupError "string index out of range")
  | JObj _ => inl (Exn LookupError "0")
  | _ => inl (Exn TypeError ("'" ++ type_name x ++ "' object is not subscriptable"))
  end.

(** A string method called on a value: [AttributeError] unless the value
    is a [str]. *)
Definition str_method (attr : string) (f : string -> json) (x : json) : result json :=
  match x with
  | JStr s => inr (f s)
  | _ => inl (no_attribute x attr)
  end.

(** [urllib.parse.unquote(x)]: it raises on every value that is not a
    [str] ([TypeError] where ['%' in x] is not defined, [AttributeError]
    where [x.split] is missing). *)
Definition unquote_value (x : json) : result string :=
  match x with
  | JStr s => inr (unquote s)
  | JArr _ | JObj _ => inl (no_attribute x "split")
  | _ => inl (Exn TypeError ("argument of type '" ++ type_name x ++ "' is not iterable"))
  end.

(** ** The wiki client's objects

    What [main] reads of the mwclient objects.  An attribute access or a
    method call either gives a value or raises; [page.images()],
    [page.categories()] and [page.revisions()] are consumed by [list(...)]
    at once, so each is the list or the exception of that consumption.
    The [name] and [page_title] of an image are [str] or [None]; a
    revision is a dictionary. *)

Record Category : Type := mkCategory {
  cat_name : result json
}.

Record Image : Type := mkImage {
  img_imageinfo : result json;
  img_page_title : result (option string);
  img_name : result (option string)
}.

Record Page : Type := mkPage {
  page_exists : bool;
  page_name : result json;
  page_page_title : result json;
  page_pageid : result json;
  page_namespace : result json;
  page_revision : result json;
  page_categories : result (list Category);
  page_images : result (list Image);
  page_revisions : result (list (list (string * json)))
}.

(** ** The network, the clock and the trace *)

Record Request : Type := mkRequest {
  rq_url : string;
  rq_params : list (string * string);
  rq_headers : list (string * string);
  rq_timeout : Z
}.

(** What the program reads of a [requests.Response]: [r.ok], [r.json()]
    (which raises on a body that is not JSON) and [r.text]. *)
Record Response : Type := mkResponse {
  ok : bool;
  json_body : result json;
  text : string
}.

(** The answer of the n-th GET of the process (counted from 0): a
    response, whatever its status, or a transport-level exception. *)
Definition Transport : Type := nat -> Request -> result Response.

Inductive event : Type :=
| EvGet (rq : Request)
| EvSleep (seconds : Q).

Record world : Type := mkWorld {
  next_call : nat;
  next_lookup : nat;
  trace : list event
}.

Definition world0 : world := mkWorld 0 0 [].

(** The page object that the n-th lookup [client._site.pages[title]] of
    the process gives (counted from 0), or the exception it raises. *)
Definition Site : Type := nat -> string -> result Page.

(** Effectful computations: they read and extend the world, and return
    or raise. *)
Definition M (A : Type) : Type := world -> result A * world.

Definition ret {A} (a : A) : M A := fun w => (inr a, w).
Definition raise {A} (e : exn) : M A := fun w => (inl e, w).
Definition bind {A B} (m : M A) (k : A -> M B) : M B :=
  fun w => match m w with
           | (inl e, w') => (inl e, w')
           | (inr a, w') => k a w'
           end.
Definition lift {A} (r : result A) : M A := fun w => (r, w).

(** [try: body  except Exception: handler] *)
Definition try_except {A} (body : M A) (handler : exn -> M A) : M A :=
  fun w => match body w with
           | (inl e, w') => handler e w'
           | (inr a, w') => (inr a, w')
           end.

Declare Scope m_scope.
Delimit Scope m_scope with M.
Notation "x <- m ;; k" := (bind m (fun x => k))
  (at level 100, m at next level, right associativity) : m_scope.
Notation "m ;;; k" := (bind m (fun _ => k))
  (at level 100, right associativity) : m_scope.

Definition sleeps_of (tr : list event) : list Q :=
  omap (fun ev => match ev with EvSleep d => Some d | EvGet _ => None end) tr.

Definition gets_of (tr : list event) : list Request :=
  omap (fun ev => match ev with EvGet rq => Some rq | EvSleep _ => None end) tr.

(** The value of a finite float. *)
Definition seconds (d : float) : Q :=
  match Prim2SF d with
  | S754_finite s m e =>
      let v := if (0 <=? e)%Z then inject_Z (Z.pos m * 2 ^ e)
               else Qmake (Z.pos m) (Z.to_pos (2 ^ (- e))) in
      Qred (if s then Qopp v else v)
  | _ => 0%Q
  end.

(** The exception with which [time.sleep(d)] refuses the delay [d], if it
    does: the delay is converted to nanoseconds, [d * 1e9] in binary64,
    which must fit a signed 64-bit integer, and it must not be negative.
    (The texts are those of CPython 3.11; at the one float whose
    nanoseconds are exactly [2^63] that version relies on an undefined
    conversion, and the refusal given here is that of the later versions.) *)
Definition sleep_refusal (d : float) : option exn :=
  if PrimFloat.is_nan d then Some (Exn ValueError "Invalid value NaN (not a number)")
  else
    let ns := (d * 1e9)%float in
    if PrimFloat.leb (-0x1p63)%float ns && PrimFloat.ltb ns 0x1p63%float then
      if PrimFloat.ltb d 0%float
      then Some (Exn ValueError "sleep length must be non-negative")
      else None
    else Some (Exn OverflowError "timestamp too large to convert to C _PyTime_t").

(** [time.sleep(d)] *)
Definition sleep (d : float) : M unit :=
  fun w =>
    match sleep_refusal d with
    | Some e => (inl e, w)
    | None =>
        (inr tt,
         mkWorld (next_call w) (next_lookup w) (trace w ++ [EvSleep (seconds d)]))
    end.

Definition HEADERS : list (string * string) :=
  [("User-Agent", "OurTextScores/1.0 (+https://ourtextscores.example)")].

(** ** The metadata document *)

Record DownloadUrls : Type := mkDownloadUrls {
  original : json;
  https : json;
  direct : json
}.

Record FileRecord : Type := mkFileRecord {
  f_name : option string;
  f_title : option string;
  f_url : json;
  f_size : json;
  f_sha1 : json;
  f_mime_type : json;
  f_timestamp : json;
  f_user : json;
  f_download_urls : DownloadUrls
}.

Record RevisionRecord : Type := mkRevisionRecord {
  rev_revid : json;
  rev_user : json;
  rev_timestamp : json;
  rev_comment : json
}.

Record Metadata : Type := mkMetadata {
  md_page_title : string;
  md_url : string;
  md_timestamp : string;
  md_exists : bool;
  md_basic_info : list (string * json);
  md_basic_info_error : option string;
  md_categories : list json;
  md_categories_error : option string;
  md_files : list FileRecord;
  md_files_error : option string;
  md_revision_history : list RevisionRecord;
  md_revision_history_error : option string
}.

(** The dictionary [main] starts from: every section at its default. *)
Definition initial_metadata (title url now : string) (page : Page) : Metadata :=
  mkMetadata title url now (page_exists page) [] None [] None [] None [] None.

Definition set_basic_info (v : list (string * json)) (md : Metadata) : Metadata :=
  mkMetadata (md_page_title md) (md_url md) (md_timestamp md) (md_exists md)
    v (md_basic_info_error md) (md_categories md) (md_categories_error md)
    (md_files md) (md_files_error md)
    (md_revision_history md) (md_revision_history_error md).

Definition set_basic_info_error (e : string) (md : Metadata) : Metadata :=
  mkMetadata (md_page_title md) (md_url md) (md_timestamp md) (md_exists md)
    (md_basic_info md) (Some e) (md_categories md) (md_categories_error md)
    (md_files md) (md_files_error md)
    (md_revision_history md) (md_revision_history_error md).

Definition set_categories (v : list json) (md : Metadata) : Metadata :=
  mkMetadata (md_page_title md) (md_url md) (md_timestamp md) (md_exists md)
    (md_basic_info md) (md_basic_info_error md) v (md_categories_error md)
    (md_files md) (md_files_error md)
    (md_revision_history md) (md_revision_history_error md).

Definition set_categories_error (e : string) (md : Metadata) : Metadata :=
  mkMetadata (md_page_title md) (md_url md) (md_timestamp md) (md_exists md)
    (md_basic_info md) (md_basic_info_error md) (md_categories md) (Some e)
    (md_files md) (md_files_error md)
    (md_revision_history md) (md_revision_history_error md).

Definition set_files (v : list FileRecord) (md : Metadata) : Metadata :=
  mkMetadata (md_page_title md) (md_url md) (md_timestamp md) (md_exists md)
    (md_basic_info md) (md_basic_info_error md)
    (md_categories md) (md_categories_error md) v (md_files_error md)
    (md_revision_history md) (md_revision_history_error md).

Definition set_files_error (e : string) (md : Metadata) : Metadata :=
  mkMetadata (md_page_title md) (md_url md) (md_timestamp md) (md_exists md)
    (md_basic_info md) (md_basic_info_error md)
    (md_categories md) (md_categories_error md) (md_files md) (Some e)
    (md_revision_history md) (md_revision_history_error md).

Definition set_revision_history (v : list RevisionRecord) (md : Metadata) : Metadata :=
  mkMetadata (md_page_title md) (md_url md) (md_timestamp md) (md_exists md)
    (md_basic_info md) (md_basic_info_error md)
    (md_categories md) (md_categories_error md)
    (md_files md) (md_files_error md) v (md_revision_history_error md).

Definition set_revision_history_error (e : string) (md : Metadata) : Metadata :=
  mkMetadata (md_page_title md) (md_url md) (md_timestamp md) (md_exists md)
    (md_basic_info md) (md_basic_info_error md)
    (md_categories md) (md_categories_error md)
    (md_files md) (md_files_error md) (md_revision_history md) (Some e).

(** ** Seed phase of the file list (pure: it only reads the listing) *)

Definition str_truthy (o : option string) : bool :=
  match o with
  | Some s => negb (String.eqb s EmptyString)
  | None => false
  end.

(** [name or title] *)
Definition str_or (a b : option string) : option string :=
  if str_truthy a then a else b.

(** [info.get(k) if isinstance(info, dict) else None] *)
Definition info_field (info : json) (k : string) : json :=
  match info with
  | JObj kv => default JNull (assoc k kv)
  | _ => JNull
  end.

(** The [download_urls] of the seed phase.  The dictionary display is
    evaluated in order, so a truthy [url] that is not a [str] raises at
    the first [url.replace]. *)
Definition seed_download_urls (url : json) : result DownloadUrls :=
  rbind (if truthy url
         then str_method "replace" (fun s => JStr (str_replace "http:" "https:" s)) url
         else inr JNull) (fun h =>
  rbind (if truthy url
         then rbind (str_method "startswith"
                       (fun s => JBool (startswith s "//")) url) (fun b =>
              if truthy b
              then str_method "replace"
                     (fun s => JStr (str_replace "//imslp.org/" "https://imslp.org/" s)) url
              else inr url)
         else inr url) (fun d =>
  inr (mkDownloadUrls url h d))).

(** One iteration of [for img in imgs]: the record appended to
    [temp_files] and the title appended to [titles], if any. *)
Definition seed_file (img : Image) : result (FileRecord * list string) :=
  rbind (getattr_default (img_imageinfo img) (JObj [])) (fun info =>
  let url := info_field info "url" in
  rbind (getattr_default (img_page_title img) None) (fun title =>
  rbind (getattr_default (img_name img) None) (fun name =>
  let use_title := str_or name title in
  let appended := match use_title with
                  | Some t => if str_truthy use_title then [t] else []
                  | None => []
                  end in
  rbind (seed_download_urls url) (fun urls =>
  inr (mkFileRecord name use_title url
         (info_field info "size") (info_field info "sha1")
         (info_field info "mime") (info_field info "timestamp")
         (info_field info "user") urls,
       appended))))).

Fixpoint seed_phase (imgs : list Image) : result (list FileRecord * list string) :=
  match imgs with
  | [] => inr ([], [])
  | img :: rest =>
      rbind (seed_file img) (fun '(f, t) =>
      rbind (seed_phase rest) (fun '(fs, ts) =>
      inr (f :: fs, (t ++ ts)%list)))
  end.

(** ** Reconciliation (the loop [for f in temp_files]) *)

Definition with_merged (f : FileRecord) (url size sha1 mime ts user : json) : FileRecord :=
  mkFileRecord (f_name f) (f_title f) url size sha1 mime ts user (f_download_urls f).

Definition with_download_urls (f : FileRecord) (d : DownloadUrls) : FileRecord :=
  mkFileRecord (f_name f) (f_title f) (f_url f) (f_size f) (f_sha1 f)
    (f_mime_type f) (f_timestamp f) (f_user f) d.

(** The body of the loop for a record whose [info] is truthy.  The record
    is mutated in place, so when the last assignment raises, the six
    fields assigned before it keep their new values. *)
Definition merge_file (info : json) (f : FileRecord) : FileRecord * option exn :=
  match info with
  | JObj kv =>
      let get k := default JNull (assoc k kv) in
      let url := get "url" in
      let f1 := with_merged f
                  (py_or url (f_url f))
                  (if negb (is_none (get "size")) then get "size" else f_size f)
                  (py_or (get "sha1") (f_sha1 f))
                  (py_or (get "mime") (f_mime_type f))
                  (py_or (get "timestamp") (f_timestamp f))
                  (py_or (get "user") (f_user f)) in
      match (if truthy url
             then str_method "replace" (fun s => JStr (str_replace "http:" "https:" s)) url
             else inr JNull) with
      | inr h => (with_download_urls f1 (mkDownloadUrls url h url), None)
      | inl e => (f1, Some e)
      end
  | _ => (f, Some (no_attribute info "get"))
  end.

(** [by_title.get(ti)] followed by [if not info: continue]. *)
Definition matched_info (by_title : gmap string json) (f : FileRecord) : option json :=
  match f_title f with
  | Some ti =>
      match by_title !! ti with
      | Some info => if truthy info then Some info else None
      | None => None
      end
  | None => None
  end.

(** The loop over [temp_files]: the list after the loop and the exception
    that ended it, if one did. *)
Fixpoint reconcile (by_title : gmap string json) (fs : list FileRecord)
    : list FileRecord * option exn :=
  match fs with
  | [] => ([], None)
  | f :: rest =>
      match matched_info by_title f with
      | None => let '(rest', e) := reconcile by_title rest in (f :: rest', e)
      | Some info =>
          match merge_file info f with
          | (f', Some e) => (f' :: rest, Some e)
          | (f', None) =>
              let '(rest', e) := reconcile by_title rest in (f' :: rest', e)
          end
      end
  end.

(** ** Reading a batched imageinfo answer *)

(** [by_title[ti] = info] for a truthy [ti].  A [str] key is stored; a
    number or a boolean is hashable but equal to no [str], so no title
    looks it up; a list or a dictionary is unhashable. *)
Definition store_info (ti info : json) (by_title : gmap string json)
    : result (gmap string json) :=
  match ti with
  | JStr t => inr (<[t := info]> by_title)
  | JArr _ | JObj _ =>
      inl (Exn TypeError ("unhashable type: '" ++ type_name ti ++ "'"))
  | _ => inr by_title
  end.

(** [for p in pages.values()] *)
Fixpoint collect_pages (ps : list json) (by_title : gmap string json)
    : result (gmap string json) :=
  match ps with
  | [] => inr by_title
  | p :: ps' =>
      rbind (dict_get p "title" JNull) (fun ti =>
      rbind (dict_get p "imageinfo" JNull) (fun iiv =>
      let ii := py_or iiv (JArr []) in
      if negb (truthy ti) || negb (truthy ii) then collect_pages ps' by_title
      else
        rbind (index0 ii) (fun info =>
        rbind (store_info ti info by_title) (collect_pages ps'))))
  end.

(** What one answered chunk adds to [by_title]. *)
Definition collect_response (r : Response) (by_title : gmap string json)
    : result (gmap string json) :=
  if ok r then
    rbind (json_body r) (fun data =>
    rbind (dict_get data "query" (JObj [])) (fun query =>
    rbind (dict_get query "pages" (JObj [])) (fun pages =>
    rbind (dict_values pages) (fun ps =>
    collect_pages ps by_title))))
  else inr by_title.

Definition imageinfo_params (titles_param : string) : list (string * string) :=
  [("action", "query"); ("format", "json"); ("prop", "imageinfo");
   ("iiprop", "url|size|sha1|mime|timestamp|user|comment");
   ("titles", titles_param)].

(** [range(0, stop, 50)] *)
Definition chunk_starts (stop : nat) : list nat :=
  map (fun k => 50 * k)%nat (seq 0 ((stop + 49) / 50)).

(** The chunks [titles[i:i+50]] for [i] in
    [range(0, min(len(titles), 100), 50)]. *)
Definition chunks (titles : list string) : list (list string) :=
  map (fun i => take 50 (drop i titles))
      (chunk_starts (Nat.min (length titles) 100)).

Section Program.

Variable net : Transport.

(** [requests.get(url, params=..., headers=..., timeout=...)] *)
Definition requests_get (rq : Request) : M Response :=
  fun w => (net (next_call w) rq,
            mkWorld (S (next_call w)) (next_lookup w) (trace w ++ [EvGet rq])).

(** ** [get_with_retry] *)

(** The [for] loop of [get_with_retry] with [n] iterations left; [last] is
    the exception kept for the final [raise]. *)
Fixpoint retry_loop (n : nat) (rq : Request) (backoff delay : float)
    (last : option exn) : M Response :=
  match n with
  | 0 => raise (default (Exn OtherError "request failed") last)
  | S n' =>
      try_except (requests_get rq)
        (fun e => (sleep delay ;;;
                   retry_loop n' rq backoff (delay * backoff)%float (Some e))%M)
  end.

Definition get_with_retry (url : string) (params : list (string * string))
    (timeout tries : Z) (backoff : float) : M Response :=
  retry_loop (Z.to_nat (Z.max 1 tries)) (mkRequest url params HEADERS timeout)
    backoff 1%float None.

(** ** [extract_title] *)

Definition API_URL : string := "https://imslp.org/w/api.php".
Definition INDEX_URL : string := "https://imslp.org/index.php".

Definition dquote : string := String "034"%char EmptyString.

(** The literal pieces of the pattern
    [<link rel=QcanonicalQ href=Qhttps?://imslp.org/wiki/([^Q]+)Q], where
    Q stands for the double quote character. *)
Definition canonical_head : string :=
  "<link rel=" ++ dquote ++ "canonical" ++ dquote ++ " href=" ++ dquote ++ "http".

(** The characters before the first double quote, and whether there is one. *)
Fixpoint until_dquote (s : string) : option string :=
  match s with
  | EmptyString => None
  | String c s' =>
      if Ascii.eqb c "034"%char then Some EmptyString
      else option_map (String c) (until_dquote s')
  end.

Definition strip_prefix (p s : string) : option string :=
  if has_prefix p s then Some (str_drop (String.length p) s) else None.

(** The pattern matched at the start of [s]: the group, if it matches.
    [s?] takes an [s] when there is one (the continuation [://] cannot
    match an [s]); the unescaped dot matches any one character but a
    newline;
    the greedy [[^Q]+] is the run up to the next double quote, which has
    to exist, and the run has to be non-empty. *)
Definition canonical_match_here (s : string) : option string :=
  s1 ← strip_prefix canonical_head s;
  let s2 := default s1 (strip_prefix "s" s1) in
  s3 ← strip_prefix "://imslp" s2;
  match s3 with
  | EmptyString => None
  | String c _ =>
      if Ascii.eqb c "010"%char then None
      else
        s5 ← strip_prefix "org/wiki/" (str_drop (char_width c) s3);
        g ← until_dquote s5;
        match g with
        | EmptyString => None
        | _ => Some g
        end
  end.

(** [re.search(pattern, txt)] followed by [m.group(1)]: the leftmost match. *)
Fixpoint canonical_search (txt : string) : option string :=
  match canonical_match_here txt with
  | Some g => Some g
  | None =>
      match txt with
      | EmptyString => None
      | String _ txt' => canonical_search txt'
      end
  end.

Definition is_permalink (target : string) : bool :=
  startswith target "http://imslp.org/wiki/" || startswith target "https://imslp.org/wiki/".

Definition pageinfo_params (target : string) : list (string * string) :=
  [("action", "query"); ("format", "json"); ("prop", "info");
   ("pageids", target); ("inprop", "url")].

(** [next(iter(l))] *)
Definition next_iter (l : list json) : result json :=
  match l with
  | x :: _ => inr x
  | [] => inl (Exn OtherError "StopIteration")
  end.

(** The part of the first [try] block after [r] is bound: [Some t] when
    the block executes [return t], [None] when it falls out of the [if]s. *)
Definition title_of_pageinfo (r : Response) : result (option string) :=
  if ok r then
    rbind (json_body r) (fun data =>
    rbind (dict_get data "query" (JObj [])) (fun query =>
    rbind (dict_get query "pages" (JObj [])) (fun pages =>
    rbind (if truthy pages
           then rbind (dict_values pages) next_iter
           else inr JNull) (fun page =>
    if truthy page then
      rbind (dict_get page "missing" JNull) (fun missing =>
      if negb (truthy missing) then
        rbind (dict_get page "title" JNull) (fun title =>
        if truthy title then
          rbind (dict_item page "title") (fun t =>
          rbind (unquote_value t) (fun decoded => inr (Some decoded)))
        else inr None)
      else inr None)
    else inr None))))
  else inr None.

(** First [try] block: the MediaWiki API, through [get_with_retry]. *)
Definition api_lookup (target : string) : M (option string) :=
  try_except
    (r <- get_with_retry API_URL (pageinfo_params target) 15 3 1.5%float ;;
     lift (title_of_pageinfo r))%M
    (fun _ => ret None).

Definition title_of_html (r2 : Response) : option string :=
  if ok r2 then
    match canonical_search (text r2) with
    | Some g => Some (str_replace "_" " " (unquote g))
    | None => None
    end
  else None.

(** Second [try] block: the canonical link of the HTML page, one plain
    [requests.get] without the headers. *)
Definition html_lookup (target : string) : M (option string) :=
  try_except
    (r2 <- requests_get (mkRequest INDEX_URL [("curid", target)] [] 15) ;;
     ret (title_of_html r2))%M
    (fun _ => ret None).

Definition extract_title (target : string) : M string :=
  if is_permalink target then
    match split_after "/wiki/" target with
    | Some title => ret (unquote title)
    | None => raise (Exn LookupError "list index out of range")
    end
  else if isdigit target then
    (a <- api_lookup target ;;
     match a with
     | Some t => ret t
     | None =>
         b <- html_lookup target ;;
         match b with
         | Some t => ret t
         | None => ret (unquote target)
         end
     end)%M
  else ret (unquote target).

(** ** The sections of [main] *)

(** Batched enrichment: one [get_with_retry] per chunk, in order. *)
Fixpoint enrich_loop (cs : list (list string)) (by_title : gmap string json)
    : M (gmap string json) :=
  match cs with
  | [] => ret by_title
  | chunk :: cs' =>
      (r <- get_with_retry API_URL (imageinfo_params (str_join "|" chunk)) 20 3 1.5%float ;;
       bt <- lift (collect_response r by_title) ;;
       enrich_loop cs' bt)%M
  end.

(** The inner [try ... except Exception: pass] of the file section; what
    it leaves in [temp_files].  An exception of the batched queries leaves
    the list as seeded; an exception of the merge loop leaves it as
    mutated so far. *)
Definition enrich_and_merge (temp_files : list FileRecord) (titles : list string)
    : M (list FileRecord) :=
  match titles with
  | [] => ret temp_files
  | _ =>
      try_except
        (by_title <- enrich_loop (chunks titles) ∅ ;;
         ret (fst (reconcile by_title temp_files)))%M
        (fun _ => ret temp_files)
  end.

(** [list(page.images())[:100]] inside its own [try]. *)
Definition listed_images (page : Page) : list Image :=
  match page_images page with
  | inr imgs => take 100 imgs
  | inl _ => []
  end.

(** The body of the [try] that populates [files]. *)
Definition files_body (page : Page) : M (list FileRecord) :=
  (st <- lift (seed_phase (listed_images page)) ;;
   enrich_and_merge (fst st) (snd st))%M.

Definition basic_info_body (page : Page) : result (list (string * json)) :=
  rbind (page_name page) (fun name =>
  rbind (page_page_title page) (fun ptitle =>
  rbind (getattr_default (page_pageid page) JNull) (fun pid =>
  rbind (getattr_default (page_namespace page) JNull) (fun ns =>
  rbind (getattr_default (page_revision page) JNull) (fun rev =>
  inr [("page_name", name); ("page_title", ptitle); ("page_id", pid);
       ("namespace", ns); ("last_revision", rev)]))))).

(** [[cat.name for cat in cats]] *)
Fixpoint category_names (cats : list Category) : result (list json) :=
  match cats with
  | [] => inr []
  | c :: cats' =>
      rbind (cat_name c) (fun n =>
      rbind (category_names cats') (fun ns => inr (n :: ns)))
  end.

Definition categories_body (page : Page) : result (list json) :=
  rbind (page_categories page) category_names.

Definition revision_record (rev : list (string * json)) : RevisionRecord :=
  let get k := default JNull (assoc k rev) in
  mkRevisionRecord (get "revid") (get "user") (get "timestamp") (get "comment").

(** [metadata['revision_history'].append(...)] *)
Definition append_revision (md : Metadata) (rev : list (string * json)) : Metadata :=
  set_revision_history (md_revision_history md ++ [revision_record rev])%list md.

(** The four [try] blocks of [main], in order, on the metadata
    dictionary built before them. *)
Definition populate (page : Page) (md : Metadata) : M Metadata :=
  let md1 := match basic_info_body page with
             | inr v => set_basic_info v md
             | inl e => set_basic_info_error (str_of_exn e) md
             end in
  let md2 := match categories_body page with
             | inr v => set_categories v md1
             | inl e => set_categories_error (str_of_exn e) md1
             end in
  (md3 <- try_except (fs <- files_body page ;; ret (set_files fs md2))
            (fun e => ret (set_files_error (str_of_exn e) md2)) ;;
   ret match page_revisions page with
       | inr revs => fold_left append_revision (take 5 revs) md3
       | inl e => set_revision_history_error (str_of_exn e) md3
       end)%M.

(** ** [main] *)

(** [client._site.pages[title]] *)
Definition lookup_page (site : Site) (title : string) : M Page :=
  fun w => (site (next_lookup w) title,
            mkWorld (next_call w) (S (next_lookup w)) (trace w)).

(** The [while attempts < 3 and not page.exists] loop with [n] attempts
    left. *)
Fixpoint poll_exists (site : Site) (n : nat) (title : string) (page : Page)
    : M Page :=
  match n with
  | 0 => ret page
  | S n' =>
      if page_exists page then ret page
      else (sleep 2%float ;;;
            page' <- lookup_page site title ;;
            poll_exists site n' title page')%M
  end.

(** How the process ends: [sys.exit(code)] before anything is printed, or
    the document printed on standard output. *)
Inductive outcome : Type :=
| Exit (code : Z)
| Printed (md : Metadata).

(** [main], with [sys.argv], the outcome of [ImslpClient()] and the value
    of [time.strftime(...)].  The client, the page lookups and the
    quoting of the title are outside every [try]: an exception of theirs
    ends the process. *)
Definition main (client : result Site) (argv : list string) (now : string)
    : M outcome :=
  match argv with
  | _ :: target :: _ =>
      (title <- extract_title target ;;
       site <- lift client ;;
       page0 <- lookup_page site title ;;
       page <- poll_exists site 3 title page0 ;;
       quoted <- lift (quote title) ;;
       md <- populate page
               (initial_metadata title ("https://imslp.org/wiki/" ++ quoted) now page) ;;
       ret (Printed md))%M
  | _ => ret (Exit 1)
  end.

End Program.

(** ** Reference sequences used in the statements *)

(** The delays a retry loop sleeps when it starts from [d] and multiplies
    by [b] after every sleep. *)
Fixpoint backoff_delays (d b : float) (n : nat) : list float :=
  match n with
  | 0 => []
  | S n' => d :: backoff_delays (d * b)%float b n'
  end.

(** [time.sleep] takes the delay. *)
Definition sleepable (d : float) : Prop := sleep_refusal d = None.

(** The delay after [k] multiplications by [b]. *)
Fixpoint delay_after (d b : float) (k : nat) : float :=
  match k with
  | 0 => d
  | S k' => delay_after (d * b)%float b k'
  end.

(** The products that give the first [n] delays are exact: no rounding
    takes place when a delay is multiplied by [b]. *)
Definition exact_products (b : float) (n : nat) : Prop :=
  Forall (fun d => (seconds (d * b) == seconds d * seconds b)%Q)
    (backoff_delays 1 b (n - 1)).

(** [d * b^0, d * b^1, ..., d * b^(n-1)] *)
Definition geometric (d b : Q) (n : nat) : list Q :=
  map (fun k => (d * b ^ Z.of_nat k)%Q) (seq 0 n).

(** The answer of the page-information query from which a title is
    taken: status OK, a JSON body of the shape [{query: {pages: {...}}}]
    whose page dictionary is not empty, and whose first entry is a
    dictionary with a falsy or absent [missing] and a non-empty [str]
    under [title]; [t] is that title, unquoted. *)
Definition pageinfo_title (r : Response) (t : string) : Prop :=
  ok r = true /\
  exists data qkv key page others title,
    json_body r = inr (JObj data)
    /\ assoc "query" data = Some (JObj qkv)
    /\ assoc "pages" qkv = Some (JObj ((key, JObj page) :: others))
    /\ truthy (default JNull (assoc "missing" page)) = false
    /\ assoc "title" page = Some (JStr title)
    /\ title <> EmptyString
    /\ t = unquote title.

(** The page dictionary of the answer has exactly one entry. *)
Definition exactly_one_page (r : Response) : Prop :=
  exists data qkv key page,
    json_body r = inr (JObj data)
    /\ assoc "query" data = Some (JObj qkv)
    /\ assoc "pages" qkv = Some (JObj [(key, page)]).

(** The merge keys a list of seeded records gives: the truthy titles,
    in order, every occurrence kept. *)
Definition merge_keys (fs : list FileRecord) : list string :=
  omap (fun f => if str_truthy (f_title f) then f_title f else None) fs.

(** [final] is the remote value when that is truthy, the seed value
    otherwise: the effect of [f[k] = remote or f.get(k)]. *)
Definition takes_truthy (remote seed final : json) : Prop :=
  (truthy remote = true -> final = remote)
  /\ (truthy remote = false -> final = seed).

(** [final] is the remote value when that is not [None], the seed value
    otherwise: the effect of
    [f[k] = remote if remote is not None else f.get(k)]. *)
Definition takes_non_null (remote seed final : json) : Prop :=
  (remote <> JNull -> final = remote)
  /\ (remote = JNull -> final = seed).

(** What a section of the document holds after its [try] block: the value
    of the body and no error, or, when the body raised, the default value
    and the text of the exception. *)
Definition section_outcome {A} (body : result A) (dflt value : A)
    (error : option string) : Prop :=
  match body with
  | inr v => value = v /\ error = None
  | inl e => value = dflt /\ error = Some (str_of_exn e)
  end.

(** An info as the API documents it: a dictionary whose [url], when it
    has one, is a string. *)
Definition well_formed_info (info : json) : Prop :=
  exists kv, info = JObj kv
    /\ (truthy (default JNull (assoc "url" kv)) = true ->
        exists s, default JNull (assoc "url" kv) = JStr s).

(** ** Concrete inputs used by the examples *)

Definition pageinfo_answer (pages : list (string * json)) : Response :=
  mkResponse true (inr (JObj [("query", JObj [("pages", JObj pages)])])) "".

(** Scenario B: one page, keyed by its identifier. *)
Definition resp_symphony : Response :=
  pageinfo_answer [("12345", JObj [("title", JStr "Symphony No.5")])].

Definition net_symphony : Transport := fun _ _ => inr resp_symphony.

(** A page dictionary with two entries. *)
Definition resp_two_pages : Response :=
  pageinfo_answer [("12345", JObj [("title", JStr "First")]);
                   ("67890", JObj [("title", JStr "Second")])].

Definition net_two_pages : Transport := fun _ _ => inr resp_two_pages.

(** Two timeouts, then an answer. *)
Definition net_fails_twice : Transport :=
  fun n _ => if (n <? 2)%nat then inl (Exn TransportError "timed out")
             else inr resp_symphony.

(** The float that the literal [1.1] denotes. *)
Definition float_1_1 : float := 0x1.199999999999ap+0%float.

(** An image as mwclient lists it: [name] carries the namespace prefix,
    [page_title] does not. *)
Definition img_a : Image :=
  mkImage (inr (JObj [])) (inr (Some "A.pdf")) (inr (Some "File:A.pdf")).

Definition rec_a : FileRecord :=
  mkFileRecord (Some "File:A.pdf") (Some "File:A.pdf") JNull JNull JNull JNull JNull JNull
    (mkDownloadUrls JNull JNull JNull).

Definition image_with_url (name url : string) : Image :=
  mkImage (inr (JObj [("url", JStr url)])) (inr None) (inr (Some name)).

Definition url_other_host : string := "//ks.imslp.net/files/x.pdf?src=http://a".

(** A seeded record with data in every field. *)
Definition rec_x : FileRecord :=
  mkFileRecord (Some "File:X.pdf") (Some "File:X.pdf")
    (JStr "http://imslp.org/x.pdf") (JNum 10) (JStr "abc")
    (JStr "application/pdf") (JStr "2020-01-01T00:00:00Z") (JStr "Alice")
    (mkDownloadUrls (JStr "http://imslp.org/x.pdf") (JStr "https://imslp.org/x.pdf")
       (JStr "http://imslp.org/x.pdf")).

(** A batched info whose [user] is the empty string. *)
Definition by_title_empty_user : gmap string json :=
  {[ "File:X.pdf" := JObj [("url", JStr "https://imslp.org/images/x.pdf");
                           ("user", JStr EmptyString)] ]}.

(** A batched info without [url], as the API gives for a file whose
    content is missing. *)
Definition by_title_no_url : gmap string json :=
  {[ "File:X.pdf" := JObj [("filemissing", JStr EmptyString)] ]}.

(** The answer of the batched query that gives [by_title_no_url]. *)
Definition resp_file_missing : Response :=
  mkResponse true
    (inr (JObj [("query",
            JObj [("pages",
              JObj [("-1", JObj [("title", JStr "File:X.pdf");
                                 ("imageinfo",
                                  JArr [JObj [("filemissing", JStr EmptyString)]])])])])]))
    "".

(** [rec_x] after the merge with [by_title_no_url]. *)
Definition rec_x_no_url : FileRecord :=
  mkFileRecord (Some "File:X.pdf") (Some "File:X.pdf")
    (JStr "http://imslp.org/x.pdf") (JNum 10) (JStr "abc")
    (JStr "application/pdf") (JStr "2020-01-01T00:00:00Z") (JStr "Alice")
    (mkDownloadUrls JNull JNull JNull).

(** The request of the batched query for one chunk of titles. *)
Definition imageinfo_request (chunk : list string) : Request :=
  mkRequest API_URL (imageinfo_params (str_join "|" chunk)) HEADERS 20.

(** A page with one category, one file and one revision. *)
Definition page_ok : Page :=
  mkPage true (inr (JStr "Symphony No.5")) (inr (JStr "Symphony No.5"))
    (inr (JNum 12345)) (inr (JNum 0)) (inr (JNum 7))
    (inr [mkCategory (inr (JStr "Scores"))])
    (inr [image_with_url "File:X.pdf" "http://imslp.org/x.pdf"])
    (inr [[("revid", JNum 7); ("user", JStr "Alice")]]).

(** The same page when [page.categories()] raises (scenario C). *)
Definition page_categories_fail : Page :=
  mkPage true (inr (JStr "Symphony No.5")) (inr (JStr "Symphony No.5"))
    (inr (JNum 12345)) (inr (JNum 0)) (inr (JNum 7))
    (inl (Exn OtherError "categories unavailable"))
    (inr [image_with_url "File:X.pdf" "http://imslp.org/x.pdf"])
    (inr [[("revid", JNum 7); ("user", JStr "Alice")]]).

(** The same page when [page.images()] raises. *)
Definition page_images_fail : Page :=
  mkPage true (inr (JStr "Symphony No.5")) (inr (JStr "Symphony No.5"))
    (inr (JNum 12345)) (inr (JNum 0)) (inr (JNum 7))
    (inr [mkCategory (inr (JStr "Scores"))])
    (inl (Exn OtherError "images unavailable"))
    (inr [[("revid", JNum 7); ("user", JStr "Alice")]]).

(** A network on which every GET times out. *)
Definition net_down : Transport := fun _ _ => inl (Exn TransportError "timed out").

(** The record seeded for the file of [page_ok]. *)
Definition rec_seeded : FileRecord :=
  mkFileRecord (Some "File:X.pdf") (Some "File:X.pdf")
    (JStr "http://imslp.org/x.pdf") JNull JNull JNull JNull JNull
    (mkDownloadUrls (JStr "http://imslp.org/x.pdf") (JStr "https://imslp.org/x.pdf")
       (JStr "http://imslp.org/x.pdf")).

(** The document printed for [page_images_fail]: an empty file list and
    no [files_error]. *)
Definition md_images_fail : Metadata :=
  mkMetadata "Symphony No.5" "https://imslp.org/wiki/Symphony%20No.5" "2026-01-01T00:00:00" true
    [("page_name", JStr "Symphony No.5"); ("page_title", JStr "Symphony No.5");
     ("page_id", JNum 12345); ("namespace", JNum 0); ("last_revision", JNum 7)] None
    [JStr "Scores"] None
    [] None
    [mkRevisionRecord (JNum 7) (JStr "Alice") JNull JNull] None.

(** The document printed for [page_categories_fail] when the network is
    down. *)
Definition md_categories_fail : Metadata :=
  mkMetadata "Symphony No.5" "https://imslp.org/wiki/Symphony%20No.5" "2026-01-01T00:00:00" true
    [("page_name", JStr "Symphony No.5"); ("page_title", JStr "Symphony No.5");
     ("page_id", JNum 12345); ("namespace", JNum 0); ("last_revision", JNum 7)] None
    [] (Some "categories unavailable")
    [rec_seeded] None
    [mkRevisionRecord (JNum 7) (JStr "Alice") JNull JNull] None.

(** [rec_x] after the merge with [by_title_empty_user]. *)
Definition rec_x_empty_user : FileRecord :=
  mkFileRecord (Some "File:X.pdf") (Some "File:X.pdf")
    (JStr "https://imslp.org/images/x.pdf") (JNum 10) (JStr "abc")
    (JStr "application/pdf") (JStr "2020-01-01T00:00:00Z") (JStr "Alice")
    (mkDownloadUrls (JStr "https://imslp.org/images/x.pdf")
       (JStr "https://imslp.org/images/x.pdf")
       (JStr "https://imslp.org/images/x.pdf")).

(** The API times out three times, then the HTML page of the
    identifier carries a canonical link. *)
Definition net_html_fallback : Transport :=
  fun n _ =>
    if (n <? 3)%nat then inl (Exn TransportError "timed out")
    else inr (mkResponse true (inl (Exn ValueError "not JSON"))
                ("<head><link rel=" ++ dquote ++ "canonical" ++ dquote ++ " href="
                 ++ dquote ++ "https://imslp.org/wiki/Symphony_No.5_%28Beethoven%29"
                 ++ dquote ++ "/></head>")).

(** ** Measures of what a computation does to the world *)

Fixpoint total_sleep (ds : list Q) : Q :=
  match ds with
  | [] => 0
  | d :: ds' => d + total_sleep ds'
  end.

(** From [w] the computation reaches [w'] by appending [evs] to the trace
    and by [lookups] page lookups; the GET counter follows the trace. *)
Definition reaches (w w' : world) (evs : list event) (lookups : nat) : Prop :=
  trace w' = (trace w ++ evs)%list
  /\ next_call w' = (next_call w + length (gets_of evs))%nat
  /\ next_lookup w' = (next_lookup w + lookups)%nat.

(** Whatever the computation returns, it issues at most [gets] GETs, does
    at most [lookups] page lookups and sleeps at most [seconds] in total. *)
Definition within {A} (m : M A) (gets lookups : nat) (seconds : Q) : Prop :=
  forall w, exists evs l,
    reaches w (snd (m w)) evs l
    /\ (length (gets_of evs) <= gets)%nat
    /\ (l <= lookups)%nat
    /\ (total_sleep (sleeps_of evs) <= seconds)%Q.

(** The number of attempts of [get_with_retry]. *)
Definition attempts (tries : Z) : nat := Z.to_nat (Z.max 1 tries).

(** No character of the string is an underscore. *)
Definition no_underscore (s : string) : bool :=
  all_chars (fun c => negb (Ascii.eqb c "_")) s.

(** The characters [urllib.parse.quote] lets through or produces. *)
Definition is_url_char (c : ascii) : bool :=
  is_always_safe c || Ascii.eqb c "/" || Ascii.eqb c "%".

(** The ASCII characters of the string decide whether it is a digit
    string: all its characters are ASCII, or one of them is an ASCII
    character that is not a digit.  On such a string [isdigit] is
    [str.isdigit]. *)
Definition isdigit_decided (s : string) : bool :=
  all_chars is_ascii s
  || negb (all_chars (fun c => negb (is_ascii c) || is_ascii_digit c) s).

(** [n] times [q] seconds. *)
Fixpoint times (n : nat) (q : Q) : Q :=
  match n with
  | 0 => 0
  | S n' => q + times n' q
  end.

(** What the existence poll has fetched after [i] re-fetches, starting
    from [page] in the world [w]. *)
Definition polled (site : Site) (title : string) (page : Page) (w : world)
    (i : nat) : result Page :=
  match i with
  | 0 => inr page
  | S i' => site (next_lookup w + i')%nat title
  end.

(** [sub] occurs somewhere in [s]. *)
Fixpoint contains (sub s : string) : bool :=
  has_prefix sub s
  || match s with
     | EmptyString => false
     | String _ s' => contains sub s'
     end.

(** The value of an optional attribute read with [getattr(.., None)]. *)
Definition optional_value (access : result json) : json :=
  match access with
  | inr v => v
  | inl _ => JNull
  end.

(** The access does not raise, or raises an [AttributeError]. *)
Definition optional_ok (access : result json) : Prop :=
  match access with
  | inr _ => True
  | inl e => is_attribute_error e = true
  end.



(** ** More concrete inputs *)

(** A wiki on which every lookup gives [page_ok]. *)
Definition site_ok : Site := fun _ _ => inr page_ok.

(** A page that does not exist and lists nothing. *)
Definition page_missing : Page :=
  mkPage false (inr (JStr "Foo")) (inr (JStr "Foo"))
    (inl (Exn AttributeError "'Page' object has no attribute 'pageid'"))
    (inr (JNum 0)) (inr JNull)
    (inr []) (inr []) (inr []).

Definition site_missing : Site := fun _ _ => inr page_missing.

(** What [main] prints for a slug that the wiki does not have. *)
Definition run_missing : result outcome * world :=
  Eval vm_compute in
    main net_down (inr site_missing) ["imslp_enrich.py"; "Foo"] "2026-01-01T00:00:00" world0.

Definition md_missing : Metadata :=
  mkMetadata "Foo" "https://imslp.org/wiki/Foo" "2026-01-01T00:00:00" false
    [("page_name", JStr "Foo"); ("page_title", JStr "Foo"); ("page_id", JNull);
     ("namespace", JNum 0); ("last_revision", JNull)] None
    [] None [] None [] None.

(** An image without name and page title, and a page that lists it. *)
Definition img_anonymous : Image :=
  mkImage (inr (JObj [("url", JStr "https://imslp.org/images/y.pdf")]))
    (inr None) (inr (Some EmptyString)).

Definition rec_anonymous : FileRecord :=
  mkFileRecord (Some EmptyString) None (JStr "https://imslp.org/images/y.pdf")
    JNull JNull JNull JNull JNull
    (mkDownloadUrls (JStr "https://imslp.org/images/y.pdf")
       (JStr "https://imslp.org/images/y.pdf") (JStr "https://imslp.org/images/y.pdf")).

Definition page_anonymous : Page :=
  mkPage true (inr (JStr "P")) (inr (JStr "P")) (inr JNull) (inr JNull) (inr JNull)
    (inr []) (inr [img_anonymous]) (inr []).

(** An image whose [imageinfo] cannot be read, listed after a good one. *)
Definition img_unreadable : Image :=
  mkImage (inl (Exn OtherError "imageinfo unavailable")) (inr None) (inr (Some "File:Z.pdf")).

Definition page_unreadable : Page :=
  mkPage true (inr (JStr "P")) (inr (JStr "P")) (inr JNull) (inr JNull) (inr JNull)
    (inr []) (inr [image_with_url "File:X.pdf" "http://imslp.org/x.pdf"; img_unreadable])
    (inr []).

(** A server that answers every GET with an error status. *)
Definition resp_500 : Response := mkResponse false (inl (Exn ValueError "not JSON")) "".
Definition net_500 : Transport := fun _ _ => inr resp_500.

(** The page entries of [resp_file_missing]. *)
Definition pages_file_missing : list json :=
  [JObj [("title", JStr "File:X.pdf");
         ("imageinfo", JArr [JObj [("filemissing", JStr EmptyString)]])]].

(** The HTML page of [net_html_fallback]. *)
Definition html_canonical : string :=
  "<head><link rel=" ++ dquote ++ "canonical" ++ dquote ++ " href="
  ++ dquote ++ "https://imslp.org/wiki/Symphony_No.5_%28Beethoven%29"
  ++ dquote ++ "/></head>".


(** A slug with a character outside ASCII (U+00E9, two bytes). *)
Definition slug_cafe : string :=
  "Caf" ++ String "195" (String "169" "_Suite No.1").

(** The world after three failed tries of the page-information query. *)
Definition world_after_api : world :=
  Eval vm_compute in snd (api_lookup net_html_fallback "12345" world0).


(** * Properties *)

(** ** The retrying fetcher *)

Lemma backoff_delays_length d b n : length (backoff_delays d b n) = n.
Proof. revert d. induction n as [|n IH]; intros d; simpl; [done|]. by rewrite IH. Qed.

Lemma backoff_delays_geometric_from d0 b n :
  forall d s, (seconds d == d0 * seconds b ^ Z.of_nat s)%Q ->
  Forall (fun d' => (seconds (d' * b) == seconds d' * seconds b)%Q)
    (backoff_delays d b (n - 1)) ->
  Forall2 Qeq (map seconds (backoff_delays d b n))
    (map (fun k => (d0 * seconds b ^ Z.of_nat k)%Q) (seq s n)).
Proof.
  induction n as [|n IH]; intros d s Hd Hex; cbn [backoff_delays seq map].
  - constructor.
  - constructor; [exact Hd|].
    destruct n as [|n]; [constructor|].
    cbn [Nat.sub backoff_delays] in Hex.
    apply Forall_cons in Hex as [Hhead Htail].
    apply IH.
    + rewrite Hhead, Hd.
      replace (Z.of_nat (S s)) with (Z.of_nat s + 1)%Z by lia.
      rewrite Qpower_plus' by lia.
      change (seconds b ^ 1)%Q with (Qpower_positive (seconds b) 1). simpl. ring.
    + by replace (S n - 1)%nat with n by lia.
Qed.

Lemma backoff_delays_geometric b n :
  exact_products b n ->
  Forall2 Qeq (map seconds (backoff_delays 1 b n)) (geometric 1 (seconds b) n).
Proof.
  intros Hex. apply backoff_delays_geometric_from; [|exact Hex].
  change (seconds 1) with 1%Q. simpl. ring.
Qed.

Lemma sleep_sleepable d w :
  sleepable d ->
  sleep d w
  = (inr tt, mkWorld (next_call w) (next_lookup w) (trace w ++ [EvSleep (seconds d)])).
Proof. unfold sleepable, sleep. by intros ->. Qed.

(** One iteration of the loop of [get_with_retry]. *)
Lemma retry_loop_step net n rq b d last w :
  retry_loop net (S n) rq b d last w
  = match net (next_call w) rq with
    | inr r => (inr r, mkWorld (S (next_call w)) (next_lookup w) (trace w ++ [EvGet rq]))
    | inl e =>
        match sleep_refusal d with
        | Some e' =>
            (inl e', mkWorld (S (next_call w)) (next_lookup w) (trace w ++ [EvGet rq]))
        | None =>
            retry_loop net n rq b (d * b)%float (Some e)
              (mkWorld (S (next_call w)) (next_lookup w)
                 ((trace w ++ [EvGet rq]) ++ [EvSleep (seconds d)]))
        end
    end.
Proof.
  cbn [retry_loop]. unfold try_except, requests_get, bind, sleep.
  destruct (net (next_call w) rq); [|done].
  by destruct (sleep_refusal d).
Qed.

(** The loop of [get_with_retry] when the first [N] GETs fail, the delays
    are taken by [time.sleep] and the next GET answers: [N + 1] GETs, [N]
    sleeps, the answer returned. *)
Lemma retry_loop_succeeds net rq b N :
  forall d last w resp,
  (forall i, (i < N)%nat -> exists e, net (next_call w + i)%nat rq = inl e) ->
  net (next_call w + N)%nat rq = inr resp ->
  Forall sleepable (backoff_delays d b N) ->
  exists evs,
    retry_loop net (S N) rq b d last w
    = (inr resp, mkWorld (next_call w + N + 1) (next_lookup w) (trace w ++ evs))
    /\ sleeps_of evs = map seconds (backoff_delays d b N)
    /\ gets_of evs = replicate (S N) rq.
Proof.
  induction N as [|N IH]; intros d last w resp Hfail Hok Hsl.
  - exists [EvGet rq]. rewrite Nat.add_0_r in Hok.
    rewrite retry_loop_step, Hok.
    split; [|done]. do 2 f_equal. lia.
  - destruct (Hfail 0%nat ltac:(lia)) as [e He]. rewrite Nat.add_0_r in He.
    cbn [backoff_delays] in Hsl. apply Forall_cons in Hsl as [Hd Hsl].
    set (w1 := mkWorld (S (next_call w)) (next_lookup w)
                 ((trace w ++ [EvGet rq]) ++ [EvSleep (seconds d)])).
    destruct (IH (d * b)%float (Some e) w1 resp) as (evs & Hrun & Hs & Hg).
    + intros i Hi. destruct (Hfail (S i) ltac:(lia)) as [e' He'].
      exists e'. simpl. by rewrite <- Nat.add_succ_r.
    + simpl. by rewrite <- Nat.add_succ_r.
    + exact Hsl.
    + exists (EvGet rq :: EvSleep (seconds d) :: evs).
      rewrite retry_loop_step, He, Hd. fold w1. rewrite Hrun. split; [|split].
      * f_equal. subst w1. cbn [trace next_call next_lookup].
        f_equal; [lia|]. by rewrite <- !app_assoc.
      * change (sleeps_of (EvGet rq :: EvSleep (seconds d) :: evs))
          with (seconds d :: sleeps_of evs).
        by rewrite Hs.
      * change (gets_of (EvGet rq :: EvSleep (seconds d) :: evs)) with (rq :: gets_of evs).
        by rewrite Hg.
Qed.

(** C7 (as the code has it).  If the first [N] GETs fail at the transport
    level and GET [N + 1] answers, and [time.sleep] takes the delays,
    [get_with_retry] with [tries = N + 1] returns that answer after
    exactly [N + 1] GETs and [N] sleeps.  The sleeps last [1.0],
    [1.0 * b], [(1.0 * b) * b], ...: the initial delay [1.0] of the
    function multiplied by [b] in binary64 after every sleep; they are
    [1 * b^0, 1 * b^1, ..., 1 * b^(N-1)] when these products are exact. *)
Theorem get_with_retry_backoff
    (net : Transport) (url : string) (params : list (string * string))
    (timeout : Z) (b : float) (N : nat) (w : world) (resp : Response) :
  (forall i, (i < N)%nat ->
     exists e, net (next_call w + i)%nat (mkRequest url params HEADERS timeout) = inl e) ->
  net (next_call w + N)%nat (mkRequest url params HEADERS timeout) = inr resp ->
  Forall sleepable (backoff_delays 1 b N) ->
  exists evs,
    get_with_retry net url params timeout (Z.of_nat N + 1) b w
    = (inr resp, mkWorld (next_call w + N + 1) (next_lookup w) (trace w ++ evs))
    /\ length (gets_of evs) = S N
    /\ length (sleeps_of evs) = N
    /\ sleeps_of evs = map seconds (backoff_delays 1 b N)
    /\ (exact_products b N ->
        Forall2 Qeq (sleeps_of evs) (geometric 1 (seconds b) N)).
Proof.
  intros Hfail Hok Hsl.
  destruct (retry_loop_succeeds net _ b N 1%float None w resp Hfail Hok Hsl)
    as (evs & Hrun & Hs & Hg).
  exists evs. unfold get_with_retry.
  replace (Z.to_nat (Z.max 1 (Z.of_nat N + 1))) with (S N) by lia.
  rewrite Hrun, Hs, Hg. repeat split.
  - by rewrite length_replicate.
  - by rewrite length_map, backoff_delays_length.
  - apply backoff_delays_geometric.
Qed.

(** C7, counterexample.  Two timeouts, then an answer, and three tries.
    With the multiplier [-1.0] the second delay is negative, [time.sleep]
    raises and the third GET, which would be answered, is never issued.
    With the multiplier [1.1] and three timeouts the third sleep is not
    [1.1^2] seconds: the product is rounded. *)
Lemma get_with_retry_backoff_refuted :
  net_fails_twice 2 (mkRequest API_URL [] HEADERS 15) = inr resp_symphony
  /\ get_with_retry net_fails_twice API_URL [] 15 3 (-1)%float world0
     = (inl (Exn ValueError "sleep length must be non-negative"),
        mkWorld 2 0 [EvGet (mkRequest API_URL [] HEADERS 15); EvSleep 1;
                     EvGet (mkRequest API_URL [] HEADERS 15)])
  /\ sleeps_of (trace (snd (get_with_retry net_html_fallback API_URL [] 15 4
                              float_1_1 world0)))
     = [1%Q; seconds float_1_1; seconds (float_1_1 * float_1_1)]
  /\ ~ (seconds (float_1_1 * float_1_1) == seconds float_1_1 * seconds float_1_1)%Q.
Proof.
  split; [reflexivity|]. split; [reflexivity|]. split; [reflexivity|].
  vm_compute. discriminate.
Qed.

(** ** Percent-encoding and decoding *)

Lemma str_app_nil_r (s : string) : s ++ EmptyString = s.
Proof.
  induction s as [|c s IH]; [done|].
  change (String c (s ++ EmptyString) = String c s). by rewrite IH.
Qed.

Lemma str_app_assoc (a b c : string) : (a ++ b) ++ c = a ++ (b ++ c).
Proof.
  induction a as [|x a IH]; [done|].
  change (String x ((a ++ b) ++ c) = String x (a ++ (b ++ c))). by rewrite IH.
Qed.

Lemma safe_not_percent (c : ascii) :
  is_always_safe c || Ascii.eqb c "/" = true -> Ascii.eqb c "%" = false.
Proof. destruct c as [[] [] [] [] [] [] [] []]; vm_compute; congruence. Qed.

Lemma safe_is_ascii (c : ascii) :
  is_always_safe c || Ascii.eqb c "/" = true -> is_ascii c = true.
Proof. destruct c as [[] [] [] [] [] [] [] []]; vm_compute; congruence. Qed.

Lemma hex_digits_decode (c : ascii) :
  hex_value (hex_digit (nat_of_ascii c / 16)) = Some (nat_of_ascii c / 16)%nat
  /\ hex_value (hex_digit (nat_of_ascii c mod 16)) = Some (nat_of_ascii c mod 16)%nat
  /\ ascii_of_nat (16 * (nat_of_ascii c / 16) + nat_of_ascii c mod 16) = c.
Proof. destruct c as [[] [] [] [] [] [] [] []]; vm_compute; done. Qed.

Lemma hex_digits_ascii (c : ascii) :
  is_ascii (hex_digit (nat_of_ascii c / 16)) = true
  /\ is_ascii (hex_digit (nat_of_ascii c mod 16)) = true.
Proof. destruct c as [[] [] [] [] [] [] [] []]; vm_compute; done. Qed.

Lemma unquote_to_bytes_escape (h l : ascii) (a b : nat) (rest : string) :
  hex_value h = Some a -> hex_value l = Some b ->
  unquote_to_bytes (String "%" (String h (String l rest)))
  = String (ascii_of_nat (16 * a + b)) (unquote_to_bytes rest).
Proof. intros Ha Hb. cbn [unquote_to_bytes Ascii.eqb Bool.eqb]. by rewrite Ha, Hb. Qed.

Lemma unquote_to_bytes_plain (c : ascii) (s : string) :
  Ascii.eqb c "%" = false -> unquote_to_bytes (String c s) = String c (unquote_to_bytes s).
Proof. intros H. cbn [unquote_to_bytes]. by rewrite H. Qed.

(** Percent-decoding gives back the bytes that were quoted. *)
Lemma unquote_to_bytes_quote (s : string) : unquote_to_bytes (quote_from_bytes s) = s.
Proof.
  induction s as [|c s IH]; [done|]. cbn [quote_from_bytes].
  destruct (is_always_safe c || Ascii.eqb c "/") eqn:Hsafe.
  - rewrite unquote_to_bytes_plain by (by apply safe_not_percent). by rewrite IH.
  - destruct (hex_digits_decode c) as (Hh & Hl & Hc).
    rewrite (unquote_to_bytes_escape _ _ _ _ _ Hh Hl), Hc, IH. done.
Qed.

Lemma unquote_to_bytes_no_percent (s : string) :
  no_percent s = true -> unquote_to_bytes s = s.
Proof.
  unfold no_percent. induction s as [|c s IH]; [done|]. cbn [all_chars].
  intros H. apply andb_true_iff in H as [Hc Hs]. apply negb_true_iff in Hc.
  rewrite unquote_to_bytes_plain by done. by rewrite IH.
Qed.

(** What [quote] gives is ASCII text. *)
Lemma quote_from_bytes_ascii (s : string) : all_chars is_ascii (quote_from_bytes s) = true.
Proof.
  induction s as [|c s IH]; [done|]. cbn [quote_from_bytes].
  destruct (is_always_safe c || Ascii.eqb c "/") eqn:Hsafe; cbn [all_chars].
  - by rewrite (safe_is_ascii _ Hsafe), IH.
  - destruct (hex_digits_ascii c) as [Hh Hl]. by rewrite Hh, Hl, IH.
Qed.

(** A string of ASCII characters is one run for [unquote]. *)
Lemma unquote_runs_ascii (s : string) :
  forall run, all_chars is_ascii s = true ->
  unquote_runs run s = decode_replace (unquote_to_bytes (run ++ s)).
Proof.
  induction s as [|c s IH]; intros run H; cbn [unquote_runs].
  - by rewrite str_app_nil_r.
  - cbn [all_chars] in H. apply andb_true_iff in H as [Hc Hs].
    rewrite Hc, IH by done. by rewrite str_app_assoc.
Qed.

Lemma decode_replace_valid_upto (n : nat) :
  forall s, (String.length s <= n)%nat -> valid_utf8 s = true -> decode_replace s = s.
Proof.
  induction n as [|n IH]; intros s Hlen Hv.
  { destruct s; [done|]. cbn [String.length] in Hlen. lia. }
  destruct s as [|c s1]; [done|].
  cbn [decode_replace valid_utf8] in *. cbn [String.length] in Hlen.
  destruct (is_ascii c).
  { f_equal. apply IH; [lia|done]. }
  destruct (byte_in 194 223 c).
  { destruct s1 as [|c1 s2]; [done|]. cbn [String.length] in Hlen.
    apply andb_true_iff in Hv as [H1 Hv]. rewrite H1.
    do 2 f_equal. apply IH; [lia|done]. }
  destruct (byte_in 224 239 c).
  { destruct s1 as [|c1 [|c2 s3]]; [done|done|]. cbn [String.length] in Hlen.
    apply andb_true_iff in Hv as [Hv H3]. apply andb_true_iff in Hv as [H1 H2].
    rewrite H1, H2. do 3 f_equal. apply IH; [lia|done]. }
  destruct (byte_in 240 244 c); [|done].
  destruct s1 as [|c1 [|c2 [|c3 s4]]]; [done|done|done|]. cbn [String.length] in Hlen.
  apply andb_true_iff in Hv as [Hv H4]. apply andb_true_iff in Hv as [Hv H3].
  apply andb_true_iff in Hv as [H1 H2].
  rewrite H1, H2, H3. do 4 f_equal. apply IH; [lia|done].
Qed.

(** Decoding with [errors='replace'] changes nothing in well-formed
    UTF-8. *)
Lemma decode_replace_valid (s : string) : valid_utf8 s = true -> decode_replace s = s.
Proof. apply (decode_replace_valid_upto (String.length s)). lia. Qed.

Lemma unquote_no_percent (s : string) : no_percent s = true -> unquote s = s.
Proof. unfold unquote. by intros ->. Qed.

Lemma quote_inr (s q : string) :
  quote s = inr q -> valid_utf8 s = true /\ q = quote_from_bytes s.
Proof. unfold quote. destruct (valid_utf8 s); [|done]. by intros [= <-]. Qed.

(** Decoding undoes encoding. *)
Lemma unquote_after_quote (s q : string) : quote s = inr q -> unquote q = s.
Proof.
  intros H. apply quote_inr in H as [Hv ->]. unfold unquote.
  destruct (no_percent (quote_from_bytes s)) eqn:Hp.
  - rewrite <- (unquote_to_bytes_no_percent _ Hp) at 1. apply unquote_to_bytes_quote.
  - rewrite unquote_runs_ascii by apply quote_from_bytes_ascii.
    change (EmptyString ++ quote_from_bytes s) with (quote_from_bytes s).
    rewrite unquote_to_bytes_quote. by apply decode_replace_valid.
Qed.

(** ** The target resolver *)

Lemma prefix_split (p s : string) :
  has_prefix p s = true -> s = p ++ str_drop (String.length p) s.
Proof.
  revert s. induction p as [|a p IH]; intros s H; simpl in *.
  - by destruct s.
  - destruct s as [|b s]; [done|].
    apply andb_true_iff in H as [Hab H].
    apply Ascii.eqb_eq in Hab as ->.
    change (String b s = String b (p ++ str_drop (String.length p) s)).
    f_equal. by apply IH.
Qed.

Lemma is_permalink_shape (target : string) :
  is_permalink target = true ->
  exists rest, target = "http://imslp.org/wiki/" ++ rest
            \/ target = "https://imslp.org/wiki/" ++ rest.
Proof.
  unfold is_permalink, startswith. intros H.
  apply orb_true_iff in H as [H|H]; apply prefix_split in H; eauto.
Qed.

(** C6.  For a target that begins with [http://imslp.org/wiki/] or
    [https://imslp.org/wiki/], [extract_title] returns the rest of the
    target after that prefix, percent-decoded by [unquote], and leaves the
    world as it found it: no GET, no sleep.  The decoding leaves a rest
    without percent sign as it is, and it gives back every title from its
    quoted form. *)
Theorem extract_title_permalink
    (net : Transport) (target : string) (w : world) :
  is_permalink target = true ->
  exists rest,
    (target = "http://imslp.org/wiki/" ++ rest
     \/ target = "https://imslp.org/wiki/" ++ rest)
    /\ split_after "/wiki/" target = Some rest
    /\ extract_title net target w = (inr (unquote rest), w)
    /\ (no_percent rest = true -> unquote rest = rest)
    /\ (forall title, quote title = inr rest -> unquote rest = title).
Proof.
  intros H. destruct (is_permalink_shape target H) as [rest Hrest].
  exists rest. split; [exact Hrest|].
  assert (Hs : split_after "/wiki/" target = Some rest)
    by (destruct Hrest as [-> | ->]; reflexivity).
  split; [exact Hs|].
  split; [unfold extract_title; by rewrite H, Hs|].
  split; [apply unquote_no_percent|].
  intros title. apply unquote_after_quote.
Qed.

Lemma default_obj_cons o x l :
  default (JObj []) o = JObj (x :: l) -> o = Some (JObj (x :: l)).
Proof. destruct o; simpl; congruence. Qed.

Lemma truthy_default_null o :
  truthy (default JNull o) = true -> exists v, o = Some v /\ truthy v = true.
Proof. destruct o; simpl; [eauto|done]. Qed.

(** A title comes out of the first [try] block exactly for the answers
    described by [pageinfo_title]. *)
Lemma title_of_pageinfo_some (r : Response) (t : string) :
  title_of_pageinfo r = inr (Some t) <-> pageinfo_title r t.
Proof.
  split.
  - unfold title_of_pageinfo, pageinfo_title.
    intros H.
    destruct (ok r) eqn:Hok; [|done].
    destruct (json_body r) as [e|data] eqn:Hbody; [done|].
    destruct data as [| | | | |data]; try done.
    cbn [rbind dict_get] in H.
    destruct (default (JObj []) (assoc "query" data)) as [| | | | |qkv] eqn:Hq; try done.
    cbn [rbind dict_get] in H.
    destruct (default (JObj []) (assoc "pages" qkv)) as [| | | | |pkv] eqn:Hp;
      try (by destruct (truthy _)).
    destruct pkv as [|[key page] others]; [done|].
    cbn [truthy rbind dict_values next_iter map snd] in H.
    destruct (truthy page) eqn:Hpage; [|done].
    destruct page as [| | | | |page]; try done.
    cbn [rbind dict_get dict_item] in H.
    destruct (truthy (default JNull (assoc "missing" page))) eqn:Hmiss; [done|].
    cbn [negb] in H.
    destruct (truthy (default JNull (assoc "title" page))) eqn:Htitle; [|done].
    apply truthy_default_null in Htitle as (v & Hv & Htv).
    rewrite Hv in H. cbn [rbind] in H.
    destruct v as [| | |title| |]; try done.
    cbn [rbind unquote_value] in H.
    split; [done|].
    exists data, qkv, key, page, others, title.
    apply default_obj_cons in Hp.
    destruct (assoc "query" data) as [q|] eqn:Hq'; simpl in Hq; [subst q|].
    2:{ by simplify_eq. }
    simpl in Htv. apply negb_true_iff, String.eqb_neq in Htv.
    repeat split; try done. by simplify_eq.
  - intros (Hok & data & qkv & key & page & others & title &
            Hbody & Hq & Hp & Hmiss & Htitle & Hne & ->).
    unfold title_of_pageinfo.
    rewrite Hok, Hbody. cbn [rbind dict_get]. rewrite Hq. cbn [from_option id rbind dict_get].
    rewrite Hp. cbn [from_option id].
    change (truthy (JObj ((key, JObj page) :: others))) with true.
    cbn [rbind dict_values next_iter map snd].
    assert (Hpage : truthy (JObj page) = true) by (by destruct page).
    rewrite Hpage. cbn [rbind dict_get dict_item]. rewrite Hmiss, Htitle.
    cbn [negb from_option id truthy rbind unquote_value].
    apply String.eqb_neq in Hne. by rewrite Hne.
Qed.

Lemma isdigit_not_permalink (target : string) :
  isdigit target = true -> is_permalink target = false.
Proof.
  destruct target as [|c s]; [done|].
  unfold isdigit, is_permalink, startswith. cbn [all_chars has_prefix].
  intros H. apply andb_true_iff in H as [Hc _].
  assert (Hh : Ascii.eqb "h" c = false)
    by (destruct c as [[] [] [] [] [] [] [] []]; done).
  by rewrite Hh.
Qed.

Lemma api_lookup_some (net : Transport) (target : string) (w w' : world) (t : string) :
  api_lookup net target w = (inr (Some t), w') <->
  exists r, get_with_retry net API_URL (pageinfo_params target) 15 3 1.5%float w = (inr r, w')
            /\ title_of_pageinfo r = inr (Some t).
Proof.
  unfold api_lookup, try_except, bind, lift, ret.
  destruct (get_with_retry net API_URL (pageinfo_params target) 15 3 1.5%float w)
    as [[e|r] w1].
  - split; [done|]. by intros (r & Hr & _).
  - destruct (title_of_pageinfo r) as [e|o] eqn:Ht.
    + split; [done|]. intros (r' & Hr & Ht'). simplify_eq. congruence.
    + split.
      * intros H. simplify_eq. eauto.
      * intros (r' & Hr & Ht'). simplify_eq. congruence.
Qed.

(** C5 (as the code has it).  For a target made of decimal digits, the
    first [try] block of [extract_title] returns a title exactly when
    [get_with_retry] hands back an answer with status OK and a JSON body
    [{query: {pages: {...}}}] whose page dictionary has at least one entry
    and whose FIRST entry is a dictionary with no truthy [missing] and a
    non-empty string [title]; the title returned is that string unquoted,
    and it is what [extract_title] returns. *)
Theorem extract_title_pageid
    (net : Transport) (target : string) (w w' : world) (t : string) :
  isdigit target = true ->
  (api_lookup net target w = (inr (Some t), w') <->
   exists r,
     get_with_retry net API_URL (pageinfo_params target) 15 3 1.5%float w = (inr r, w')
     /\ pageinfo_title r t)
  /\ (api_lookup net target w = (inr (Some t), w') ->
      extract_title net target w = (inr t, w')).
Proof.
  intros Hd. split.
  - rewrite api_lookup_some. by setoid_rewrite title_of_pageinfo_some.
  - intros H. unfold extract_title.
    rewrite (isdigit_not_permalink _ Hd), Hd.
    unfold bind at 1. by rewrite H.
Qed.

(** C5, counterexample.  The page dictionary of the answer has two
    entries, and [extract_title] still returns a title from it: the title
    of the first entry. *)
Lemma extract_title_two_pages :
  isdigit "12345" = true
  /\ fst (get_with_retry net_two_pages API_URL (pageinfo_params "12345") 15 3 1.5%float world0)
     = inr resp_two_pages
  /\ fst (api_lookup net_two_pages "12345" world0) = inr (Some "First")
  /\ fst (extract_title net_two_pages "12345" world0) = inr "First"
  /\ ~ exactly_one_page resp_two_pages.
Proof.
  repeat split; try reflexivity.
  intros (data & qkv & key & page & Hb & Hq & Hp).
  cbn in Hb. injection Hb as <-.
  cbn in Hq. injection Hq as <-.
  cbn in Hp. discriminate.
Qed.

(** The fallback of the specification: the API fails, the canonical link
    of the HTML page gives the title, underscores turned into spaces. *)
Example extract_title_html_fallback :
  fst (extract_title net_html_fallback "12345" world0) = inr "Symphony No.5 (Beethoven)"
  /\ length (gets_of (trace (snd (extract_title net_html_fallback "12345" world0)))) = 4%nat.
Proof. split; reflexivity. Qed.

(** ** The seed phase *)

Lemma seed_download_urls_inr (url : json) (d : DownloadUrls) :
  seed_download_urls url = inr d ->
  original d = url
  /\ (truthy url = false -> https d = JNull /\ direct d = url)
  /\ (truthy url = true ->
      exists s, url = JStr s /\ s <> EmptyString
        /\ https d = JStr (str_replace "http:" "https:" s)
        /\ direct d = JStr (if startswith s "//"
                            then str_replace "//imslp.org/" "https://imslp.org/" s
                            else s)).
Proof.
  unfold seed_download_urls. destruct (truthy url) eqn:Ht.
  - destruct url as [| | |s| |]; try done.
    cbn [str_method rbind truthy]. intros H.
    simpl in Ht. apply negb_true_iff, String.eqb_neq in Ht.
    destruct (startswith s "//") eqn:Hsw; cbn [rbind str_method] in H; simplify_eq.
    all: split; [done|]; split; [done|]; intros _; exists s; rewrite Hsw.
    all: repeat split; done.
  - cbn [rbind]. intros H. simplify_eq. done.
Qed.

Lemma seed_file_inr (img : Image) (f : FileRecord) (ts : list string) :
  seed_file img = inr (f, ts) ->
  exists info name ptitle,
    getattr_default (img_imageinfo img) (JObj []) = inr info
    /\ getattr_default (img_page_title img) None = inr ptitle
    /\ getattr_default (img_name img) None = inr name
    /\ f_name f = name
    /\ f_title f = str_or name ptitle
    /\ f_url f = info_field info "url"
    /\ seed_download_urls (f_url f) = inr (f_download_urls f)
    /\ ts = match f_title f with
            | Some t => if str_truthy (f_title f) then [t] else []
            | None => []
            end.
Proof.
  unfold seed_file. intros H.
  destruct (getattr_default (img_imageinfo img) (JObj [])) as [?|info]; [done|].
  destruct (getattr_default (img_page_title img) None) as [?|ptitle]; [done|].
  destruct (getattr_default (img_name img) None) as [?|name]; [done|].
  cbn [rbind] in H.
  destruct (seed_download_urls (info_field info "url")) as [?|d] eqn:Hd; [done|].
  cbn [rbind] in H. simplify_eq. cbn [f_name f_title f_url f_download_urls].
  exists info, name, ptitle. done.
Qed.

(** C8 (as the code has it).  For every seeded FileRecord, [original] is
    the listing url as it is; [https] is null when the url is null or
    empty and otherwise the url with every occurrence of [http:] replaced
    by [https:] (so a leading [http:] scheme becomes [https:]); [direct]
    is the url with every occurrence of [//imslp.org/] replaced by
    [https://imslp.org/] when the url begins with [//] (so a
    protocol-relative url on the host imslp.org becomes absolute), and
    the url unchanged otherwise. *)
Theorem seed_file_download_urls (img : Image) (f : FileRecord) (ts : list string) :
  seed_file img = inr (f, ts) ->
  original (f_download_urls f) = f_url f
  /\ (truthy (f_url f) = false ->
      https (f_download_urls f) = JNull /\ direct (f_download_urls f) = f_url f)
  /\ (truthy (f_url f) = true ->
      exists s, f_url f = JStr s /\ s <> EmptyString
        /\ https (f_download_urls f) = JStr (str_replace "http:" "https:" s)
        /\ direct (f_download_urls f)
           = JStr (if startswith s "//"
                   then str_replace "//imslp.org/" "https://imslp.org/" s
                   else s))
  /\ (forall rest, f_url f = JStr ("http:" ++ rest) ->
      https (f_download_urls f)
      = JStr ("https:" ++ str_replace "http:" "https:" rest))
  /\ (forall rest, f_url f = JStr ("//imslp.org/" ++ rest) ->
      direct (f_download_urls f)
      = JStr ("https://imslp.org/"
              ++ str_replace "//imslp.org/" "https://imslp.org/" rest)).
Proof.
  intros H. apply seed_file_inr in H as (info & name & ptitle & _ & _ & _ & _ & _ & _ & Hd & _).
  apply seed_download_urls_inr in Hd as (Ho & Hfalse & Htrue).
  split; [done|]. split; [done|]. split; [done|]. split.
  - intros rest Hu. destruct Htrue as (s & Hs & _ & Hh & _); [by rewrite Hu|].
    rewrite Hh. rewrite Hu in Hs. by simplify_eq.
  - intros rest Hu. destruct Htrue as (s & Hs & _ & _ & Hdir); [by rewrite Hu|].
    rewrite Hdir. rewrite Hu in Hs. by simplify_eq.
Qed.

(** C8, counterexample.  A protocol-relative url on another host keeps
    its [//] in [direct]; an [http:] that is not the scheme of the url is
    rewritten in [https]; and the empty url, which is not null, has a null
    [https]. *)
Lemma seed_file_direct_other_host :
  seed_file (image_with_url "File:X.pdf" url_other_host)
  = inr (mkFileRecord (Some "File:X.pdf") (Some "File:X.pdf")
           (JStr url_other_host) JNull JNull JNull JNull JNull
           (mkDownloadUrls (JStr url_other_host)
              (JStr "//ks.imslp.net/files/x.pdf?src=https://a")
              (JStr url_other_host)),
         ["File:X.pdf"])
  /\ startswith url_other_host "//" = true
  /\ startswith url_other_host "https:" = false
  /\ startswith url_other_host "http:" = false
  /\ seed_download_urls (JStr EmptyString)
     = inr (mkDownloadUrls (JStr EmptyString) JNull (JStr EmptyString)).
Proof. repeat split. Qed.

(** Scenario D of the specification. *)
Example seed_file_scenario_D :
  exists f ts,
    seed_file (image_with_url "File:X.pdf" "http://imslp.org/x.pdf") = inr (f, ts)
    /\ https (f_download_urls f) = JStr "https://imslp.org/x.pdf"
    /\ original (f_download_urls f) = JStr "http://imslp.org/x.pdf".
Proof. eexists _, _. repeat split. Qed.

Lemma merge_keys_cons (f : FileRecord) (fs : list FileRecord) :
  merge_keys (f :: fs)
  = match (if str_truthy (f_title f) then f_title f else None) with
    | Some t => t :: merge_keys fs
    | None => merge_keys fs
    end.
Proof. reflexivity. Qed.

Lemma seed_phase_inr (imgs : list Image) :
  forall fs titles,
  seed_phase imgs = inr (fs, titles) ->
  Forall2 (fun img f =>
             exists name ptitle,
               getattr_default (img_name img) None = inr name
               /\ getattr_default (img_page_title img) None = inr ptitle
               /\ f_name f = name
               /\ f_title f = str_or name ptitle) imgs fs
  /\ titles = merge_keys fs.
Proof.
  induction imgs as [|img imgs IH]; intros fs titles H; cbn [seed_phase] in H.
  - simplify_eq. by split; [constructor|].
  - destruct (seed_file img) as [?|[f t]] eqn:Hf; [done|]. cbn [rbind] in H.
    destruct (seed_phase imgs) as [?|[fs' ts']] eqn:Hs; [done|]. cbn [rbind] in H.
    simplify_eq. destruct (IH fs' ts' eq_refl) as [Hall ->].
    apply seed_file_inr in Hf
      as (info & name & ptitle & _ & Hpt & Hn & Hname & Htitle & _ & _ & ->).
    split.
    + constructor; [|done]. by exists name, ptitle.
    + rewrite merge_keys_cons.
      destruct (f_title f) as [t|] eqn:Ht; cbn [str_truthy]; [|done].
      by destruct (negb (t =? "")).
Qed.

Lemma merge_keys_length (fs : list FileRecord) : length (merge_keys fs) <= length fs.
Proof.
  induction fs as [|f fs IH]; [done|].
  rewrite merge_keys_cons.
  destruct (if str_truthy (f_title f) then f_title f else None); simpl; lia.
Qed.

Lemma listed_images_length (page : Page) : length (listed_images page) <= 100.
Proof.
  unfold listed_images. destruct (page_images page); simpl; [lia|].
  rewrite length_take. lia.
Qed.

(** The merge loop keeps the name and the title of a record. *)
Lemma merge_file_title (info : json) (f : FileRecord) :
  f_title (fst (merge_file info f)) = f_title f
  /\ f_name (fst (merge_file info f)) = f_name f.
Proof.
  unfold merge_file. destruct info; try done.
  by destruct (if truthy _ then _ else _).
Qed.

Lemma reconcile_titles (by_title : gmap string json) (fs : list FileRecord) :
  map f_title (fst (reconcile by_title fs)) = map f_title fs.
Proof.
  induction fs as [|f fs IH]; [done|]. cbn [reconcile].
  destruct (matched_info by_title f) as [info|].
  - destruct (merge_file_title info f) as [Ht _].
    destruct (merge_file info f) as [f' [e|]]; cbn [fst] in Ht.
    + cbn. by rewrite Ht.
    + destruct (reconcile by_title fs) as [rest' e']. cbn in *. by rewrite Ht, IH.
  - destruct (reconcile by_title fs) as [rest' e']. cbn in *. by rewrite IH.
Qed.

(** C4 (as the code has it).  For every image listing entry the [title]
    of the FileRecord is the entry's [name] when the name is present and
    not empty, and falls back to the entry's [page_title] otherwise; the
    merge loop never changes it; the merge keys are the non-empty titles
    of the records in listing order, every occurrence kept, and there are
    at most 100 of them. *)
Theorem seed_phase_titles
    (page : Page) (fs : list FileRecord) (titles : list string) :
  seed_phase (listed_images page) = inr (fs, titles) ->
  Forall2 (fun img f =>
             exists name ptitle,
               getattr_default (img_name img) None = inr name
               /\ getattr_default (img_page_title img) None = inr ptitle
               /\ f_name f = name
               /\ (str_truthy name = true -> f_title f = name)
               /\ (str_truthy name = false -> f_title f = ptitle))
          (listed_images page) fs
  /\ titles = merge_keys fs
  /\ length titles <= 100
  /\ (forall by_title, map f_title (fst (reconcile by_title fs)) = map f_title fs).
Proof.
  intros H. apply seed_phase_inr in H as [Hall ->].
  split; [|split; [done|split]].
  - eapply Forall2_impl; [exact Hall|].
    intros img f (name & ptitle & Hn & Hp & Hname & Ht).
    exists name, ptitle. unfold str_or in Ht.
    repeat split; try done; intros Htr; by rewrite Htr in Ht.
  - pose proof (merge_keys_length fs). pose proof (listed_images_length page).
    apply Forall2_length in Hall. lia.
  - intros by_title. apply reconcile_titles.
Qed.

(** C4, counterexample.  An entry with both a name and a page title gets
    its NAME as record title, and two entries with the same name give the
    same merge key twice. *)
Lemma seed_phase_name_first :
  img_name img_a = inr (Some "File:A.pdf")
  /\ img_page_title img_a = inr (Some "A.pdf")
  /\ seed_phase [img_a; img_a] = inr ([rec_a; rec_a], ["File:A.pdf"; "File:A.pdf"])
  /\ f_title rec_a = Some "File:A.pdf"
  /\ ~ NoDup ["File:A.pdf"; "File:A.pdf"].
Proof.
  repeat split.
  intros H. apply NoDup_cons in H as [Hnin _]. apply Hnin. by left.
Qed.

(** ** Reconciliation *)

Lemma py_or_takes_truthy (remote seed : json) :
  takes_truthy remote seed (py_or remote seed).
Proof. unfold takes_truthy, py_or. by destruct (truthy remote). Qed.

Lemma non_null_takes (remote seed : json) :
  takes_non_null remote seed (if negb (is_none remote) then remote else seed).
Proof. unfold takes_non_null. by destruct remote. Qed.

Lemma matched_info_truthy (by_title : gmap string json) (f : FileRecord) (info : json) :
  matched_info by_title f = Some info <->
  exists t, f_title f = Some t /\ by_title !! t = Some info /\ truthy info = true.
Proof.
  unfold matched_info. destruct (f_title f) as [t|].
  - destruct (by_title !! t) as [i|] eqn:Hl.
    + destruct (truthy i) eqn:Hi.
      * split; [intros [= ->]; eauto|].
        intros (t' & [= <-] & Hl' & _). congruence.
      * split; [done|].
        intros (t' & [= <-] & Hl' & Hti). rewrite Hl in Hl'.
        injection Hl' as ->. congruence.
    + split; [done|]. intros (t' & [= <-] & Hl' & _). congruence.
  - split; [done|]. intros (t' & [=] & _).
Qed.

Lemma matched_info_absent (by_title : gmap string json) (f : FileRecord) :
  (forall t, f_title f = Some t -> by_title !! t = None) ->
  matched_info by_title f = None.
Proof.
  intros H. unfold matched_info. destruct (f_title f) as [t|]; [|done].
  by rewrite (H t eq_refl).
Qed.

(** What a completed iteration of the merge loop leaves in the record. *)
Lemma merge_file_fields (info : json) (f f' : FileRecord) :
  merge_file info f = (f', None) ->
  f_name f' = f_name f
  /\ f_title f' = f_title f
  /\ takes_truthy (info_field info "url") (f_url f) (f_url f')
  /\ takes_non_null (info_field info "size") (f_size f) (f_size f')
  /\ takes_truthy (info_field info "sha1") (f_sha1 f) (f_sha1 f')
  /\ takes_truthy (info_field info "mime") (f_mime_type f) (f_mime_type f')
  /\ takes_truthy (info_field info "timestamp") (f_timestamp f) (f_timestamp f')
  /\ takes_truthy (info_field info "user") (f_user f) (f_user f')
  /\ original (f_download_urls f') = info_field info "url"
  /\ direct (f_download_urls f') = info_field info "url"
  /\ (truthy (info_field info "url") = false -> https (f_download_urls f') = JNull)
  /\ (forall s, info_field info "url" = JStr s -> s <> EmptyString ->
      https (f_download_urls f') = JStr (str_replace "http:" "https:" s)).
Proof.
  unfold merge_file. destruct info as [| | | | |kv]; try done.
  cbn [info_field].
  set (url := default JNull (assoc "url" kv)).
  destruct (if truthy url then _ else _) as [e|h] eqn:Hh; [done|].
  intros H. simplify_eq.
  cbn [with_download_urls with_merged f_name f_title f_url f_size f_sha1
       f_mime_type f_timestamp f_user f_download_urls original direct https].
  split; [done|]. split; [done|].
  split; [apply py_or_takes_truthy|]. split; [apply non_null_takes|].
  do 4 (split; [apply py_or_takes_truthy|]).
  split; [done|]. split; [done|]. split.
  - intros Hu. rewrite Hu in Hh. by simplify_eq.
  - intros s Hs Hne. rewrite Hs in Hh. cbn [truthy str_method] in Hh.
    apply String.eqb_neq in Hne. rewrite Hne in Hh. cbn [negb] in Hh.
    by simplify_eq.
Qed.

Lemma reconcile_completed (by_title : gmap string json) (fs : list FileRecord) :
  forall fs',
  reconcile by_title fs = (fs', None) ->
  Forall2 (fun f f' =>
             match matched_info by_title f with
             | Some info => merge_file info f = (f', None)
             | None => f' = f
             end) fs fs'.
Proof.
  induction fs as [|f fs IH]; intros fs' H; cbn [reconcile] in H.
  - simplify_eq. constructor.
  - destruct (matched_info by_title f) as [info|] eqn:Hm.
    + destruct (merge_file info f) as [f1 [e|]] eqn:Hmf; [done|].
      destruct (reconcile by_title fs) as [rest' e']. simplify_eq.
      constructor; [by rewrite Hm|]. by apply IH.
    + destruct (reconcile by_title fs) as [rest' e']. simplify_eq.
      constructor; [by rewrite Hm|]. by apply IH.
Qed.

Lemma merge_file_well_formed (info : json) (f : FileRecord) :
  well_formed_info info -> snd (merge_file info f) = None.
Proof.
  intros (kv & -> & Hurl). unfold merge_file.
  destruct (truthy (default JNull (assoc "url" kv))) eqn:Hu; [|done].
  destruct (Hurl eq_refl) as [s ->]. done.
Qed.

(** On well-formed infos the merge loop runs to its end. *)
Lemma reconcile_well_formed (by_title : gmap string json) (fs : list FileRecord) :
  (forall t info, by_title !! t = Some info -> truthy info = true ->
                  well_formed_info info) ->
  snd (reconcile by_title fs) = None.
Proof.
  intros Hwf. induction fs as [|f fs IH]; [done|]. cbn [reconcile].
  destruct (matched_info by_title f) as [info|] eqn:Hm.
  - apply matched_info_truthy in Hm as (t & _ & Hl & Ht).
    pose proof (merge_file_well_formed info f (Hwf t info Hl Ht)) as Hok.
    destruct (merge_file info f) as [f' [e|]]; [done|].
    by destruct (reconcile by_title fs).
  - by destruct (reconcile by_title fs).
Qed.

(** C2 (as the code has it).  When the merge loop runs to its end, every
    seeded record whose title has a non-empty info in the batched mapping
    gets, in [url], [sha1], [mime_type], [timestamp] and [user], the
    batched value when that value is truthy (not null and not empty) and
    keeps its seed value otherwise; [size] gets the batched value when it
    is not null (a size of 0 included) and keeps the seed value
    otherwise; [name] and [title] are kept; and a record whose title is
    not a key of the mapping is left as it was. *)
Theorem reconcile_fields
    (by_title : gmap string json) (fs fs' : list FileRecord) :
  reconcile by_title fs = (fs', None) ->
  Forall2 (fun f f' =>
             (forall t info,
                f_title f = Some t -> by_title !! t = Some info ->
                truthy info = true ->
                f_name f' = f_name f
                /\ f_title f' = f_title f
                /\ takes_truthy (info_field info "url") (f_url f) (f_url f')
                /\ takes_truthy (info_field info "mime") (f_mime_type f) (f_mime_type f')
                /\ takes_truthy (info_field info "timestamp") (f_timestamp f) (f_timestamp f')
                /\ takes_truthy (info_field info "user") (f_user f) (f_user f')
                /\ takes_truthy (info_field info "sha1") (f_sha1 f) (f_sha1 f')
                /\ takes_non_null (info_field info "size") (f_size f) (f_size f'))
             /\ ((forall t, f_title f = Some t -> by_title !! t = None) -> f' = f))
          fs fs'.
Proof.
  intros H. apply reconcile_completed in H.
  eapply Forall2_impl; [exact H|]. clear H.
  intros f f' H. cbv beta in H. split.
  - intros t info Ht Hl Hi.
    assert (Hm : matched_info by_title f = Some info)
      by (apply matched_info_truthy; eauto).
    rewrite Hm in H. apply merge_file_fields in H.
    destruct H as (? & ? & ? & ? & ? & ? & ? & ? & _). done.
  - intros Habs. by rewrite (matched_info_absent _ _ Habs) in H.
Qed.

(** C2, counterexample.  The batched [user] is the empty string, which is
    not null, and the record keeps the seed value. *)
Lemma reconcile_empty_user_keeps_seed :
  f_title rec_x = Some "File:X.pdf"
  /\ by_title_empty_user !! "File:X.pdf"
     = Some (JObj [("url", JStr "https://imslp.org/images/x.pdf");
                   ("user", JStr EmptyString)])
  /\ snd (reconcile by_title_empty_user [rec_x]) = None
  /\ (f_user <$> fst (reconcile by_title_empty_user [rec_x])) = [JStr "Alice"]
  /\ JStr EmptyString <> JNull.
Proof. repeat split; done. Qed.

Lemma merge_file_url_str (info : json) (f f' : FileRecord) :
  merge_file info f = (f', None) ->
  truthy (info_field info "url") = true ->
  exists s, info_field info "url" = JStr s /\ s <> EmptyString.
Proof.
  unfold merge_file. destruct info as [| | | | |kv]; try done.
  cbn [info_field]. intros H Hu. rewrite Hu in H.
  destruct (default JNull (assoc "url" kv)) as [| | |s| |]; try done.
  exists s. split; [done|].
  simpl in Hu. by apply negb_true_iff, String.eqb_neq in Hu.
Qed.

(** When the batched info has a truthy url, the new [download_urls] agree
    with the final url of the record. *)
Lemma merge_file_download_urls (info : json) (f f' : FileRecord) :
  merge_file info f = (f', None) ->
  truthy (info_field info "url") = true ->
  exists s, f_url f' = JStr s
    /\ original (f_download_urls f') = f_url f'
    /\ https (f_download_urls f') = JStr (str_replace "http:" "https:" s)
    /\ direct (f_download_urls f') = f_url f'.
Proof.
  intros H Hu. destruct (merge_file_url_str _ _ _ H Hu) as (s & Hs & Hne).
  apply merge_file_fields in H
    as (_ & _ & [Hurl _] & _ & _ & _ & _ & _ & Ho & Hd & _ & Hh).
  specialize (Hurl Hu). rewrite Ho, Hd, Hurl, Hs.
  exists s. repeat split. by apply Hh.
Qed.

(** C3, at the failing input.  The batched info has no [url]: the record
    keeps its seed url, and its [download_urls] are all set to null
    instead of being recomputed from that url. *)
Theorem reconcile_download_urls_without_url :
  f_title rec_x = Some "File:X.pdf"
  /\ by_title_no_url !! "File:X.pdf" = Some (JObj [("filemissing", JStr EmptyString)])
  /\ reconcile by_title_no_url [rec_x] = ([rec_x_no_url], None)
  /\ f_url rec_x_no_url = f_url rec_x
  /\ f_url rec_x_no_url = JStr "http://imslp.org/x.pdf"
  /\ f_download_urls rec_x_no_url = mkDownloadUrls JNull JNull JNull.
Proof. repeat split; done. Qed.

(** The mapping of the failing input is what the batched phase builds
    from an answer that reports the file as missing. *)
Example collect_response_file_missing :
  collect_response resp_file_missing ∅ = inr by_title_no_url.
Proof. reflexivity. Qed.

Lemma py_or_idem (a b : json) : py_or a (py_or a b) = py_or a b.
Proof. unfold py_or. by destruct (truthy a) eqn:Ha; rewrite ?Ha. Qed.

Lemma non_null_idem (a b : json) :
  (if negb (is_none a) then a else if negb (is_none a) then a else b)
  = (if negb (is_none a) then a else b).
Proof. by destruct (negb (is_none a)). Qed.

Lemma merge_file_idem (info : json) (f : FileRecord) :
  merge_file info (fst (merge_file info f)) = merge_file info f.
Proof.
  unfold merge_file. destruct info as [| | | | |kv]; try done.
  set (url := default JNull (assoc "url" kv)).
  destruct (if truthy url then _ else _) as [e|h] eqn:Hh; cbn [fst].
  all: unfold with_merged, with_download_urls;
    cbn [f_name f_title f_url f_size f_sha1 f_mime_type f_timestamp f_user
         f_download_urls].
  all: by rewrite !py_or_idem, non_null_idem.
Qed.

Lemma matched_info_same_title (by_title : gmap string json) (f f' : FileRecord) :
  f_title f' = f_title f -> matched_info by_title f' = matched_info by_title f.
Proof. unfold matched_info. by intros ->. Qed.

(** C9.  Running the merge loop a second time with the same mapping on
    the records it produced changes nothing: the same records (and the
    same exception, when the loop stops on one). *)
Theorem reconcile_idempotent (by_title : gmap string json) (fs : list FileRecord) :
  reconcile by_title (fst (reconcile by_title fs)) = reconcile by_title fs.
Proof.
  induction fs as [|f fs IH]; [done|].
  cbn [reconcile].
  destruct (matched_info by_title f) as [info|] eqn:Hm.
  - pose proof (merge_file_idem info f) as Hidem.
    destruct (merge_file_title info f) as [Ht _].
    destruct (merge_file info f) as [f' [e|]] eqn:Hmf; cbn [fst] in *.
    + cbn [reconcile].
      rewrite (matched_info_same_title _ _ _ Ht), Hm, Hidem. done.
    + destruct (reconcile by_title fs) as [rest' e'] eqn:Hr. cbn [fst] in *.
      cbn [reconcile].
      rewrite (matched_info_same_title _ _ _ Ht), Hm, Hidem, IH. done.
  - destruct (reconcile by_title fs) as [rest' e'] eqn:Hr. cbn [fst] in *.
    cbn [reconcile]. rewrite Hm, IH. done.
Qed.

(** The chunking of the specification: of 120 titles, two chunks of 50
    are queried. *)
Example chunks_of_120_titles :
  length <$> chunks (replicate 120 "t") = [50; 50]%nat.
Proof. reflexivity. Qed.

(** ** The sections of the document *)

Lemma retry_loop_exhausted net rq b n :
  forall d last w,
  (forall k, (k < n)%nat -> exists e, net (next_call w + k)%nat rq = inl e) ->
  Forall sleepable (backoff_delays d b n) ->
  exists e evs,
    retry_loop net n rq b d last w
    = (inl e, mkWorld (next_call w + n) (next_lookup w) (trace w ++ evs))
    /\ (forall n', n = S n' -> net (next_call w + n')%nat rq = inl e)
    /\ gets_of evs = replicate n rq
    /\ sleeps_of evs = map seconds (backoff_delays d b n).
Proof.
  induction n as [|n IH]; intros d last w Hfail Hsl.
  - exists (default (Exn OtherError "request failed") last), [].
    cbn [retry_loop]. unfold raise. rewrite app_nil_r, Nat.add_0_r.
    by destruct w.
  - destruct (Hfail 0%nat ltac:(lia)) as [e He]. rewrite Nat.add_0_r in He.
    cbn [backoff_delays] in Hsl. apply Forall_cons in Hsl as [Hd Hsl].
    set (w1 := mkWorld (S (next_call w)) (next_lookup w)
                 ((trace w ++ [EvGet rq]) ++ [EvSleep (seconds d)])).
    destruct (IH (d * b)%float (Some e) w1) as (e' & evs & Hrun & Hlast & Hg & Hs).
    { intros k Hk. destruct (Hfail (S k) ltac:(lia)) as [e2 He2].
      exists e2. simpl. by rewrite <- Nat.add_succ_r. }
    { exact Hsl. }
    exists (match n with 0%nat => e | S _ => e' end),
      (EvGet rq :: EvSleep (seconds d) :: evs).
    rewrite retry_loop_step, He, Hd. fold w1. rewrite Hrun.
    split; [|split; [|split]].
    + subst w1. cbn [trace next_call next_lookup]. destruct n as [|n'].
      * cbn [retry_loop] in Hrun. unfold raise in Hrun. simplify_eq.
        do 2 f_equal; [lia|]. by rewrite <- !app_assoc.
      * do 2 f_equal; [lia|]. by rewrite <- !app_assoc.
    + intros n' [= <-]. destruct n as [|n'].
      * by rewrite Nat.add_0_r.
      * specialize (Hlast n' eq_refl). subst w1. simpl in Hlast.
        by rewrite <- Nat.add_succ_r in Hlast.
    + change (gets_of (EvGet rq :: EvSleep (seconds d) :: evs)) with (rq :: gets_of evs).
      by rewrite Hg.
    + change (sleeps_of (EvGet rq :: EvSleep (seconds d) :: evs))
        with (seconds d :: sleeps_of evs).
      by rewrite Hs.
Qed.

(** The delays of the call sites, [1.0], [1.5] and [2.25] seconds, are
    taken by [time.sleep]. *)
Lemma call_site_delays :
  backoff_delays 1 1.5 3 = [1; 1.5; 2.25]%float
  /\ Forall sleepable (backoff_delays 1 1.5 3)
  /\ map seconds (backoff_delays 1 1.5 3) = [1; 3 # 2; 9 # 4]%Q.
Proof.
  split; [reflexivity|]. split; [|reflexivity].
  repeat (constructor; [reflexivity|]). constructor.
Qed.

(** [get_with_retry] with [tries = 3] and the backoff of the call sites
    on a request whose three GETs fail: it raises the last transport
    error after three GETs. *)
Lemma get_with_retry_exhausted net url params timeout w :
  (forall k, (k < 3)%nat ->
     exists e, net (next_call w + k)%nat (mkRequest url params HEADERS timeout) = inl e) ->
  exists e evs,
    get_with_retry net url params timeout 3 1.5%float w
    = (inl e, mkWorld (next_call w + 3) (next_lookup w) (trace w ++ evs))
    /\ net (next_call w + 2)%nat (mkRequest url params HEADERS timeout) = inl e
    /\ gets_of evs = replicate 3 (mkRequest url params HEADERS timeout).
Proof.
  intros Hfail. unfold get_with_retry.
  destruct (retry_loop_exhausted net (mkRequest url params HEADERS timeout) 1.5%float 3
              1%float None w Hfail (proj1 (proj2 call_site_delays)))
    as (e & evs & Hrun & Hlast & Hg & _).
  exists e, evs. split; [exact Hrun|]. split; [by apply Hlast|done].
Qed.

Lemma enrich_loop_app net (pre cs : list (list string)) :
  forall by_title w,
  enrich_loop net (pre ++ cs) by_title w
  = match enrich_loop net pre by_title w with
    | (inr bt, w1) => enrich_loop net cs bt w1
    | (inl e, w1) => (inl e, w1)
    end.
Proof.
  induction pre as [|c pre IH]; intros by_title w; [done|].
  cbn [app enrich_loop]. unfold bind, lift.
  destruct (get_with_retry net API_URL _ 20 3 1.5%float w) as [[e|r] w1]; [done|].
  destruct (collect_response r by_title) as [e|bt]; [done|].
  apply IH.
Qed.

Lemma fold_append_revision (revs : list (list (string * json))) :
  forall md,
  let md' := fold_left append_revision revs md in
  md_revision_history md' = (md_revision_history md ++ map revision_record revs)%list
  /\ md_revision_history_error md' = md_revision_history_error md
  /\ md_files md' = md_files md
  /\ md_files_error md' = md_files_error md
  /\ md_categories md' = md_categories md
  /\ md_categories_error md' = md_categories_error md
  /\ md_basic_info md' = md_basic_info md
  /\ md_basic_info_error md' = md_basic_info_error md.
Proof.
  induction revs as [|rev revs IH]; intros md; cbn [fold_left map].
  - by rewrite app_nil_r.
  - destruct (IH (append_revision md rev)) as (H1 & H2 & H3 & H4 & H5 & H6 & H7 & H8).
    cbv zeta. rewrite H1, H2, H3, H4, H5, H6, H7, H8.
    cbn. by rewrite <- app_assoc.
Qed.

(** [populate] never raises, and its four sections are filled one after
    the other, each from its own body. *)
Lemma populate_eq net page md w :
  populate net page md w
  = let md1 := match basic_info_body page with
               | inr v => set_basic_info v md
               | inl e => set_basic_info_error (str_of_exn e) md
               end in
    let md2 := match categories_body page with
               | inr v => set_categories v md1
               | inl e => set_categories_error (str_of_exn e) md1
               end in
    let revisions md3 :=
      match page_revisions page with
      | inr revs => fold_left append_revision (take 5 revs) md3
      | inl e => set_revision_history_error (str_of_exn e) md3
      end in
    match files_body net page w with
    | (inr fs, w1) => (inr (revisions (set_files fs md2)), w1)
    | (inl e, w1) => (inr (revisions (set_files_error (str_of_exn e) md2)), w1)
    end.
Proof.
  unfold populate, bind, try_except, ret.
  by destruct (files_body net page w) as [[e|fs] w1].
Qed.

(** The inner [try] of the file section swallows every exception. *)
Lemma enrich_and_merge_total net (fs : list FileRecord) (titles : list string) w :
  exists fs' w', enrich_and_merge net fs titles w = (inr fs', w').
Proof.
  unfold enrich_and_merge. destruct titles as [|t ts]; [by eexists _, _|].
  unfold try_except, bind, ret.
  destruct (enrich_loop net (chunks (t :: ts)) ∅ w) as [[e|bt] w1]; by eexists _, _.
Qed.

(** The file section raises exactly when the seed phase does. *)
Lemma files_body_raises net page w e :
  fst (files_body net page w) = inl e <-> seed_phase (listed_images page) = inl e.
Proof.
  unfold files_body, bind, lift.
  destruct (seed_phase (listed_images page)) as [e'|[fs titles]]; cbn [fst snd].
  - split; intros [= ->]; done.
  - destruct (enrich_and_merge_total net fs titles w) as (fs' & w' & ->).
    cbn [fst]. split; intros [=].
Qed.

Lemma files_body_images_fail net page w e :
  page_images page = inl e -> files_body net page w = (inr [], w).
Proof.
  intros H. unfold files_body, listed_images. by rewrite H.
Qed.

Ltac fold_revisions :=
  match goal with
  | |- context [fold_left append_revision ?l ?m] =>
      let H := fresh in
      pose proof (fold_append_revision l m) as H; cbv zeta in H;
      destruct H as (-> & -> & -> & -> & -> & -> & -> & ->)
  end.

(** [populate] on the initial document: it returns a document, and every
    section of it is the outcome of that section's own body. *)
Lemma populate_initial net page title url now w :
  exists md,
    populate net page (initial_metadata title url now page) w
    = (inr md, snd (files_body net page w))
    /\ section_outcome (basic_info_body page) []
         (md_basic_info md) (md_basic_info_error md)
    /\ section_outcome (categories_body page) []
         (md_categories md) (md_categories_error md)
    /\ section_outcome (fst (files_body net page w)) []
         (md_files md) (md_files_error md)
    /\ section_outcome
         (rbind (page_revisions page)
            (fun revs => inr (map revision_record (take 5 revs)))) []
         (md_revision_history md) (md_revision_history_error md).
Proof.
  rewrite populate_eq. cbv zeta. unfold section_outcome.
  destruct (files_body net page w) as [[ef|fs] w1];
    destruct (basic_info_body page) as [eb|vb];
    destruct (categories_body page) as [ec|vc];
    destruct (page_revisions page) as [er|revs];
    cbn [fst snd rbind]; eexists; (split; [reflexivity|]);
    try fold_revisions; cbn; done.
Qed.

Lemma files_body_after_failure net page w fs titles pre chunk post by_title w1 :
  seed_phase (listed_images page) = inr (fs, titles) ->
  chunks titles = (pre ++ chunk :: post)%list ->
  enrich_loop net pre ∅ w = (inr by_title, w1) ->
  (forall k, (k < 3)%nat ->
     exists e, net (next_call w1 + k)%nat (imageinfo_request chunk) = inl e) ->
  exists evs,
    files_body net page w
    = (inr fs, mkWorld (next_call w1 + 3) (next_lookup w1) (trace w1 ++ evs))
    /\ gets_of evs = replicate 3 (imageinfo_request chunk).
Proof.
  intros Hseed Hchunks Hpre Hfail.
  destruct (get_with_retry_exhausted net API_URL
              (imageinfo_params (str_join "|" chunk)) 20 w1 Hfail)
    as (e & evs & Hrun & _ & Hg).
  exists evs. split; [|exact Hg].
  unfold files_body, bind, lift. rewrite Hseed. cbn [fst snd].
  unfold enrich_and_merge. destruct titles as [|t ts].
  { by destruct pre. }
  unfold try_except, bind, ret.
  rewrite Hchunks, enrich_loop_app, Hpre. cbn [enrich_loop]. unfold bind.
  by rewrite Hrun.
Qed.

(** C1 (as the code has it).  [populate] always returns a document.  In
    it every section is the outcome of its own [try] body: when the body
    raised, the section has its default empty value and the
    [<section>_error] holds the text of the exception; when it did not,
    the section holds the body's value and there is no error; so a
    failure in one section changes nothing in the others.  The body of
    the file list raises exactly when the seed phase raises: a failure of
    [page.images()] gives an empty list, and a failure of the batched
    queries or of the merge loop is swallowed inside the section. *)
Theorem populate_sections_isolated
    (net : Transport) (page : Page) (title url now : string) (w : world) :
  exists md,
    populate net page (initial_metadata title url now page) w
    = (inr md, snd (files_body net page w))
    /\ section_outcome (basic_info_body page) []
         (md_basic_info md) (md_basic_info_error md)
    /\ section_outcome (categories_body page) []
         (md_categories md) (md_categories_error md)
    /\ section_outcome (fst (files_body net page w)) []
         (md_files md) (md_files_error md)
    /\ section_outcome
         (rbind (page_revisions page)
            (fun revs => inr (map revision_record (take 5 revs)))) []
         (md_revision_history md) (md_revision_history_error md)
    /\ (forall e, fst (files_body net page w) = inl e
                  <-> seed_phase (listed_images page) = inl e)
    /\ (forall e, page_images page = inl e -> files_body net page w = (inr [], w)).
Proof.
  destruct (populate_initial net page title url now w) as (md & H1 & H2 & H3 & H4 & H5).
  exists md. repeat (split; [assumption|]). split.
  - intros e. apply files_body_raises.
  - intros e. apply files_body_images_fail.
Qed.

(** C1, counterexample.  [page.images()] raises while the file list is
    populated, and the document has no [files_error]. *)
Lemma populate_images_failure_unrecorded :
  page_images page_images_fail = inl (Exn OtherError "images unavailable")
  /\ fst (populate net_down page_images_fail
            (initial_metadata "Symphony No.5" "https://imslp.org/wiki/Symphony%20No.5"
               "2026-01-01T00:00:00" page_images_fail) world0)
     = inr md_images_fail
  /\ md_files md_images_fail = []
  /\ md_files_error md_images_fail = None.
Proof. repeat split. Qed.

(** Scenario C of the specification: the categories lookup raises; the
    document has [categories: []] and the error text, and the file list
    and the revision history are populated. *)
Example populate_scenario_C :
  fst (populate net_down page_categories_fail
         (initial_metadata "Symphony No.5" "https://imslp.org/wiki/Symphony%20No.5"
            "2026-01-01T00:00:00" page_categories_fail) world0)
  = inr md_categories_fail.
Proof. reflexivity. Qed.

(** C10.  When the three GETs of some chunk's batched query all fail at
    the transport level, [get_with_retry] raises, and the file section
    ends there: no query is issued for the chunks after it, the merge
    loop does not run, [files] holds exactly the seeded records, and no
    [files_error] is recorded. *)
Theorem files_after_transport_failure
    (net : Transport) (page : Page) (title url now : string) (w w1 : world)
    (fs : list FileRecord) (titles : list string)
    (pre : list (list string)) (chunk : list string) (post : list (list string))
    (by_title : gmap string json) :
  seed_phase (listed_images page) = inr (fs, titles) ->
  chunks titles = (pre ++ chunk :: post)%list ->
  enrich_loop net pre ∅ w = (inr by_title, w1) ->
  (forall k, (k < 3)%nat ->
     exists e, net (next_call w1 + k)%nat (imageinfo_request chunk) = inl e) ->
  exists md evs,
    populate net page (initial_metadata title url now page) w
    = (inr md, mkWorld (next_call w1 + 3) (next_lookup w1) (trace w1 ++ evs))
    /\ gets_of evs = replicate 3 (imageinfo_request chunk)
    /\ md_files md = fs
    /\ md_files_error md = None.
Proof.
  intros Hseed Hchunks Hpre Hfail.
  destruct (files_body_after_failure _ _ _ _ _ _ _ _ _ _ Hseed Hchunks Hpre Hfail)
    as (evs & Hbody & Hg).
  destruct (populate_initial net page title url now w) as (md & Hrun & _ & _ & Hf & _).
  rewrite Hbody in Hrun, Hf. cbn [fst snd section_outcome] in Hrun, Hf.
  exists md, evs. by destruct Hf.
Qed.

(** ** The properties at concrete inputs *)

(** Two timeouts, then the answer: three GETs, sleeps of 1 and 1.5 seconds. *)
Lemma get_with_retry_backoff_witness :
  exists evs,
    get_with_retry net_fails_twice API_URL [] 15 (Z.of_nat 2 + 1) 1.5%float world0
    = (inr resp_symphony,
       mkWorld (next_call world0 + 2 + 1) (next_lookup world0) (trace world0 ++ evs))
    /\ length (gets_of evs) = 3%nat
    /\ sleeps_of evs = [1; 3 # 2]%Q
    /\ Forall2 Qeq (sleeps_of evs) (geometric 1 (3 # 2) 2).
Proof.
  destruct (get_with_retry_backoff net_fails_twice API_URL [] 15 1.5%float 2 world0
              resp_symphony)
    as (evs & Hrun & Hg & _ & Hs & Hgeo).
  - intros i Hi. destruct i as [|[|i]]; [eexists; reflexivity..|lia].
  - reflexivity.
  - repeat (constructor; [reflexivity|]). constructor.
  - exists evs. split; [exact Hrun|]. split; [exact Hg|]. split; [exact Hs|].
    apply Hgeo. repeat (constructor; [vm_compute; reflexivity|]). constructor.
Defined.

(** A permalink with an escaped character outside ASCII: no network
    event, the two escaped bytes decoded to one character, the underscore
    kept. *)
Lemma extract_title_permalink_witness :
  is_permalink "https://imslp.org/wiki/Caf%C3%A9_(Bach-Gounod)" = true
  /\ extract_title net_down "https://imslp.org/wiki/Caf%C3%A9_(Bach-Gounod)" world0
     = (inr ("Caf" ++ String "195" (String "169" "_(Bach-Gounod)")), world0).
Proof.
  split; [reflexivity|].
  destruct (extract_title_permalink net_down
              "https://imslp.org/wiki/Caf%C3%A9_(Bach-Gounod)" world0 eq_refl)
    as (rest & _ & Hs & Hrun & _).
  injection Hs as <-. exact Hrun.
Defined.

(** Scenario A of the specification: no network event; the underscores of
    the path segment are kept. *)
Example extract_title_scenario_A :
  extract_title net_down "https://imslp.org/wiki/Ave_Maria_(Bach-Gounod)" world0
  = (inr "Ave_Maria_(Bach-Gounod)", world0).
Proof. reflexivity. Qed.

(** An escaped byte that is not UTF-8 (here Latin-1) is decoded to the
    replacement character U+FFFD. *)
Example extract_title_latin1_escape :
  extract_title net_down "https://imslp.org/wiki/Caf%E9" world0
  = (inr ("Caf" ++ replacement_character), world0).
Proof. reflexivity. Qed.

(** Scenario B of the specification. *)
Lemma extract_title_pageid_witness :
  isdigit "12345" = true
  /\ extract_title net_symphony "12345" world0
     = (inr "Symphony No.5",
        mkWorld 1 0 [EvGet (mkRequest API_URL (pageinfo_params "12345") HEADERS 15)]).
Proof.
  split; [reflexivity|].
  apply (proj2 (extract_title_pageid net_symphony "12345" world0 _ _ eq_refl)).
  reflexivity.
Defined.

Lemma seed_file_download_urls_witness :
  seed_file (image_with_url "File:X.pdf" "http://imslp.org/x.pdf")
  = inr (rec_seeded, ["File:X.pdf"])
  /\ original (f_download_urls rec_seeded) = f_url rec_seeded
  /\ https (f_download_urls rec_seeded)
     = JStr ("https:" ++ str_replace "http:" "https:" "//imslp.org/x.pdf").
Proof.
  split; [reflexivity|].
  destruct (seed_file_download_urls (image_with_url "File:X.pdf" "http://imslp.org/x.pdf")
              rec_seeded ["File:X.pdf"] eq_refl) as (Ho & _ & _ & Hh & _).
  split; [exact Ho|]. apply (Hh "//imslp.org/x.pdf"). reflexivity.
Defined.

Lemma seed_phase_titles_witness :
  seed_phase (listed_images page_ok) = inr ([rec_seeded], ["File:X.pdf"])
  /\ ["File:X.pdf"] = merge_keys [rec_seeded]
  /\ length ["File:X.pdf"] <= 100.
Proof.
  split; [reflexivity|].
  destruct (seed_phase_titles page_ok [rec_seeded] ["File:X.pdf"] eq_refl)
    as (_ & Hk & Hl & _).
  split; [exact Hk|exact Hl].
Defined.

Lemma reconcile_fields_witness :
  reconcile by_title_empty_user [rec_x] = ([rec_x_empty_user], None)
  /\ takes_truthy (JStr "https://imslp.org/images/x.pdf") (f_url rec_x)
       (f_url rec_x_empty_user)
  /\ takes_truthy (JStr EmptyString) (f_user rec_x) (f_user rec_x_empty_user).
Proof.
  split; [reflexivity|].
  pose proof (reconcile_fields by_title_empty_user [rec_x] [rec_x_empty_user] eq_refl) as H.
  apply Forall2_cons in H as [[H _] _].
  destruct (H "File:X.pdf" _ eq_refl eq_refl eq_refl)
    as (_ & _ & Hurl & _ & _ & Huser & _).
  split; [exact Hurl|exact Huser].
Defined.

(** One chunk, the network down: three GETs, and the seeded record in
    [files]. *)
Lemma files_after_transport_failure_witness :
  exists md evs,
    populate net_down page_ok
      (initial_metadata "Symphony No.5" "https://imslp.org/wiki/Symphony%20No.5"
         "2026-01-01T00:00:00" page_ok) world0
    = (inr md, mkWorld (next_call world0 + 3) (next_lookup world0) (trace world0 ++ evs))
    /\ gets_of evs = replicate 3 (imageinfo_request ["File:X.pdf"])
    /\ md_files md = [rec_seeded]
    /\ md_files_error md = None.
Proof.
  apply (files_after_transport_failure net_down page_ok _ _ _ world0 world0
           [rec_seeded] ["File:X.pdf"] [] ["File:X.pdf"] [] ∅).
  - reflexivity.
  - reflexivity.
  - reflexivity.
  - intros k _. eexists. reflexivity.
Defined.

(** * Further properties of the program *)

(** ** [get_with_retry] for any number of tries *)

Lemma sleeps_of_app (a b : list event) :
  sleeps_of (a ++ b) = (sleeps_of a ++ sleeps_of b)%list.
Proof. unfold sleeps_of. apply omap_app. Qed.

Lemma gets_of_app (a b : list event) :
  gets_of (a ++ b) = (gets_of a ++ gets_of b)%list.
Proof. unfold gets_of. apply omap_app. Qed.

Lemma reaches_refl (w : world) : reaches w w [] 0.
Proof. unfold reaches. rewrite app_nil_r. simpl. repeat split; lia. Qed.

Lemma reaches_trans (w w1 w2 : world) evs1 evs2 l1 l2 :
  reaches w w1 evs1 l1 -> reaches w1 w2 evs2 l2 ->
  reaches w w2 (evs1 ++ evs2)%list (l1 + l2).
Proof.
  intros (Ht1 & Hc1 & Hl1) (Ht2 & Hc2 & Hl2). unfold reaches.
  rewrite Ht2, Ht1, Hc2, Hc1, Hl2, Hl1, gets_of_app, length_app, app_assoc.
  repeat split; lia.
Qed.

Lemma reaches_requests_get net rq w :
  reaches w (snd (requests_get net rq w)) [EvGet rq] 0.
Proof. unfold reaches, requests_get. simpl. repeat split; lia. Qed.

Lemma backoff_delays_lookup (b : float) (n : nat) :
  forall d k, (k < n)%nat -> backoff_delays d b n !! k = Some (delay_after d b k).
Proof.
  induction n as [|n IH]; intros d k Hk; [lia|].
  destruct k as [|k]; [done|]. cbn [backoff_delays delay_after].
  apply IH. lia.
Qed.

Lemma backoff_delays_sleepable (d b : float) (n k : nat) :
  Forall sleepable (backoff_delays d b n) -> (k < n)%nat ->
  sleepable (delay_after d b k).
Proof.
  intros H Hk. rewrite Forall_lookup in H.
  exact (H k _ (backoff_delays_lookup b n d k Hk)).
Qed.

(** Every run of the loop of [get_with_retry]: some attempt [k < n] is
    the first to answer, or all [n] attempts fail, or [time.sleep] refuses
    the delay after a failed attempt. *)
Lemma retry_loop_cases net rq b n :
  forall d last w,
  (exists k r evs,
     (k < n)%nat
     /\ (forall i, (i < k)%nat -> exists e, net (next_call w + i)%nat rq = inl e)
     /\ net (next_call w + k)%nat rq = inr r
     /\ Forall sleepable (backoff_delays d b k)
     /\ fst (retry_loop net n rq b d last w) = inr r
     /\ reaches w (snd (retry_loop net n rq b d last w)) evs 0
     /\ gets_of evs = replicate (S k) rq
     /\ sleeps_of evs = map seconds (backoff_delays d b k))
  \/ ((forall i, (i < n)%nat -> exists e, net (next_call w + i)%nat rq = inl e)
      /\ Forall sleepable (backoff_delays d b n)
      /\ exists e evs,
           fst (retry_loop net n rq b d last w) = inl e
           /\ reaches w (snd (retry_loop net n rq b d last w)) evs 0
           /\ gets_of evs = replicate n rq
           /\ sleeps_of evs = map seconds (backoff_delays d b n)
           /\ (n = 0%nat -> e = default (Exn OtherError "request failed") last)
           /\ (forall n', n = S n' -> net (next_call w + n')%nat rq = inl e))
  \/ (exists k e evs,
        (k < n)%nat
        /\ (forall i, (i <= k)%nat -> exists e', net (next_call w + i)%nat rq = inl e')
        /\ Forall sleepable (backoff_delays d b k)
        /\ sleep_refusal (delay_after d b k) = Some e
        /\ fst (retry_loop net n rq b d last w) = inl e
        /\ reaches w (snd (retry_loop net n rq b d last w)) evs 0
        /\ gets_of evs = replicate (S k) rq
        /\ sleeps_of evs = map seconds (backoff_delays d b k)).
Proof.
  induction n as [|n IH]; intros d last w.
  - right; left. split; [intros i Hi; lia|]. split; [constructor|].
    exists (default (Exn OtherError "request failed") last), [].
    cbn [retry_loop]. unfold raise. cbn [fst snd].
    split; [done|]. split; [apply reaches_refl|]. repeat split; done.
  - rewrite retry_loop_step.
    destruct (net (next_call w) rq) as [e|r] eqn:Hnet.
    + destruct (sleep_refusal d) as [e'|] eqn:Hd.
      { right; right. exists 0%nat, e', [EvGet rq]. cbn [fst snd].
        split; [lia|]. split.
        { intros i Hi. assert (i = 0%nat) as -> by lia.
          exists e. by rewrite Nat.add_0_r. }
        split; [constructor|]. split; [exact Hd|]. split; [done|].
        split; [|done]. unfold reaches. cbn. repeat split; lia. }
      set (w1 := mkWorld (S (next_call w)) (next_lookup w)
                   ((trace w ++ [EvGet rq]) ++ [EvSleep (seconds d)])).
      assert (Hw1 : reaches w w1 [EvGet rq; EvSleep (seconds d)] 0).
      { subst w1. unfold reaches. cbn. rewrite <- app_assoc. repeat split; lia. }
      assert (Hshift : forall i, (next_call w1 + i = next_call w + S i)%nat)
        by (intros i; subst w1; simpl; lia).
      assert (Hfirst : forall (P : nat -> Prop),
                 P 0%nat -> (forall i, P (S i)) -> forall i, P i)
        by (intros P H0 HS [|i]; auto).
      destruct (IH (d * b)%float (Some e) w1)
        as [(k & r & evs & Hk & Hfail & Hok & Hsl & Hres & Hreach & Hg & Hs)
           |[(Hfail & Hsl & e' & evs & Hres & Hreach & Hg & Hs & H0 & Hlast)
            |(k & e' & evs & Hk & Hfail & Hsl & Href & Hres & Hreach & Hg & Hs)]].
      * left. exists (S k), r, (EvGet rq :: EvSleep (seconds d) :: evs).
        split; [lia|]. split.
        { intros i Hi. destruct i as [|i].
          - exists e. by rewrite Nat.add_0_r.
          - destruct (Hfail i ltac:(lia)) as [e2 He2]. exists e2.
            by rewrite <- Hshift. }
        split; [by rewrite <- Hshift|].
        split; [by constructor|]. split; [exact Hres|].
        split; [exact (reaches_trans _ _ _ _ _ _ _ Hw1 Hreach)|].
        split.
        { change (gets_of (EvGet rq :: EvSleep (seconds d) :: evs))
            with (rq :: gets_of evs).
          by rewrite Hg. }
        { change (sleeps_of (EvGet rq :: EvSleep (seconds d) :: evs))
            with (seconds d :: sleeps_of evs).
          by rewrite Hs. }
      * right; left. split.
        { intros i Hi. destruct i as [|i].
          - exists e. by rewrite Nat.add_0_r.
          - destruct (Hfail i ltac:(lia)) as [e2 He2]. exists e2.
            by rewrite <- Hshift. }
        split; [by constructor|].
        exists e', (EvGet rq :: EvSleep (seconds d) :: evs).
        split; [exact Hres|].
        split; [exact (reaches_trans _ _ _ _ _ _ _ Hw1 Hreach)|].
        split.
        { change (gets_of (EvGet rq :: EvSleep (seconds d) :: evs))
            with (rq :: gets_of evs).
          by rewrite Hg. }
        split.
        { change (sleeps_of (EvGet rq :: EvSleep (seconds d) :: evs))
            with (seconds d :: sleeps_of evs).
          by rewrite Hs. }
        split; [done|].
        intros n' [= <-]. destruct n as [|n''].
        { rewrite (H0 eq_refl). simpl. by rewrite Nat.add_0_r. }
        { rewrite <- Hshift. by apply Hlast. }
      * right; right. exists (S k), e', (EvGet rq :: EvSleep (seconds d) :: evs).
        split; [lia|]. split.
        { intros i Hi. destruct i as [|i].
          - exists e. by rewrite Nat.add_0_r.
          - destruct (Hfail i ltac:(lia)) as [e2 He2]. exists e2.
            by rewrite <- Hshift. }
        split; [by constructor|]. split; [exact Href|]. split; [exact Hres|].
        split; [exact (reaches_trans _ _ _ _ _ _ _ Hw1 Hreach)|].
        split.
        { change (gets_of (EvGet rq :: EvSleep (seconds d) :: evs))
            with (rq :: gets_of evs).
          by rewrite Hg. }
        { change (sleeps_of (EvGet rq :: EvSleep (seconds d) :: evs))
            with (seconds d :: sleeps_of evs).
          by rewrite Hs. }
    + left. exists 0%nat, r, [EvGet rq]. cbn [fst snd].
      split; [lia|]. split; [intros i Hi; lia|].
      split; [by rewrite Nat.add_0_r|]. split; [constructor|]. split; [done|].
      split; [|done]. unfold reaches. cbn. repeat split; lia.
Qed.

Lemma attempts_pos (tries : Z) : (1 <= attempts tries)%nat.
Proof. unfold attempts. lia. Qed.

(** X1.  [get_with_retry] stops at the first GET that is answered, whatever
    is left of its budget: when the first [N] GETs fail, [time.sleep]
    takes the delays after them, and GET [N + 1] answers, with [N + 1]
    within [max(1, tries)], that answer is returned (whatever its HTTP
    status) after [N + 1] GETs and [N] sleeps. *)
Theorem get_with_retry_first_answer
    (net : Transport) (url : string) (params : list (string * string))
    (timeout tries : Z) (b : float) (N : nat) (w : world) (resp : Response) :
  (N < attempts tries)%nat ->
  (forall i, (i < N)%nat ->
     exists e, net (next_call w + i)%nat (mkRequest url params HEADERS timeout) = inl e) ->
  net (next_call w + N)%nat (mkRequest url params HEADERS timeout) = inr resp ->
  Forall sleepable (backoff_delays 1 b N) ->
  exists evs,
    fst (get_with_retry net url params timeout tries b w) = inr resp
    /\ reaches w (snd (get_with_retry net url params timeout tries b w)) evs 0
    /\ gets_of evs = replicate (S N) (mkRequest url params HEADERS timeout)
    /\ sleeps_of evs = map seconds (backoff_delays 1 b N).
Proof.
  intros HN Hfail Hok Hsl. unfold get_with_retry. fold (attempts tries).
  destruct (retry_loop_cases net (mkRequest url params HEADERS timeout) b
              (attempts tries) 1%float None w)
    as [(k & r & evs & Hk & Hfail' & Hok' & _ & Hres & Hreach & Hg & Hs)
       |[(Hall & _)
        |(k & e & evs & Hk & Hfail' & _ & Href & _)]].
  - assert (k = N) as ->.
    { destruct (Nat.lt_trichotomy k N) as [Hlt|[Heq|Hgt]]; [|done|].
      - destruct (Hfail k Hlt) as [e He]. congruence.
      - destruct (Hfail' N Hgt) as [e He]. congruence. }
    exists evs. rewrite Hres.
    split; [congruence|]. split; [exact Hreach|]. by split.
  - destruct (Hall N HN) as [e He]. congruence.
  - destruct (Nat.lt_ge_cases k N) as [Hlt|Hge].
    + pose proof (backoff_delays_sleepable _ _ _ _ Hsl Hlt) as Hk'.
      unfold sleepable in Hk'. congruence.
    + destruct (Hfail' N Hge) as [e' He']. congruence.
Qed.

(** X2.  When all [max(1, tries)] GETs fail and [time.sleep] takes the
    delays, [get_with_retry] raises the exception of the LAST GET, and it
    has slept after every failure, the last one included: as many sleeps
    as GETs. *)
Theorem get_with_retry_gives_up
    (net : Transport) (url : string) (params : list (string * string))
    (timeout tries : Z) (b : float) (w : world) :
  (forall i, (i < attempts tries)%nat ->
     exists e, net (next_call w + i)%nat (mkRequest url params HEADERS timeout) = inl e) ->
  Forall sleepable (backoff_delays 1 b (attempts tries)) ->
  exists e evs,
    fst (get_with_retry net url params timeout tries b w) = inl e
    /\ net (next_call w + (attempts tries - 1))%nat
         (mkRequest url params HEADERS timeout) = inl e
    /\ reaches w (snd (get_with_retry net url params timeout tries b w)) evs 0
    /\ gets_of evs = replicate (attempts tries) (mkRequest url params HEADERS timeout)
    /\ sleeps_of evs = map seconds (backoff_delays 1 b (attempts tries)).
Proof.
  intros Hfail Hsl. unfold get_with_retry. fold (attempts tries).
  pose proof (attempts_pos tries) as Hpos.
  destruct (retry_loop_cases net (mkRequest url params HEADERS timeout) b
              (attempts tries) 1%float None w)
    as [(k & r & evs & Hk & _ & Hok' & _)
       |[(_ & _ & e & evs & Hres & Hreach & Hg & Hs & _ & Hlast)
        |(k & e & evs & Hk & _ & _ & Href & _)]].
  - destruct (Hfail k Hk) as [e He]. congruence.
  - exists e, evs. split; [done|]. split.
    { destruct (attempts tries) as [|n'] eqn:Hn; [lia|].
      replace (S n' - 1)%nat with n' by lia. by apply Hlast. }
    split; [exact Hreach|]. by split.
  - pose proof (backoff_delays_sleepable _ _ _ _ Hsl Hk) as Hk'.
    unfold sleepable in Hk'. congruence.
Qed.

(** X3.  Every call of [get_with_retry] issues between 1 and
    [max(1, tries)] GETs, all with the same request.  What it returns is
    the answer of its last GET.  What it raises is the exception of its
    last GET, after using all its attempts and sleeping after each, or
    the exception with which [time.sleep] refuses the delay after a
    failed GET (a negative multiplier, a delay grown too large): the
    fallback [Exception('request failed')] is never raised. *)
Theorem get_with_retry_outcome
    (net : Transport) (url : string) (params : list (string * string))
    (timeout tries : Z) (b : float) (w : world) :
  exists evs g,
    reaches w (snd (get_with_retry net url params timeout tries b w)) evs 0
    /\ gets_of evs = replicate g (mkRequest url params HEADERS timeout)
    /\ (1 <= g <= attempts tries)%nat
    /\ match fst (get_with_retry net url params timeout tries b w) with
       | inr r =>
           net (next_call w + (g - 1))%nat (mkRequest url params HEADERS timeout) = inr r
           /\ sleeps_of evs = map seconds (backoff_delays 1 b (g - 1))
       | inl e =>
           (net (next_call w + (g - 1))%nat (mkRequest url params HEADERS timeout) = inl e
            /\ g = attempts tries
            /\ sleeps_of evs = map seconds (backoff_delays 1 b g))
           \/ ((exists e', net (next_call w + (g - 1))%nat
                             (mkRequest url params HEADERS timeout) = inl e')
               /\ sleep_refusal (delay_after 1 b (g - 1)) = Some e
               /\ sleeps_of evs = map seconds (backoff_delays 1 b (g - 1)))
       end.
Proof.
  unfold get_with_retry. fold (attempts tries).
  pose proof (attempts_pos tries) as Hpos.
  destruct (retry_loop_cases net (mkRequest url params HEADERS timeout) b
              (attempts tries) 1%float None w)
    as [(k & r & evs & Hk & _ & Hok & _ & Hres & Hreach & Hg & Hs)
       |[(_ & _ & e & evs & Hres & Hreach & Hg & Hs & _ & Hlast)
        |(k & e & evs & Hk & Hfail & _ & Href & Hres & Hreach & Hg & Hs)]].
  - exists evs, (S k). rewrite Hres.
    replace (S k - 1)%nat with k by lia.
    split; [exact Hreach|]. split; [done|]. split; [lia|]. by split.
  - exists evs, (attempts tries). rewrite Hres.
    split; [exact Hreach|]. split; [done|]. split; [lia|]. left.
    split; [|by split].
    destruct (attempts tries) as [|n'] eqn:Hn; [lia|].
    replace (S n' - 1)%nat with n' by lia. by apply Hlast.
  - exists evs, (S k). rewrite Hres.
    replace (S k - 1)%nat with k by lia.
    split; [exact Hreach|]. split; [done|]. split; [lia|]. right.
    split; [apply Hfail; lia|]. by split.
Qed.

(** ** What a run costs: GETs, page lookups, seconds of sleep *)

Lemma total_sleep_app (a b : list Q) :
  (total_sleep (a ++ b) == total_sleep a + total_sleep b)%Q.
Proof.
  induction a as [|d a IH]; cbn [app total_sleep]; [lra|]. rewrite IH. lra.
Qed.

Lemma within_weaken {A} (m : M A) g l t g' l' t' :
  within m g l t -> (g <= g')%nat -> (l <= l')%nat -> (t <= t')%Q ->
  within m g' l' t'.
Proof.
  intros H Hg Hl Ht w. destruct (H w) as (evs & k & Hr & H1 & H2 & H3).
  exists evs, k. repeat split; try apply Hr; try lia. lra.
Qed.

Lemma within_ret {A} (a : A) : within (ret a) 0 0 0.
Proof.
  intros w. exists [], 0%nat. split; [apply reaches_refl|]. cbn. repeat split; try lia. lra.
Qed.

Lemma within_raise {A} (e : exn) : within (@raise A e) 0 0 0.
Proof.
  intros w. exists [], 0%nat. split; [apply reaches_refl|]. cbn. repeat split; try lia. lra.
Qed.

Lemma within_lift {A} (r : result A) : within (lift r) 0 0 0.
Proof.
  intros w. exists [], 0%nat. split; [apply reaches_refl|]. cbn. repeat split; try lia. lra.
Qed.

Lemma within_bind {A B} (m : M A) (k : A -> M B) g1 l1 t1 g2 l2 t2 :
  within m g1 l1 t1 -> (forall a, within (k a) g2 l2 t2) -> (0 <= t2)%Q ->
  within (bind m k) (g1 + g2) (l1 + l2) (t1 + t2).
Proof.
  intros Hm Hk Ht w. destruct (Hm w) as (evs1 & k1 & Hr1 & Hg1 & Hl1 & Hs1).
  unfold bind. destruct (m w) as [[e|a] w1]; cbn [snd] in *.
  - exists evs1, k1. repeat split; try apply Hr1; try lia. lra.
  - destruct (Hk a w1) as (evs2 & k2 & Hr2 & Hg2 & Hl2 & Hs2).
    exists (evs1 ++ evs2)%list, (k1 + k2)%nat.
    split; [exact (reaches_trans _ _ _ _ _ _ _ Hr1 Hr2)|].
    rewrite gets_of_app, sleeps_of_app, length_app, total_sleep_app.
    repeat split; try lia. lra.
Qed.

Lemma within_try_except {A} (m : M A) (h : exn -> M A) g1 l1 t1 g2 l2 t2 :
  within m g1 l1 t1 -> (forall e, within (h e) g2 l2 t2) -> (0 <= t2)%Q ->
  within (try_except m h) (g1 + g2) (l1 + l2) (t1 + t2).
Proof.
  intros Hm Hh Ht w. destruct (Hm w) as (evs1 & k1 & Hr1 & Hg1 & Hl1 & Hs1).
  unfold try_except. destruct (m w) as [[e|a] w1]; cbn [snd] in *.
  - destruct (Hh e w1) as (evs2 & k2 & Hr2 & Hg2 & Hl2 & Hs2).
    exists (evs1 ++ evs2)%list, (k1 + k2)%nat.
    split; [exact (reaches_trans _ _ _ _ _ _ _ Hr1 Hr2)|].
    rewrite gets_of_app, sleeps_of_app, length_app, total_sleep_app.
    repeat split; try lia. lra.
  - exists evs1, k1. repeat split; try apply Hr1; try lia. lra.
Qed.

Lemma within_requests_get net rq : within (requests_get net rq) 1 0 0.
Proof.
  intros w. exists [EvGet rq], 0%nat.
  split; [apply reaches_requests_get|]. cbn. repeat split; try lia. lra.
Qed.

Lemma within_lookup_page site title : within (lookup_page site title) 0 1 0.
Proof.
  intros w. exists [], 1%nat. unfold reaches, lookup_page. cbn.
  rewrite app_nil_r. repeat split; try lia. lra.
Qed.

(** The delays of three attempts with the backoff of the call sites add
    up to 4.75 seconds at most. *)
Lemma backoff_delays_total (k : nat) :
  (k <= 3)%nat ->
  Forall sleepable (backoff_delays 1 1.5 k)
  /\ (total_sleep (map seconds (backoff_delays 1 1.5 k)) <= 19 # 4)%Q.
Proof.
  intros Hk. destruct k as [|[|[|[|k]]]]; [| | | |lia];
    (split; [repeat (constructor; [reflexivity|]); constructor
            |apply Qle_bool_imp_le; vm_compute; reflexivity]).
Qed.

Lemma within_get_with_retry3 net url params timeout :
  within (get_with_retry net url params timeout 3 1.5%float) 3 0 (19 # 4).
Proof.
  intros w. unfold get_with_retry.
  change (Z.to_nat (Z.max 1 3)) with 3%nat.
  destruct (retry_loop_cases net (mkRequest url params HEADERS timeout) 1.5%float
              3 1%float None w)
    as [(k & r & evs & Hk & _ & _ & _ & _ & Hreach & Hg & Hs)
       |[(_ & _ & e & evs & _ & Hreach & Hg & Hs & _)
        |(k & e & evs & Hk & _ & _ & _ & _ & Hreach & Hg & Hs)]].
  - exists evs, 0%nat. split; [exact Hreach|].
    rewrite Hg, Hs, length_replicate. split; [lia|]. split; [lia|].
    apply backoff_delays_total. lia.
  - exists evs, 0%nat. split; [exact Hreach|].
    rewrite Hg, Hs, length_replicate. split; [lia|]. split; [lia|].
    by apply backoff_delays_total.
  - exists evs, 0%nat. split; [exact Hreach|].
    rewrite Hg, Hs, length_replicate. split; [lia|]. split; [lia|].
    apply backoff_delays_total. lia.
Qed.

(** ** [extract_title]: totality, use of the network, round trip *)

Lemma api_lookup_returns net target w :
  exists o, fst (api_lookup net target w) = inr o.
Proof.
  unfold api_lookup, try_except, bind, lift, ret.
  destruct (get_with_retry net API_URL (pageinfo_params target) 15 3 1.5%float w)
    as [[e|r] w1]; [by eexists|].
  destruct (title_of_pageinfo r); by eexists.
Qed.

Lemma html_lookup_returns net target w :
  exists o, fst (html_lookup net target w) = inr o.
Proof.
  unfold html_lookup, try_except, bind, ret.
  destruct (requests_get net _ w) as [[e|r] w1]; by eexists.
Qed.

Lemma within_api_lookup net target : within (api_lookup net target) 3 0 (19 # 4).
Proof.
  unfold api_lookup.
  eapply within_weaken;
    [apply (within_try_except _ _ 3 0 (19 # 4) 0 0 0)| | |]; try lia; try lra.
  - eapply within_weaken;
      [apply (within_bind _ _ 3 0 (19 # 4) 0 0 0)| | |]; try lia; try lra.
    + apply within_get_with_retry3.
    + intros r. apply within_lift.
  - intros e. apply within_ret.
Qed.

Lemma within_html_lookup net target : within (html_lookup net target) 1 0 0.
Proof.
  unfold html_lookup.
  eapply within_weaken;
    [apply (within_try_except _ _ 1 0 0 0 0 0)| | |]; try lia; try lra.
  - eapply within_weaken;
      [apply (within_bind _ _ 1 0 0 0 0 0)| | |]; try lia; try lra.
    + apply within_requests_get.
    + intros r. apply within_ret.
  - intros e. apply within_ret.
Qed.

Lemma permalink_split (target : string) :
  is_permalink target = true -> exists rest, split_after "/wiki/" target = Some rest.
Proof.
  intros H. destruct (is_permalink_shape target H) as [rest [-> | ->]];
    by exists rest.
Qed.

Lemma extract_title_returns net target w :
  exists t, fst (extract_title net target w) = inr t.
Proof.
  unfold extract_title. destruct (is_permalink target) eqn:Hp.
  - destruct (permalink_split target Hp) as [rest ->]. by eexists.
  - destruct (isdigit target); [|by eexists].
    unfold bind.
    destruct (api_lookup_returns net target w) as [o Ho].
    destruct (api_lookup net target w) as [ra w1]. cbn [fst] in Ho. subst ra.
    destruct o as [t|]; [by eexists|].
    destruct (html_lookup_returns net target w1) as [o Ho].
    destruct (html_lookup net target w1) as [rb w2]. cbn [fst] in Ho. subst rb.
    destruct o as [t|]; by eexists.
Qed.

Lemma within_extract_title net target : within (extract_title net target) 4 0 (19 # 4).
Proof.
  unfold extract_title. destruct (is_permalink target).
  - destruct (split_after "/wiki/" target);
      (eapply within_weaken; [apply within_ret || apply within_raise| | |]);
      try lia; lra.
  - destruct (isdigit target).
    + eapply within_weaken;
        [apply (within_bind _ _ 3 0 (19 # 4) 1 0 0)| | |]; try lia; try lra.
      * apply within_api_lookup.
      * intros [t|].
        { eapply within_weaken; [apply within_ret| | |]; try lia; lra. }
        eapply within_weaken;
          [apply (within_bind _ _ 1 0 0 0 0 0)| | |]; try lia; try lra.
        { apply within_html_lookup. }
        { intros [t|]; apply within_ret. }
    + eapply within_weaken; [apply within_ret| | |]; try lia; lra.
Qed.

(** X4.  [extract_title] never raises, whatever the network does; it
    issues at most 4 GETs (three tries of the API query and one fetch of
    the HTML page) and sleeps at most 4.75 seconds; and for a target that
    is not a digit string, because it is empty or has an ASCII character
    that is not a digit, it does not touch the network at all. *)
Theorem extract_title_total (net : Transport) (target : string) :
  (forall w, exists t, fst (extract_title net target w) = inr t)
  /\ within (extract_title net target) 4 0 (19 # 4)
  /\ (isdigit_decided target = true -> isdigit target = false ->
      forall w, snd (extract_title net target w) = w).
Proof.
  split; [intros w; apply extract_title_returns|].
  split; [apply within_extract_title|].
  intros _ Hd w. unfold extract_title. rewrite Hd.
  destruct (is_permalink target) eqn:Hp; [|done].
  by destruct (permalink_split target Hp) as [rest ->].
Qed.

Lemma replace_underscores (s : string) :
  no_underscore (str_replace "_" " " s) = true.
Proof.
  unfold str_replace, no_underscore.
  induction s as [|c s IH]; [done|].
  cbn [replace_from has_prefix String.length Nat.sub].
  destruct (Ascii.eqb "_" c) eqn:Hc; cbn [andb].
  - exact IH.
  - cbn [all_chars]. rewrite IH, Ascii.eqb_sym, Hc. done.
Qed.

(** X5.  For a target made of digits, when the API gives no title and the
    HTML page of the identifier is fetched with status OK and carries the
    canonical link, [extract_title] returns the unquoted path of that link
    with the underscores turned into spaces: the title has no underscore. *)
Theorem extract_title_html_title
    (net : Transport) (target : string) (w w1 : world) (r2 : Response) (g : string) :
  isdigit target = true ->
  api_lookup net target w = (inr None, w1) ->
  net (next_call w1) (mkRequest INDEX_URL [("curid", target)] [] 15) = inr r2 ->
  ok r2 = true ->
  canonical_search (text r2) = Some g ->
  exists w2,
    extract_title net target w = (inr (str_replace "_" " " (unquote g)), w2)
    /\ reaches w1 w2 [EvGet (mkRequest INDEX_URL [("curid", target)] [] 15)] 0
    /\ no_underscore (str_replace "_" " " (unquote g)) = true.
Proof.
  intros Hd Hapi Hnet Hok Hg.
  eexists. split; [|split; [|apply replace_underscores]].
  - unfold extract_title. rewrite (isdigit_not_permalink _ Hd), Hd.
    unfold bind at 1. rewrite Hapi.
    unfold bind at 1. unfold html_lookup, try_except, bind, requests_get, ret.
    rewrite Hnet. unfold title_of_html. rewrite Hok, Hg. reflexivity.
  - unfold reaches. cbn. repeat split; lia.
Qed.

(** X6.  Decoding undoes encoding: when [quote(s)] returns, [unquote]
    gives [s] back from it; and [quote(s)] raises, a [UnicodeEncodeError],
    exactly when [s] is not well-formed UTF-8, that is, holds a lone
    surrogate. *)
Theorem unquote_quote (s : string) :
  match quote s with
  | inr q => valid_utf8 s = true /\ unquote q = s
  | inl e => valid_utf8 s = false /\ exn_class_of e = UnicodeEncodeError
  end.
Proof.
  destruct (quote s) as [e|q] eqn:Hq.
  - unfold quote in Hq. destruct (valid_utf8 s); [done|]. by simplify_eq.
  - split; [by apply quote_inr in Hq as [? _]|by apply unquote_after_quote].
Qed.

Lemma hex_digit_url_char (c : ascii) :
  is_url_char (hex_digit (nat_of_ascii c / 16)) = true
  /\ is_url_char (hex_digit (nat_of_ascii c mod 16)) = true.
Proof. destruct c as [[] [] [] [] [] [] [] []]; vm_compute; done. Qed.

Lemma quote_from_bytes_url_chars (s : string) :
  all_chars is_url_char (quote_from_bytes s) = true.
Proof.
  induction s as [|c s IH]; [done|]. cbn [quote_from_bytes].
  destruct (is_always_safe c || Ascii.eqb c "/") eqn:Hsafe; cbn [all_chars].
  - unfold is_url_char at 1. by rewrite Hsafe, IH.
  - destruct (hex_digit_url_char c) as [Hh Hl]. by rewrite Hh, Hl, IH.
Qed.

(** X7.  [quote] produces only unreserved characters, slashes and percent
    escapes: letters, digits, [_ . - ~ / %]; so no space, quote, or byte
    above 127 reaches the [url] of the document. *)
Theorem quote_url_chars (s : string) :
  all_chars is_url_char (quote_from_bytes s) = true
  /\ (forall q, quote s = inr q -> all_chars is_url_char q = true).
Proof.
  split; [apply quote_from_bytes_url_chars|].
  intros q Hq. apply quote_inr in Hq as [_ ->]. apply quote_from_bytes_url_chars.
Qed.

(** X8.  A target that is not a permalink, is not a digit string (it is
    empty or has an ASCII character that is not a digit) and has no
    percent sign is its own title: [extract_title] returns it unchanged
    and leaves the world as it is. *)
Theorem extract_title_plain_slug (net : Transport) (target : string) (w : world) :
  is_permalink target = false ->
  isdigit_decided target = true ->
  isdigit target = false ->
  no_percent target = true ->
  extract_title net target w = (inr target, w).
Proof.
  intros Hp _ Hd Hn. unfold extract_title. rewrite Hp, Hd.
  by rewrite (unquote_no_percent _ Hn).
Qed.

Lemma extract_title_quoted (net : Transport) (title quoted : string) (w : world) :
  quote title = inr quoted ->
  extract_title net ("https://imslp.org/wiki/" ++ quoted) w = (inr title, w).
Proof.
  intros Hq. unfold extract_title.
  change (is_permalink ("https://imslp.org/wiki/" ++ quoted)) with true.
  change (split_after "/wiki/" ("https://imslp.org/wiki/" ++ quoted))
    with (Some quoted).
  cbv iota. by rewrite (unquote_after_quote _ _ Hq).
Qed.

(** X9.  The [url] that [main] puts in the document for a title resolves
    back to that title: [extract_title] on
    [https://imslp.org/wiki/ + quote(title)] returns [title] and uses no
    network. *)
Theorem extract_title_of_document_url
    (net : Transport) (title quoted : string) (w : world) :
  quote title = inr quoted ->
  extract_title net ("https://imslp.org/wiki/" ++ quoted) w = (inr title, w).
Proof. apply extract_title_quoted. Qed.

(** ** The existence poll *)

(** The two seconds between fetches are a delay [time.sleep] takes. *)
Lemma sleep_two (w : world) :
  sleep 2%float w
  = (inr tt, mkWorld (next_call w) (next_lookup w) (trace w ++ [EvSleep 2])).
Proof. reflexivity. Qed.

Lemma poll_exists_run (site : Site) (n : nat) (title : string) :
  forall (page : Page) (w : world),
  exists k,
    (k <= n)%nat
    /\ poll_exists site n title page w
       = (polled site title page w k,
          mkWorld (next_call w) (next_lookup w + k)
            (trace w ++ replicate k (EvSleep 2)))
    /\ (forall i, (i < k)%nat ->
          exists p, polled site title page w i = inr p /\ page_exists p = false)
    /\ (k = n \/ match polled site title page w k with
                 | inr p => page_exists p = true
                 | inl _ => True
                 end).
Proof.
  induction n as [|n IH]; intros page w.
  - exists 0%nat. cbn [poll_exists polled replicate]. unfold ret.
    rewrite app_nil_r, Nat.add_0_r. split; [lia|]. split; [by destruct w|].
    split; [intros i Hi; lia|by left].
  - cbn [poll_exists]. destruct (page_exists page) eqn:Hex.
    + exists 0%nat. cbn [polled replicate]. unfold ret.
      rewrite app_nil_r, Nat.add_0_r. split; [lia|]. split; [by destruct w|].
      split; [intros i Hi; lia|by right].
    + unfold bind. rewrite sleep_two. unfold lookup_page.
      cbn [next_call next_lookup trace].
      destruct (site (next_lookup w) title) as [e|page'] eqn:Hsite.
      * exists 1%nat. cbn [polled replicate]. rewrite Nat.add_0_r, Hsite.
        split; [lia|]. split; [do 2 f_equal; lia|].
        split; [|by right].
        intros [|i] Hi; [|lia]. by exists page.
      * set (w1 := mkWorld (next_call w) (S (next_lookup w)) (trace w ++ [EvSleep 2])).
        destruct (IH page' w1) as (k & Hk & Hrun & Hnot & Hlast).
        exists (S k). split; [lia|]. rewrite Hrun.
        assert (Hp : forall i, polled site title page' w1 i
                               = polled site title page w (S i)).
        { intros [|i]; cbn [polled]; [by rewrite Nat.add_0_r, Hsite|].
          subst w1. cbn [next_lookup]. f_equal. lia. }
        split.
        { rewrite Hp. subst w1. cbn [next_call next_lookup trace replicate].
          do 2 f_equal; [lia|]. by rewrite <- app_assoc. }
        split.
        { intros [|i] Hi; [by exists page|]. rewrite <- Hp. apply Hnot. lia. }
        { rewrite <- Hp. destruct Hlast as [->|?]; [by left|by right]. }
Qed.

(** X10.  The existence poll re-fetches the page at most [n] times (3 in
    [main]), sleeping 2 seconds before each re-fetch and nothing else.
    Every page fetched before the last one was found not to exist; the
    poll ends with the last fetch, which is an exception of the lookup, a
    page that exists, or the [n]-th re-fetch whatever it gave. *)
Theorem poll_exists_spec (site : Site) (n : nat) (title : string) :
  forall (page : Page) (w : world),
  exists k,
    (k <= n)%nat
    /\ poll_exists site n title page w
       = (polled site title page w k,
          mkWorld (next_call w) (next_lookup w + k)
            (trace w ++ replicate k (EvSleep 2)))
    /\ (forall i, (i < k)%nat ->
          exists p, polled site title page w i = inr p /\ page_exists p = false)
    /\ (k = n \/ match polled site title page w k with
                 | inr p => page_exists p = true
                 | inl _ => True
                 end).
Proof. apply poll_exists_run. Qed.

(** ** Chunks of merge keys *)

Lemma chunk_count_cases (m : nat) :
  (m <= 100)%nat ->
  ((m + 49) / 50 = 0 /\ m = 0)%nat
  \/ ((m + 49) / 50 = 1 /\ 1 <= m <= 50)%nat
  \/ ((m + 49) / 50 = 2 /\ 51 <= m <= 100)%nat.
Proof.
  intros Hm.
  pose proof (Nat.div_mod_eq (m + 49) 50) as Hdm.
  pose proof (Nat.mod_upper_bound (m + 49) 50 ltac:(lia)) as Hub.
  set (k := ((m + 49) / 50)%nat) in *. set (r := ((m + 49) mod 50)%nat) in *.
  lia.
Qed.

Lemma chunks_cases (titles : list string) :
  (titles = [] /\ chunks titles = [])
  \/ ((1 <= length titles <= 50)%nat /\ chunks titles = [titles])
  \/ ((51 <= length titles)%nat
      /\ chunks titles = [take 50 titles; take 50 (drop 50 titles)]).
Proof.
  unfold chunks, chunk_starts.
  pose proof (Nat.le_min_r (length titles) 100) as Hle.
  pose proof (Nat.min_spec (length titles) 100) as Hmin.
  set (m := Nat.min (length titles) 100) in *.
  destruct (chunk_count_cases m Hle)
    as [[-> Hm]|[[-> Hm]|[-> Hm]]]; cbn [seq map Nat.mul Nat.add drop].
  - left. split; [|done]. destruct titles; [done|cbn [length] in Hmin; lia].
  - right; left. split; [lia|]. rewrite drop_0. by rewrite take_ge by lia.
  - right; right. split; [lia|]. by rewrite drop_0.
Qed.

(** X11.  The chunks queried are the first 100 merge keys cut into
    consecutive pieces: at most two chunks, none empty, none longer than
    50, and put end to end they are exactly the first 100 keys; the keys
    after the 100th are never queried. *)
Theorem chunks_partition (titles : list string) :
  concat (chunks titles) = take 100 titles
  /\ (length (chunks titles) <= 2)%nat
  /\ Forall (fun c => (1 <= length c <= 50)%nat) (chunks titles).
Proof.
  destruct (chunks_cases titles) as [[-> ->]|[[Hl ->]|[Hl ->]]].
  - split; [done|]. split; [simpl; lia|constructor].
  - cbn [concat]. rewrite app_nil_r, take_ge by lia.
    split; [done|]. split; [simpl; lia|]. constructor; [exact Hl|constructor].
  - cbn [concat]. rewrite app_nil_r, take_take_drop.
    split; [done|]. split; [simpl; lia|].
    constructor; [rewrite length_take; lia|].
    constructor; [rewrite length_take, length_drop; lia|constructor].
Qed.

(** ** The whole run: [populate] and [main] *)

Lemma times_nonneg (n : nat) (q : Q) : (0 <= q)%Q -> (0 <= times n q)%Q.
Proof. intros Hq. induction n as [|n IH]; cbn [times]; lra. Qed.

Lemma times_mono (n m : nat) (q : Q) :
  (0 <= q)%Q -> (n <= m)%nat -> (times n q <= times m q)%Q.
Proof.
  intros Hq Hnm. induction Hnm as [|m Hnm IH]; [lra|]. cbn [times]. lra.
Qed.

Lemma within_enrich_loop net (cs : list (list string)) :
  forall by_title,
  within (enrich_loop net cs by_title) (3 * length cs) 0 (times (length cs) (19 # 4)).
Proof.
  induction cs as [|c cs IH]; intros by_title; cbn [enrich_loop length times].
  - apply within_ret.
  - pose proof (times_nonneg (length cs) (19 # 4) ltac:(lra)) as Hpos.
    eapply within_weaken;
      [apply (within_bind _ _ 3 0 (19 # 4) (3 * length cs) 0 (times (length cs) (19 # 4)))
      | | |]; try lia; try lra.
    + apply within_get_with_retry3.
    + intros r.
      eapply within_weaken;
        [apply (within_bind _ _ 0 0 0 (3 * length cs) 0 (times (length cs) (19 # 4)))
        | | |]; try lia; try lra.
      * apply within_lift.
      * intros bt. apply IH.
Qed.

Lemma chunks_length (titles : list string) : (length (chunks titles) <= 2)%nat.
Proof.
  destruct (chunks_cases titles) as [[_ ->]|[[_ ->]|[_ ->]]]; simpl; lia.
Qed.

Lemma within_enrich_and_merge net (fs : list FileRecord) (titles : list string) :
  within (enrich_and_merge net fs titles) 6 0 (19 # 2).
Proof.
  unfold enrich_and_merge. destruct titles as [|t ts].
  { eapply within_weaken; [apply within_ret| | |]; try lia; lra. }
  pose proof (chunks_length (t :: ts)) as Hlen.
  pose proof (times_mono _ 2 (19 # 4) ltac:(lra) Hlen) as Ht. cbn [times] in Ht.
  pose proof (times_nonneg (length (chunks (t :: ts))) (19 # 4) ltac:(lra)) as Hpos.
  eapply within_weaken;
    [apply (within_try_except _ _ (3 * length (chunks (t :: ts))) 0
              (times (length (chunks (t :: ts))) (19 # 4)) 0 0 0)| | |];
    try lia; try lra.
  - eapply within_weaken;
      [apply (within_bind _ _ (3 * length (chunks (t :: ts))) 0
                (times (length (chunks (t :: ts))) (19 # 4)) 0 0 0)| | |];
      try lia; try lra.
    + apply within_enrich_loop.
    + intros bt. apply within_ret.
  - intros e. apply within_ret.
Qed.

Lemma within_files_body net page : within (files_body net page) 6 0 (19 # 2).
Proof.
  unfold files_body.
  eapply within_weaken;
    [apply (within_bind _ _ 0 0 0 6 0 (19 # 2))| | |]; try lia; try lra.
  - apply within_lift.
  - intros st. apply within_enrich_and_merge.
Qed.

Lemma within_populate net page md : within (populate net page md) 6 0 (19 # 2).
Proof.
  unfold populate.
  eapply within_weaken;
    [apply (within_bind _ _ 6 0 (19 # 2) 0 0 0)| | |]; try lia; try lra.
  - eapply within_weaken;
      [apply (within_try_except _ _ 6 0 (19 # 2) 0 0 0)| | |]; try lia; try lra.
    + eapply within_weaken;
        [apply (within_bind _ _ 6 0 (19 # 2) 0 0 0)| | |]; try lia; try lra.
      * apply within_files_body.
      * intros fs. apply within_ret.
    + intros e. apply within_ret.
  - intros md3. apply within_ret.
Qed.

Lemma within_poll_exists site n title page :
  within (poll_exists site n title page) 0 n (times n 2).
Proof.
  intros w. destruct (poll_exists_run site n title page w) as (k & Hk & Hrun & _).
  exists (replicate k (EvSleep 2)), k. rewrite Hrun. cbn [snd].
  assert (Hg : gets_of (replicate k (EvSleep 2)) = [])
    by (clear; induction k; [done|exact IHk]).
  assert (Hs : sleeps_of (replicate k (EvSleep 2)) = replicate k 2%Q)
    by (clear; induction k as [|k IH]; [done|];
        change (sleeps_of (replicate (S k) (EvSleep 2)))
          with (2%Q :: sleeps_of (replicate k (EvSleep 2))); by rewrite IH).
  split; [unfold reaches; cbn; rewrite Hg; cbn; repeat split; lia|].
  rewrite Hg, Hs. split; [simpl; lia|]. split; [lia|].
  assert (Hsum : (total_sleep (replicate k 2%Q) == times k 2)%Q)
    by (clear; induction k as [|k IH]; cbn [replicate total_sleep times]; [lra|];
        rewrite IH; lra).
  rewrite Hsum. apply times_mono; [lra|lia].
Qed.

Lemma within_main net client argv now : within (main net client argv now) 10 4 (81 # 4).
Proof.
  unfold main. destruct argv as [|prog [|target rest]];
    try (eapply within_weaken; [apply within_ret| | |]; try lia; lra).
  eapply within_weaken;
    [apply (within_bind _ _ 4 0 (19 # 4) 6 4 (31 # 2))| | |]; try lia; try lra.
  - apply within_extract_title.
  - intros title.
    eapply within_weaken;
      [apply (within_bind _ _ 0 0 0 6 4 (31 # 2))| | |]; try lia; try lra.
    + apply within_lift.
    + intros site.
      eapply within_weaken;
        [apply (within_bind _ _ 0 1 0 6 3 (31 # 2))| | |]; try lia; try lra.
      * apply within_lookup_page.
      * intros page0.
        eapply within_weaken;
          [apply (within_bind _ _ 0 3 (times 3 2) 6 0 (19 # 2))| | |];
          try lia; try (cbn [times]; lra).
        { apply within_poll_exists. }
        intros page.
        eapply within_weaken;
          [apply (within_bind _ _ 0 0 0 6 0 (19 # 2))| | |]; try lia; try lra.
        { apply within_lift. }
        intros quoted.
        eapply within_weaken;
          [apply (within_bind _ _ 6 0 (19 # 2) 0 0 0)| | |]; try lia; try lra.
        { apply within_populate. }
        { intros md. apply within_ret. }
Qed.

Lemma fold_append_revision_header (revs : list (list (string * json))) :
  forall md,
  let md' := fold_left append_revision revs md in
  md_page_title md' = md_page_title md
  /\ md_url md' = md_url md
  /\ md_timestamp md' = md_timestamp md
  /\ md_exists md' = md_exists md.
Proof.
  induction revs as [|rev revs IH]; intros md; cbn [fold_left]; [done|].
  destruct (IH (append_revision md rev)) as (H1 & H2 & H3 & H4).
  cbv zeta. by rewrite H1, H2, H3, H4.
Qed.

(** [populate] returns a document with the header it was given. *)
Lemma populate_header net page md w :
  exists md',
    fst (populate net page md w) = inr md'
    /\ md_page_title md' = md_page_title md
    /\ md_url md' = md_url md
    /\ md_timestamp md' = md_timestamp md
    /\ md_exists md' = md_exists md.
Proof.
  rewrite populate_eq. cbv zeta.
  destruct (files_body net page w) as [[ef|fs] w1];
    destruct (basic_info_body page) as [eb|vb];
    destruct (categories_body page) as [ec|vc];
    destruct (page_revisions page) as [er|revs];
    cbn [fst]; eexists; (split; [reflexivity|]);
    try match goal with
        | |- context [fold_left append_revision ?l ?m] =>
            let H := fresh in
            pose proof (fold_append_revision_header l m) as H; cbv zeta in H;
            destruct H as (-> & -> & -> & ->)
        end; cbn; done.
Qed.

(** The run of [main] after the title is resolved and the client built. *)
Lemma main_eq net client prog target rest now w :
  main net client (prog :: target :: rest) now w
  = match extract_title net target w with
    | (inl e, w1) => (inl e, w1)
    | (inr title, w1) =>
        match client with
        | inl e => (inl e, w1)
        | inr site =>
            match site (next_lookup w1) title with
            | inl e => (inl e, mkWorld (next_call w1) (S (next_lookup w1)) (trace w1))
            | inr page0 =>
                match poll_exists site 3 title page0
                        (mkWorld (next_call w1) (S (next_lookup w1)) (trace w1)) with
                | (inl e, w2) => (inl e, w2)
                | (inr page, w2) =>
                    match quote title with
                    | inl e => (inl e, w2)
                    | inr quoted =>
                        match populate net page
                                (initial_metadata title
                                   ("https://imslp.org/wiki/" ++ quoted) now page) w2 with
                        | (inl e, w3) => (inl e, w3)
                        | (inr md, w3) => (inr (Printed md), w3)
                        end
                    end
                end
            end
        end
    end.
Proof.
  unfold main, bind, lift, lookup_page, ret.
  destruct (extract_title net target w) as [[e|title] w1]; [done|].
  destruct client as [e|site]; [done|].
  destruct (site (next_lookup w1) title) as [e|page0]; [done|].
  cbn [next_call next_lookup trace].
  destruct (poll_exists site 3 title page0 _) as [[e|page] w2]; [done|].
  destruct (quote title) as [e|quoted]; [done|].
  by destruct (populate net page _ w2) as [[e|md] w3].
Qed.

(** X12.  Given a target on the command line whose digits, if it is made
    of digits, are ASCII, a client that could be built, page lookups that
    return page objects and a resolved title that [quote] can encode,
    [main] prints a document whatever the network answers: its
    [page_title] is the title [extract_title] resolved, its [timestamp]
    the time of the run, its [url] is [https://imslp.org/wiki/] followed
    by the quoted title, and resolving that [url] again gives the
    [page_title] back without any network call. *)
Theorem main_prints
    (net : Transport) (site : Site) (prog target : string) (rest : list string)
    (now : string) (w : world) (title quoted : string) :
  (forall i t, exists p, site i t = inr p) ->
  isdigit_decided target = true ->
  fst (extract_title net target w) = inr title ->
  quote title = inr quoted ->
  exists md,
    fst (main net (inr site) (prog :: target :: rest) now w) = inr (Printed md)
    /\ md_page_title md = title
    /\ md_timestamp md = now
    /\ md_url md = "https://imslp.org/wiki/" ++ quoted
    /\ (forall net' w',
          extract_title net' (md_url md) w' = (inr (md_page_title md), w')).
Proof.
  intros Hsite _ Ht Hq. rewrite main_eq.
  destruct (extract_title net target w) as [rt w1]. cbn [fst] in Ht. subst rt.
  destruct (Hsite (next_lookup w1) title) as [page0 ->].
  destruct (poll_exists_run site 3 title page0
              (mkWorld (next_call w1) (S (next_lookup w1)) (trace w1)))
    as (k & _ & -> & _).
  assert (Hk : exists page, polled site title page0
                 (mkWorld (next_call w1) (S (next_lookup w1)) (trace w1)) k = inr page).
  { destruct k as [|k]; cbn [polled]; [by eexists|]. apply Hsite. }
  destruct Hk as [page ->]. rewrite Hq.
  match goal with
  | |- context [populate net ?p ?m ?w0] =>
      destruct (populate_header net p m w0) as (md & Hrun & Hpt & Hurl & Hts & _);
      destruct (populate net p m w0) as [rp w3]
  end.
  cbn [fst] in Hrun. subst rp. cbn [fst].
  exists md. cbn [initial_metadata md_page_title md_url md_timestamp] in Hpt, Hurl, Hts.
  split; [done|]. split; [done|]. split; [done|]. split; [done|].
  intros net' w'. rewrite Hurl, Hpt. by apply extract_title_quoted.
Qed.

(** X13.  Without a target [main] exits with status 1 and touches
    nothing.  With one, the only exceptions that end the process are the
    one of building the client, the one of a page lookup and the
    [UnicodeEncodeError] of quoting a title that holds a lone surrogate:
    everything else is contained.  And every run issues at most 10 GETs
    (4 to resolve the target, 6 for the file list), makes at most 4 page
    lookups and sleeps at most 20.25 seconds in total. *)
Theorem main_bounded
    (net : Transport) (client : result Site) (argv : list string) (now : string) :
  ((length argv < 2)%nat ->
     forall w, main net client argv now w = (inr (Exit 1), w))
  /\ (forall w e,
        fst (main net client argv now w) = inl e ->
        client = inl e
        \/ (exists site i t, client = inr site /\ site i t = inl e)
        \/ (exists title, quote title = inl e /\ valid_utf8 title = false
                          /\ exn_class_of e = UnicodeEncodeError))
  /\ within (main net client argv now) 10 4 (81 # 4).
Proof.
  split; [|split; [|apply within_main]].
  - intros Hlen w. destruct argv as [|prog [|target rest]]; [done|done|].
    simpl in Hlen. lia.
  - intros w e. destruct argv as [|prog [|target rest]]; [done|done|].
    rewrite main_eq.
    destruct (extract_title_returns net target w) as [title Ht].
    destruct (extract_title net target w) as [rt w1]. cbn [fst] in Ht. subst rt.
    destruct client as [e'|site]; cbn [fst]; [intros [= ->]; by left|].
    destruct (site (next_lookup w1) title) as [e'|page0] eqn:Hs0; cbn [fst].
    { intros [= ->]. right; left. eauto. }
    destruct (poll_exists_run site 3 title page0
                (mkWorld (next_call w1) (S (next_lookup w1)) (trace w1)))
      as (k & _ & -> & _).
    destruct (polled site title page0 _ k) as [e'|page] eqn:Hpk.
    { intros [= ->]. right; left.
      destruct k as [|k]; cbn [polled] in Hpk; [done|]. eauto. }
    destruct (quote title) as [e'|quoted] eqn:Hq.
    { intros [= ->]. right; right. exists title. split; [done|].
      unfold quote in Hq. destruct (valid_utf8 title); [done|]. by simplify_eq. }
    match goal with
    | |- context [populate net ?p ?m ?w0] =>
        destruct (populate_header net p m w0) as (md & Hrun & _);
        destruct (populate net p m w0) as [rp w3]
    end.
    cbn [fst] in Hrun. subst rp. done.
Qed.

(** A title that holds a lone surrogate (here U+DCFF, as [sys.argv] gives
    for a byte that is not UTF-8) ends the process at [quote]: the page
    has been fetched, nothing is printed. *)
Example main_lone_surrogate :
  main net_down (inr site_ok)
    ["imslp_enrich.py"; String "237" (String "179" (String "191" EmptyString))]
    "2026-01-01T00:00:00" world0
  = (inl (Exn UnicodeEncodeError
            "'utf-8' codec can't encode character '\udcff' in position 0: surrogates not allowed"),
     mkWorld 0 1 []).
Proof. reflexivity. Qed.

(** ** The file list, whatever the network answers *)

Lemma reconcile_names (by_title : gmap string json) (fs : list FileRecord) :
  map f_name (fst (reconcile by_title fs)) = map f_name fs.
Proof.
  induction fs as [|f fs IH]; [done|]. cbn [reconcile].
  destruct (matched_info by_title f) as [info|].
  - destruct (merge_file_title info f) as [_ Hn].
    destruct (merge_file info f) as [f' [e|]]; cbn [fst] in Hn.
    + cbn. by rewrite Hn.
    + destruct (reconcile by_title fs) as [rest' e']. cbn in *. by rewrite Hn, IH.
  - destruct (reconcile by_title fs) as [rest' e']. cbn in *. by rewrite IH.
Qed.

Lemma seed_phase_length (imgs : list Image) fs titles :
  seed_phase imgs = inr (fs, titles) -> length fs = length imgs.
Proof.
  intros H. apply seed_phase_inr in H as [Hall _].
  symmetry. by apply Forall2_length in Hall.
Qed.

Lemma enrich_and_merge_keeps net (fs : list FileRecord) (titles : list string) w :
  exists fs',
    fst (enrich_and_merge net fs titles w) = inr fs'
    /\ map f_name fs' = map f_name fs
    /\ map f_title fs' = map f_title fs.
Proof.
  unfold enrich_and_merge. destruct titles as [|t ts]; [by exists fs|].
  unfold try_except, bind, ret.
  destruct (enrich_loop net (chunks (t :: ts)) ∅ w) as [[e|bt] w1]; cbn [fst].
  - by exists fs.
  - eexists. split; [reflexivity|]. split; [apply reconcile_names|apply reconcile_titles].
Qed.

(** X14.  Whatever the network answers, the file list that comes out of
    the file section has one record per listed image, in the listing
    order, with the names and titles the seed phase gave: enrichment never
    adds, drops, reorders or renames a record, and there are never more
    than 100. *)
Theorem files_body_keeps_records
    (net : Transport) (page : Page) (w : world) (fs' : list FileRecord) :
  fst (files_body net page w) = inr fs' ->
  exists fs titles,
    seed_phase (listed_images page) = inr (fs, titles)
    /\ map f_name fs' = map f_name fs
    /\ map f_title fs' = map f_title fs
    /\ length fs' = length (listed_images page)
    /\ (length fs' <= 100)%nat.
Proof.
  unfold files_body, bind, lift.
  destruct (seed_phase (listed_images page)) as [e|[fs titles]] eqn:Hseed; [done|].
  cbn [fst snd]. intros H.
  destruct (enrich_and_merge_keeps net fs titles w) as (fs2 & Hrun & Hn & Ht).
  rewrite Hrun in H. injection H as <-.
  exists fs, titles. split; [done|]. split; [done|]. split; [done|].
  assert (Hlen : length fs2 = length (listed_images page)).
  { rewrite <- (seed_phase_length _ _ _ Hseed).
    rewrite <- (length_map f_name fs2), Hn. by rewrite length_map. }
  split; [done|]. rewrite Hlen. apply listed_images_length.
Qed.

(** X15.  When no listed image has a non-empty name or page title, there
    is no merge key and the file section does not touch the network: the
    records are the seeded ones and the world is unchanged. *)
Theorem files_body_without_keys
    (net : Transport) (page : Page) (w : world)
    (fs : list FileRecord) (titles : list string) :
  seed_phase (listed_images page) = inr (fs, titles) ->
  Forall (fun f => str_truthy (f_title f) = false) fs ->
  files_body net page w = (inr fs, w).
Proof.
  intros Hseed Hall.
  assert (Ht : titles = []).
  { apply seed_phase_inr in Hseed as [_ ->].
    induction Hall as [|f fs Hf Hall IH]; [done|].
    rewrite merge_keys_cons, Hf. exact IH. }
  unfold files_body, bind, lift. rewrite Hseed. cbn [fst snd]. by rewrite Ht.
Qed.

Lemma seed_phase_first_failure (pre post : list Image) (img : Image) (e : exn) st :
  seed_phase pre = inr st ->
  seed_file img = inl e ->
  seed_phase (pre ++ img :: post) = inl e.
Proof.
  revert st. induction pre as [|i pre IH]; intros st Hpre Himg.
  - cbn [app seed_phase]. by rewrite Himg.
  - cbn [app seed_phase] in *.
    destruct (seed_file i) as [?|[f t]]; [done|]. cbn [rbind] in *.
    destruct (seed_phase pre) as [?|[fs ts]] eqn:Hp; [done|].
    by rewrite (IH _ eq_refl Himg).
Qed.

(** X16.  One listing entry that cannot be read voids the whole file
    list: when the entries before it are read and reading it raises [e],
    the document has [files = []] and [files_error = str(e)], the entries
    read before are dropped, and no GET is issued. *)
Theorem populate_unreadable_image
    (net : Transport) (page : Page) (title url now : string) (w : world)
    (pre post : list Image) (img : Image) (e : exn) st :
  listed_images page = (pre ++ img :: post)%list ->
  seed_phase pre = inr st ->
  seed_file img = inl e ->
  exists md,
    populate net page (initial_metadata title url now page) w = (inr md, w)
    /\ md_files md = []
    /\ md_files_error md = Some (str_of_exn e).
Proof.
  intros Hlist Hpre Himg.
  assert (Hseed : seed_phase (listed_images page) = inl e)
    by (rewrite Hlist; by eapply seed_phase_first_failure).
  assert (Hbody : files_body net page w = (inl e, w))
    by (unfold files_body, bind, lift; by rewrite Hseed).
  destruct (populate_initial net page title url now w) as (md & Hrun & _ & _ & Hf & _).
  rewrite Hbody in Hrun, Hf. cbn [fst snd section_outcome] in Hrun, Hf.
  exists md. by destruct Hf.
Qed.

(** X17.  A listing entry without usable [imageinfo] (the attribute is
    missing, or it is not a dictionary, or it is empty) still gives a
    record: name and title as usual, every metadata field and every
    download url null. *)
Theorem seed_file_without_imageinfo
    (img : Image) (info : json) (name ptitle : option string) :
  getattr_default (img_imageinfo img) (JObj []) = inr info ->
  (forall kv, info = JObj kv -> kv = []) ->
  getattr_default (img_page_title img) None = inr ptitle ->
  getattr_default (img_name img) None = inr name ->
  exists ts,
    seed_file img
    = inr (mkFileRecord name (str_or name ptitle) JNull JNull JNull JNull JNull JNull
             (mkDownloadUrls JNull JNull JNull), ts).
Proof.
  intros Hinfo Hempty Hpt Hn. unfold seed_file. rewrite Hinfo, Hpt, Hn.
  cbn [rbind].
  assert (Hf : forall k, info_field info k = JNull).
  { intros k. destruct info as [| | | | |kv]; try done.
    by rewrite (Hempty kv eq_refl). }
  rewrite !Hf. cbn. by eexists.
Qed.

(** X18.  The basic-info section succeeds exactly when reading [name] and
    [page_title] does not raise and reading [pageid], [namespace] and
    [revision] raises nothing but an [AttributeError]; a missing optional
    attribute is then reported as null, and the five keys come in a fixed
    order. *)
Theorem basic_info_body_ok (page : Page) (v : list (string * json)) :
  basic_info_body page = inr v <->
  exists name ptitle,
    page_name page = inr name
    /\ page_page_title page = inr ptitle
    /\ optional_ok (page_pageid page)
    /\ optional_ok (page_namespace page)
    /\ optional_ok (page_revision page)
    /\ v = [("page_name", name); ("page_title", ptitle);
            ("page_id", optional_value (page_pageid page));
            ("namespace", optional_value (page_namespace page));
            ("last_revision", optional_value (page_revision page))].
Proof.
  unfold basic_info_body, getattr_default, optional_ok, optional_value.
  destruct (page_name page) as [e1|name]; cbn [rbind].
  { split; [done|]. by intros (? & ? & ? & _). }
  destruct (page_page_title page) as [e2|ptitle]; cbn [rbind].
  { split; [done|]. by intros (? & ? & _ & ? & _). }
  destruct (page_pageid page) as [e3|pid];
    [destruct (is_attribute_error e3)|];
    destruct (page_namespace page) as [e4|ns];
    try destruct (is_attribute_error e4);
    destruct (page_revision page) as [e5|rev];
    try destruct (is_attribute_error e5);
    cbn [rbind];
    (split;
     [intros H; simplify_eq; by exists name, ptitle
     |intros (n & p & Hn & Hp & H3 & H4 & H5 & ->); by simplify_eq]).
Qed.

(** X19.  Every document has at most 5 revision records and at most 100
    file records, whatever the page lists and the network answers. *)
Theorem populate_section_sizes
    (net : Transport) (page : Page) (title url now : string) (w : world) :
  exists md,
    fst (populate net page (initial_metadata title url now page) w) = inr md
    /\ (length (md_revision_history md) <= 5)%nat
    /\ (length (md_files md) <= 100)%nat.
Proof.
  destruct (populate_initial net page title url now w)
    as (md & Hrun & _ & _ & Hf & Hr).
  exists md. rewrite Hrun. split; [done|]. split.
  - unfold section_outcome in Hr. destruct (page_revisions page) as [e|revs];
      cbn [rbind] in Hr; destruct Hr as [-> _]; [simpl; lia|].
    rewrite length_map, length_take. lia.
  - unfold section_outcome in Hf.
    destruct (fst (files_body net page w)) as [e|fs] eqn:Hb;
      destruct Hf as [-> _]; [simpl; lia|].
    unfold files_body, bind, lift in Hb.
    destruct (seed_phase (listed_images page)) as [e|[fs0 titles]] eqn:Hseed; [done|].
    cbn [fst snd] in Hb.
    destruct (enrich_and_merge_keeps net fs0 titles w) as (fs2 & Hrun2 & Hn & _).
    rewrite Hrun2 in Hb. injection Hb as <-.
    rewrite <- (length_map f_name fs2), Hn, length_map.
    rewrite (seed_phase_length _ _ _ Hseed). apply listed_images_length.
Qed.

Lemma reconcile_empty (fs : list FileRecord) : reconcile ∅ fs = (fs, None).
Proof.
  induction fs as [|f fs IH]; [done|]. cbn [reconcile].
  assert (Hm : matched_info ∅ f = None).
  { unfold matched_info. destruct (f_title f) as [t|]; [|done].
    by rewrite lookup_empty. }
  by rewrite Hm, IH.
Qed.

Lemma get_with_retry_answered net url params timeout tries b w r :
  net (next_call w) (mkRequest url params HEADERS timeout) = inr r ->
  get_with_retry net url params timeout tries b w
  = (inr r, mkWorld (S (next_call w)) (next_lookup w)
              (trace w ++ [EvGet (mkRequest url params HEADERS timeout)])).
Proof.
  intros Hnet. unfold get_with_retry.
  destruct (Z.to_nat (Z.max 1 tries)) as [|n] eqn:Hn; [lia|].
  by rewrite retry_loop_step, Hnet.
Qed.

Lemma enrich_loop_not_ok net (cs : list (list string)) :
  (forall i rq, exists r, net i rq = inr r /\ ok r = false) ->
  forall by_title w,
  exists w',
    enrich_loop net cs by_title w = (inr by_title, w')
    /\ reaches w w' (map (fun c => EvGet (imageinfo_request c)) cs) 0.
Proof.
  intros Hnet. induction cs as [|c cs IH]; intros by_title w.
  - exists w. split; [done|apply reaches_refl].
  - cbn [enrich_loop]. unfold bind at 1.
    destruct (Hnet (next_call w) (imageinfo_request c)) as (r & Hr & Hok).
    unfold imageinfo_request in Hr.
    rewrite (get_with_retry_answered _ _ _ _ _ _ _ _ Hr).
    unfold bind at 1. unfold lift, collect_response. rewrite Hok.
    destruct (IH by_title
                (mkWorld (S (next_call w)) (next_lookup w)
                   (trace w ++ [EvGet (mkRequest API_URL
                      (imageinfo_params (str_join "|" c)) HEADERS 20)])))
      as (w' & Hrun & Hreach).
    exists w'. split; [exact Hrun|].
    change (map (fun c0 => EvGet (imageinfo_request c0)) (c :: cs))
      with ([EvGet (imageinfo_request c)]
            ++ map (fun c0 => EvGet (imageinfo_request c0)) cs)%list.
    eapply (reaches_trans _ _ _ _ _ 0 0); [|exact Hreach].
    unfold reaches, imageinfo_request. cbn. repeat split; lia.
Qed.

(** X20.  An HTTP error status is not a failure of the fetch: when every
    GET is answered with a status that is not OK, each chunk is queried
    exactly once, nothing is slept, no answer is read, and the file list
    is the seeded one. *)
Theorem files_body_http_errors
    (net : Transport) (page : Page) (w : world)
    (fs : list FileRecord) (titles : list string) :
  (forall i rq, exists r, net i rq = inr r /\ ok r = false) ->
  seed_phase (listed_images page) = inr (fs, titles) ->
  exists evs,
    fst (files_body net page w) = inr fs
    /\ reaches w (snd (files_body net page w)) evs 0
    /\ gets_of evs = map imageinfo_request (chunks titles)
    /\ sleeps_of evs = [].
Proof.
  intros Hnet Hseed.
  unfold files_body, bind, lift. rewrite Hseed. cbn [fst snd].
  exists (map (fun c => EvGet (imageinfo_request c)) (chunks titles)).
  assert (Hg : forall cs, gets_of (map (fun c => EvGet (imageinfo_request c)) cs)
                          = map imageinfo_request cs)
    by (induction cs as [|c cs IH]; [done|];
        change (gets_of (map (fun c0 => EvGet (imageinfo_request c0)) (c :: cs)))
          with (imageinfo_request c
                :: gets_of (map (fun c0 => EvGet (imageinfo_request c0)) cs));
        by rewrite IH).
  assert (Hs : forall cs, sleeps_of (map (fun c => EvGet (imageinfo_request c)) cs) = [])
    by (induction cs as [|c cs IH]; [done|exact IH]).
  rewrite Hg, Hs.
  unfold enrich_and_merge. destruct titles as [|t ts].
  - split; [done|]. split; [apply reaches_refl|done].
  - unfold try_except, bind, ret.
    destruct (enrich_loop_not_ok net (chunks (t :: ts)) Hnet ∅ w) as (w' & -> & Hreach).
    cbn [fst snd]. by rewrite reconcile_empty.
Qed.

(** ** Strings that [replace] leaves alone *)

Lemma replace_absent (old new s : string) :
  contains old s = false -> replace_from old new 0 s = s.
Proof.
  induction s as [|c s IH]; [done|]. cbn [contains replace_from].
  intros H. apply orb_false_iff in H as [Hp Hc]. rewrite Hp. by rewrite IH.
Qed.

(** X21.  A seeded url that contains no [http:] (an [https:] url, for
    one) is its own [https] form, and a url that does not begin with [//]
    or contains no [//imslp.org/] is its own [direct] form. *)
Theorem seed_file_urls_unchanged
    (img : Image) (f : FileRecord) (ts : list string) (s : string) :
  seed_file img = inr (f, ts) ->
  f_url f = JStr s ->
  s <> EmptyString ->
  (contains "http:" s = false -> https (f_download_urls f) = JStr s)
  /\ (startswith s "//" = false \/ contains "//imslp.org/" s = false ->
      direct (f_download_urls f) = JStr s).
Proof.
  intros Hseed Hurl Hne.
  apply seed_file_inr in Hseed as (info & name & ptitle & _ & _ & _ & _ & _ & _ & Hd & _).
  apply seed_download_urls_inr in Hd as (_ & _ & Htrue).
  destruct Htrue as (s' & Hs' & _ & Hh & Hdir).
  { rewrite Hurl. simpl. apply String.eqb_neq in Hne. by rewrite Hne. }
  rewrite Hurl in Hs'. injection Hs' as <-. split.
  - intros Hc. rewrite Hh. unfold str_replace. by rewrite replace_absent.
  - intros [Hsw|Hc]; rewrite Hdir.
    + by rewrite Hsw.
    + destruct (startswith s "//"); [|done].
      unfold str_replace. by rewrite replace_absent.
Qed.

(** ** Reconciliation with a batched url *)

(** X22.  When the merge loop runs to its end, every record whose batched
    info has a non-empty url ends with that url, and its [download_urls]
    agree with it: [original] and [direct] are the url, [https] is the
    url with [http:] replaced by [https:]. *)
Theorem reconcile_remote_url
    (by_title : gmap string json) (fs fs' : list FileRecord) :
  reconcile by_title fs = (fs', None) ->
  Forall2 (fun f f' =>
             forall t info,
               f_title f = Some t -> by_title !! t = Some info ->
               truthy info = true ->
               truthy (info_field info "url") = true ->
               exists s,
                 info_field info "url" = JStr s
                 /\ f_url f' = JStr s
                 /\ original (f_download_urls f') = JStr s
                 /\ https (f_download_urls f') = JStr (str_replace "http:" "https:" s)
                 /\ direct (f_download_urls f') = JStr s)
          fs fs'.
Proof.
  intros H. apply reconcile_completed in H.
  eapply Forall2_impl; [exact H|]. clear H.
  intros f f' H t info Ht Hl Hi Hu. cbv beta in H.
  assert (Hm : matched_info by_title f = Some info)
    by (apply matched_info_truthy; eauto).
  rewrite Hm in H.
  destruct (merge_file_url_str _ _ _ H Hu) as (s0 & Hs0 & _).
  destruct (merge_file_download_urls _ _ _ H Hu) as (s & Hs & Ho & Hh & Hd).
  apply merge_file_fields in H as (_ & _ & [Hurl _] & _).
  specialize (Hurl Hu). rewrite Hurl, Hs0 in Hs. injection Hs as <-.
  exists s0. rewrite Ho, Hd, Hh, Hurl, Hs0. done.
Qed.

(** ** Reading the batched answer *)

Lemma py_or_truthy (a b : json) : truthy (py_or a b) = true -> truthy b = false -> py_or a b = a.
Proof. unfold py_or. destruct (truthy a); [done|congruence]. Qed.

(** X23.  The mapping built from the page entries of an answer holds,
    besides what it held before, only titles of entries paired with the
    FIRST element of their [imageinfo]: an entry without a non-empty
    string title or without a non-empty [imageinfo] contributes nothing. *)
Theorem collect_pages_sound (ps : list json) :
  forall (by_title by_title' : gmap string json),
  collect_pages ps by_title = inr by_title' ->
  forall t info,
    by_title' !! t = Some info ->
    by_title !! t = Some info
    \/ exists p ii,
         p ∈ ps
         /\ t <> EmptyString
         /\ dict_get p "title" JNull = inr (JStr t)
         /\ dict_get p "imageinfo" JNull = inr ii
         /\ truthy ii = true
         /\ index0 ii = inr info.
Proof.
  induction ps as [|p ps IH]; intros m m' H t info Hl; cbn [collect_pages] in H.
  - left. by simplify_eq.
  - destruct (dict_get p "title" JNull) as [e|ti] eqn:Hti; [done|].
    destruct (dict_get p "imageinfo" JNull) as [e|iiv] eqn:Hii; [done|].
    cbn [rbind] in H.
    destruct (negb (truthy ti) || negb (truthy (py_or iiv (JArr [])))) eqn:Hskip.
    + destruct (IH _ _ H t info Hl) as [?|(p' & ii & Hin & ?)]; [by left|].
      right. exists p', ii. split; [by apply list_elem_of_further|done].
    + apply orb_false_iff in Hskip as [Htt Hiit].
      apply negb_false_iff in Htt, Hiit.
      assert (Hor : py_or iiv (JArr []) = iiv) by (by apply py_or_truthy).
      rewrite Hor in H, Hiit.
      destruct (index0 iiv) as [e|info0] eqn:Hidx; [done|]. cbn [rbind] in H.
      destruct (store_info ti info0 m) as [e|m1] eqn:Hst; [done|]. cbn [rbind] in H.
      destruct (IH _ _ H t info Hl) as [Hm1|(p' & ii & Hin & ?)].
      * destruct ti as [| | |t0| |]; cbn [store_info] in Hst; simplify_eq;
          try (by left).
        destruct (decide (t0 = t)) as [->|Hne].
        { rewrite lookup_insert_eq in Hm1. simplify_eq.
          right. exists p, iiv. split; [by apply list_elem_of_here|].
          split; [|done].
          simpl in Htt. by apply negb_true_iff, String.eqb_neq in Htt. }
        { rewrite lookup_insert_ne in Hm1 by done. by left. }
      * right. exists p', ii. split; [by apply list_elem_of_further|done].
Qed.

(** ** The canonical link *)









(** ** The [exists] flag *)

Lemma within_no_lookup {A} (m : M A) g t w :
  within m g 0 t -> next_lookup (snd (m w)) = next_lookup w.
Proof.
  intros H. destruct (H w) as (evs & l & (_ & _ & Hl) & _ & Hl0 & _). lia.
Qed.

(** X25.  A printed document says [exists: false] only after the page was
    fetched four times (the first fetch and three re-fetches, 2 seconds
    apart) and was found not to exist every time. *)
Theorem main_exists_false
    (net : Transport) (site : Site) (prog target : string) (rest : list string)
    (now : string) (w w' : world) (md : Metadata) :
  main net (inr site) (prog :: target :: rest) now w = (inr (Printed md), w') ->
  md_exists md = false ->
  next_lookup w' = (next_lookup w + 4)%nat
  /\ forall i, (i < 4)%nat ->
       exists p, site (next_lookup w + i)%nat (md_page_title md) = inr p
                 /\ page_exists p = false.
Proof.
  rewrite main_eq. intros Hrun Hex.
  pose proof (within_no_lookup _ _ _ w (within_extract_title net target)) as Hl1.
  destruct (extract_title net target w) as [[e|title] w1]; [done|]. cbn [snd] in Hl1.
  destruct (site (next_lookup w1) title) as [e|page0] eqn:Hs0; [done|].
  destruct (poll_exists_run site 3 title page0
              (mkWorld (next_call w1) (S (next_lookup w1)) (trace w1)))
    as (k & Hk & Hpoll & Hnot & Hlast).
  rewrite Hpoll in Hrun.
  destruct (polled site title page0 _ k) as [e|page] eqn:Hpk; [done|].
  destruct (quote title) as [e|quoted]; [done|].
  match type of Hrun with
  | context [populate net ?p ?m ?w0] =>
      destruct (populate_header net p m w0) as (md' & Hpop & Hpt & _ & _ & Hexi);
      pose proof (within_no_lookup _ _ _ w0 (within_populate net p m)) as Hl3;
      destruct (populate net p m w0) as [rp w3]
  end.
  cbn [fst snd] in Hpop, Hl3. subst rp. injection Hrun as <- <-.
  cbn [initial_metadata md_exists md_page_title] in Hexi, Hpt.
  rewrite Hexi in Hex. rewrite Hpt.
  assert (k = 3%nat) as -> by (destruct Hlast as [?|Ht]; [done|congruence]).
  cbn [next_lookup] in Hl3. split; [lia|].
  intros i Hi. rewrite <- Hl1.
  destruct i as [|i].
  - rewrite Nat.add_0_r. exists page0. split; [done|].
    destruct (Hnot 0%nat ltac:(lia)) as (p & Hp & Hpe). cbn [polled] in Hp. by simplify_eq.
  - destruct (decide (i = 2%nat)) as [->|Hne].
    + exists page. cbn [polled next_lookup] in Hpk. split; [|done].
      rewrite <- Hpk. f_equal. lia.
    + destruct (Hnot (S i) ltac:(lia)) as (p & Hp & Hpe).
      cbn [polled next_lookup] in Hp. exists p. split; [|done].
      rewrite <- Hp. f_equal. lia.
Qed.

(** ** The categories *)

Lemma category_names_ok (cats : list Category) :
  forall v, category_names cats = inr v <-> Forall2 (fun c n => cat_name c = inr n) cats v.
Proof.
  induction cats as [|c cats IH]; intros v; cbn [category_names].
  - split; [intros [= <-]; constructor|]. intros H. by apply Forall2_nil_inv_l in H as ->.
  - destruct (cat_name c) as [e|n] eqn:Hc; cbn [rbind].
    + split; [done|]. intros H. apply Forall2_cons_inv_l in H as (n & v' & Hn & _ & _).
      congruence.
    + destruct (category_names cats) as [e|ns] eqn:Hns; cbn [rbind].
      * split; [done|]. intros H.
        apply Forall2_cons_inv_l in H as (n' & v' & _ & Hall & _).
        apply IH in Hall. done.
      * split.
        { intros [= <-]. constructor; [done|]. by apply IH. }
        { intros H. apply Forall2_cons_inv_l in H as (n' & v' & Hn & Hall & ->).
          apply IH in Hall. congruence. }
Qed.

(** X26.  The categories section succeeds exactly when the listing can be
    consumed and the name of every category can be read; it then holds
    one name per category, in the listing order (no cap, no filter). *)
Theorem categories_body_ok (page : Page) (v : list json) :
  categories_body page = inr v <->
  exists cats,
    page_categories page = inr cats
    /\ Forall2 (fun c n => cat_name c = inr n) cats v.
Proof.
  unfold categories_body. destruct (page_categories page) as [e|cats]; cbn [rbind].
  - split; [done|]. by intros (cats & ? & _).
  - rewrite category_names_ok. split; [by exists cats|].
    by intros (cats' & [= <-] & H).
Qed.

(** ** The further properties at concrete inputs *)

(** A budget of 5 tries, an answer at the third GET. *)
Lemma get_with_retry_first_answer_witness :
  exists evs,
    fst (get_with_retry net_fails_twice API_URL [] 15 5 1.5%float world0) = inr resp_symphony
    /\ reaches world0 (snd (get_with_retry net_fails_twice API_URL [] 15 5 1.5%float world0)) evs 0
    /\ gets_of evs = replicate 3 (mkRequest API_URL [] HEADERS 15)
    /\ sleeps_of evs = [1; 3 # 2]%Q.
Proof.
  apply (get_with_retry_first_answer net_fails_twice API_URL [] 15 5 1.5%float 2 world0
           resp_symphony).
  - vm_compute. lia.
  - intros i Hi. destruct i as [|[|i]]; [eexists; reflexivity..|lia].
  - reflexivity.
  - repeat (constructor; [reflexivity|]). constructor.
Defined.

(** [tries = 0] is one attempt: one GET, one sleep, the timeout raised. *)
Lemma get_with_retry_gives_up_witness :
  exists e evs,
    fst (get_with_retry net_down API_URL [] 15 0 1.5%float world0) = inl e
    /\ net_down (next_call world0 + (attempts 0 - 1))%nat (mkRequest API_URL [] HEADERS 15)
       = inl e
    /\ reaches world0 (snd (get_with_retry net_down API_URL [] 15 0 1.5%float world0)) evs 0
    /\ gets_of evs = replicate (attempts 0) (mkRequest API_URL [] HEADERS 15)
    /\ sleeps_of evs = [1%Q].
Proof.
  apply (get_with_retry_gives_up net_down API_URL [] 15 0 1.5%float world0).
  - intros i _. eexists. reflexivity.
  - repeat (constructor; [reflexivity|]). constructor.
Defined.

Lemma extract_title_html_title_witness :
  exists w2,
    extract_title net_html_fallback "12345" world0
    = (inr (str_replace "_" " " (unquote "Symphony_No.5_%28Beethoven%29")), w2)
    /\ reaches world_after_api w2
         [EvGet (mkRequest INDEX_URL [("curid", "12345")] [] 15)] 0
    /\ no_underscore (str_replace "_" " " (unquote "Symphony_No.5_%28Beethoven%29")) = true.
Proof.
  apply (extract_title_html_title net_html_fallback "12345" world0 world_after_api
           (mkResponse true (inl (Exn ValueError "not JSON")) html_canonical)
           "Symphony_No.5_%28Beethoven%29").
  - reflexivity.
  - reflexivity.
  - reflexivity.
  - reflexivity.
  - reflexivity.
Defined.

(** A slug with a character outside ASCII. *)
Lemma extract_title_plain_slug_witness :
  extract_title net_down slug_cafe world0 = (inr slug_cafe, world0).
Proof.
  apply (extract_title_plain_slug net_down slug_cafe world0); reflexivity.
Defined.

Lemma extract_title_of_document_url_witness :
  quote slug_cafe = inr "Caf%C3%A9_Suite%20No.1"
  /\ extract_title net_down "https://imslp.org/wiki/Caf%C3%A9_Suite%20No.1" world0
     = (inr slug_cafe, world0).
Proof.
  split; [reflexivity|].
  apply (extract_title_of_document_url net_down slug_cafe "Caf%C3%A9_Suite%20No.1" world0).
  reflexivity.
Defined.

Lemma main_prints_witness :
  exists md,
    fst (main net_down (inr site_ok) ["imslp_enrich.py"; "Symphony No.5"]
           "2026-01-01T00:00:00" world0) = inr (Printed md)
    /\ md_page_title md = "Symphony No.5"
    /\ md_timestamp md = "2026-01-01T00:00:00"
    /\ md_url md = "https://imslp.org/wiki/" ++ "Symphony%20No.5"
    /\ (forall net' w',
          extract_title net' (md_url md) w' = (inr (md_page_title md), w')).
Proof.
  apply (main_prints net_down site_ok "imslp_enrich.py" "Symphony No.5" []
           "2026-01-01T00:00:00" world0).
  - intros i t. eexists. reflexivity.
  - reflexivity.
  - reflexivity.
  - reflexivity.
Defined.

Lemma files_body_keeps_records_witness :
  exists fs titles,
    seed_phase (listed_images page_ok) = inr (fs, titles)
    /\ map f_name [rec_seeded] = map f_name fs
    /\ map f_title [rec_seeded] = map f_title fs
    /\ length [rec_seeded] = length (listed_images page_ok)
    /\ (length [rec_seeded] <= 100)%nat.
Proof.
  apply (files_body_keeps_records net_down page_ok world0 [rec_seeded]). reflexivity.
Defined.

Lemma files_body_without_keys_witness :
  files_body net_down page_anonymous world0 = (inr [rec_anonymous], world0).
Proof.
  apply (files_body_without_keys net_down page_anonymous world0 [rec_anonymous] []).
  - reflexivity.
  - constructor; [reflexivity|constructor].
Defined.

Lemma populate_unreadable_image_witness :
  exists md,
    populate net_down page_unreadable (initial_metadata "P" "https://imslp.org/wiki/P" "now"
                                         page_unreadable) world0
    = (inr md, world0)
    /\ md_files md = []
    /\ md_files_error md = Some (str_of_exn (Exn OtherError "imageinfo unavailable")).
Proof.
  apply (populate_unreadable_image net_down page_unreadable "P" "https://imslp.org/wiki/P"
           "now" world0 [image_with_url "File:X.pdf" "http://imslp.org/x.pdf"] []
           img_unreadable (Exn OtherError "imageinfo unavailable")
           ([rec_seeded], ["File:X.pdf"])).
  - reflexivity.
  - reflexivity.
  - reflexivity.
Defined.

Lemma seed_file_without_imageinfo_witness :
  exists ts,
    seed_file img_a
    = inr (mkFileRecord (Some "File:A.pdf") (str_or (Some "File:A.pdf") (Some "A.pdf"))
             JNull JNull JNull JNull JNull JNull (mkDownloadUrls JNull JNull JNull), ts).
Proof.
  apply (seed_file_without_imageinfo img_a (JObj []) (Some "File:A.pdf") (Some "A.pdf")).
  - reflexivity.
  - intros kv [= <-]. reflexivity.
  - reflexivity.
  - reflexivity.
Defined.

Lemma files_body_http_errors_witness :
  exists evs,
    fst (files_body net_500 page_ok world0) = inr [rec_seeded]
    /\ reaches world0 (snd (files_body net_500 page_ok world0)) evs 0
    /\ gets_of evs = map imageinfo_request (chunks ["File:X.pdf"])
    /\ sleeps_of evs = [].
Proof.
  apply (files_body_http_errors net_500 page_ok world0 [rec_seeded] ["File:X.pdf"]).
  - intros i rq. exists resp_500. split; reflexivity.
  - reflexivity.
Defined.

Lemma seed_file_urls_unchanged_witness :
  https (f_download_urls rec_anonymous) = JStr "https://imslp.org/images/y.pdf"
  /\ direct (f_download_urls rec_anonymous) = JStr "https://imslp.org/images/y.pdf".
Proof.
  destruct (seed_file_urls_unchanged img_anonymous rec_anonymous []
              "https://imslp.org/images/y.pdf" eq_refl eq_refl) as [Hh Hd].
  - discriminate.
  - split; [apply Hh; reflexivity|apply Hd; left; reflexivity].
Defined.

Lemma reconcile_remote_url_witness :
  exists s,
    info_field (JObj [("url", JStr "https://imslp.org/images/x.pdf");
                      ("user", JStr EmptyString)]) "url" = JStr s
    /\ f_url rec_x_empty_user = JStr s
    /\ original (f_download_urls rec_x_empty_user) = JStr s
    /\ https (f_download_urls rec_x_empty_user) = JStr (str_replace "http:" "https:" s)
    /\ direct (f_download_urls rec_x_empty_user) = JStr s.
Proof.
  pose proof (reconcile_remote_url by_title_empty_user [rec_x] [rec_x_empty_user] eq_refl)
    as H.
  apply Forall2_cons in H as [H _].
  apply (H "File:X.pdf"); reflexivity.
Defined.

Lemma collect_pages_sound_witness :
  (∅ : gmap string json) !! "File:X.pdf"
  = Some (JObj [("filemissing", JStr EmptyString)])
  \/ exists p ii,
       p ∈ pages_file_missing
       /\ "File:X.pdf" <> EmptyString
       /\ dict_get p "title" JNull = inr (JStr "File:X.pdf")
       /\ dict_get p "imageinfo" JNull = inr ii
       /\ truthy ii = true
       /\ index0 ii = inr (JObj [("filemissing", JStr EmptyString)]).
Proof.
  apply (collect_pages_sound pages_file_missing ∅ by_title_no_url).
  - reflexivity.
  - reflexivity.
Defined.


Lemma main_exists_false_witness :
  next_lookup (snd run_missing) = (next_lookup world0 + 4)%nat
  /\ forall i, (i < 4)%nat ->
       exists p, site_missing (next_lookup world0 + i)%nat (md_page_title md_missing) = inr p
                 /\ page_exists p = false.
Proof.
  apply (main_exists_false net_down site_missing "imslp_enrich.py" "Foo" []
           "2026-01-01T00:00:00" world0 (snd run_missing) md_missing).
  - reflexivity.
  - reflexivity.
Defined.
